(** * autoSOC: the override submission script and the cascade resolver

    A shallow embedding of
    [JS/add_override(s)_to_specific_certificate_with_basic_validation.js]
    ([addOverride] with its inner [createNewOverride]) together with the
    JavaScript built-ins it calls ([parseInt], [String.prototype.trim],
    [Array.prototype.join], [JSON.stringify], template literals, promises),
    and of the cascade resolver described in section 4.3 of the design. *)

From stdpp Require Import gmap strings list fin_maps pretty.
From Stdlib Require Import ZArith String Ascii Lia.

Local Open Scope string_scope.
Local Open Scope Z_scope.
Local Open Scope list_scope.

(** ** JavaScript values

    Strings are kept as the UTF-8 bytes of the source text.  Numbers are the
    integer-valued doubles that identifiers and positions take, plus [NaN];
    they are held as integers and print in plain decimal.  This is the
    script's arithmetic on the safe integers ([isSafeInteger] below), where
    a double holds the integer itself: beyond them [parseInt] rounds to the
    nearest double and [Number.prototype.toString] writes the shortest
    digits that read back (exponent notation from 1e21 on), which the
    embedding does not follow; fractions are outside the model too. *)
Module JS.

Inductive prim :=
| Undefined
| Null
| Bool (b : bool)
| Num (n : Z)
| NaN
| Str (s : string).

(** Object literals keep the order of their properties, which
    [JSON.stringify] follows. *)
#[warnings="-register-all"]
Inductive value :=
| Prim (p : prim)
| Arr (items : list value)
| Obj (props : list (string * value)).

Inductive error_kind := ErrorK | TypeErrorK.

Record error := mkError { kind : error_kind; message : string }.

(** [new Error(msg)] *)
Definition Error (msg : string) : error := mkError ErrorK msg.
Definition TypeError (msg : string) : error := mkError TypeErrorK msg.

(** ToBoolean: what [!v] and [v || d] test. *)
Definition truthy (v : prim) : bool :=
  match v with
  | Undefined | Null | NaN => false
  | Bool b => b
  | Num n => negb (n =? 0)%Z
  | Str s => negb (String.eqb s "")
  end.

(** [v || d] *)
Definition or_else (v d : prim) : prim := if truthy v then v else d.

(** ToString, as applied by template literals and [FormData.append]. *)
Definition ToString (v : prim) : string :=
  match v with
  | Undefined => "undefined"
  | Null => "null"
  | Bool true => "true"
  | Bool false => "false"
  | Num n => pretty n
  | NaN => "NaN"
  | Str s => s
  end.

(** [v.toString()]: reading a property of [undefined] or [null] throws. *)
Definition toString_method (v : prim) : error + string :=
  match v with
  | Undefined => inl (TypeError "Cannot read properties of undefined (reading 'toString')")
  | Null => inl (TypeError "Cannot read properties of null (reading 'toString')")
  | _ => inr (ToString v)
  end.

(** [arr.join(sep)] on an array of strings. *)
Definition join (sep : string) (l : list string) : string := String.concat sep l.

(** *** White space ([StrWhiteSpaceChar]), by UTF-8 encoding *)

Definition is_ws1 (a : ascii) : bool :=
  let n := nat_of_ascii a in
  (Nat.eqb n 9 || Nat.eqb n 10 || Nat.eqb n 11 || Nat.eqb n 12
   || Nat.eqb n 13 || Nat.eqb n 32)%bool.

(** U+00A0 *)
Definition is_ws2 (a b : ascii) : bool :=
  (Nat.eqb (nat_of_ascii a) 194 && Nat.eqb (nat_of_ascii b) 160)%bool.

(** U+1680, U+2000..U+200A, U+2028, U+2029, U+202F, U+205F, U+3000, U+FEFF *)
Definition is_ws3 (a b c : ascii) : bool :=
  let x := nat_of_ascii a in
  let y := nat_of_ascii b in
  let z := nat_of_ascii c in
  ((Nat.eqb x 225 && Nat.eqb y 154 && Nat.eqb z 128)
   || (Nat.eqb x 226 && Nat.eqb y 128
       && ((Nat.leb 128 z && Nat.leb z 138) || Nat.eqb z 168
           || Nat.eqb z 169 || Nat.eqb z 175))
   || (Nat.eqb x 226 && Nat.eqb y 129 && Nat.eqb z 159)
   || (Nat.eqb x 227 && Nat.eqb y 128 && Nat.eqb z 128)
   || (Nat.eqb x 239 && Nat.eqb y 187 && Nat.eqb z 191))%bool.

Fixpoint trimStart (s : string) : string :=
  match s with
  | String a r1 =>
      if is_ws1 a then trimStart r1
      else match r1 with
           | String b r2 =>
               if is_ws2 a b then trimStart r2
               else match r2 with
                    | String c r3 => if is_ws3 a b c then trimStart r3 else s
                    | EmptyString => s
                    end
           | EmptyString => s
           end
  | EmptyString => s
  end.

(** The same scan on the reversed string, for the trailing end. *)
Fixpoint trimStart_rev (s : string) : string :=
  match s with
  | String a r1 =>
      if is_ws1 a then trimStart_rev r1
      else match r1 with
           | String b r2 =>
               if is_ws2 b a then trimStart_rev r2
               else match r2 with
                    | String c r3 => if is_ws3 c b a then trimStart_rev r3 else s
                    | EmptyString => s
                    end
           | EmptyString => s
           end
  | EmptyString => s
  end.

Definition trimEnd (s : string) : string :=
  String.rev (trimStart_rev (String.rev s)).

(** [s.trim()] *)
Definition trim (s : string) : string := trimEnd (trimStart s).

(** *** parseInt(string), radix omitted *)

Definition digit_value (a : ascii) : option Z :=
  let n := Z.of_nat (nat_of_ascii a) in
  if ((48 <=? n) && (n <=? 57))%Z then Some (n - 48)
  else if ((97 <=? n) && (n <=? 122))%Z then Some (n - 87)
  else if ((65 <=? n) && (n <=? 90))%Z then Some (n - 55)
  else None.

(** Reads the longest prefix of radix-[R] digits; [None] when it is empty. *)
Fixpoint parse_digits (R : Z) (s : string) (acc : option Z) : option Z :=
  match s with
  | String a rest =>
      match digit_value a with
      | Some d =>
          if (d <? R)%Z then parse_digits R rest (Some (default 0 acc * R + d))
          else acc
      | None => acc
      end
  | EmptyString => acc
  end.

Definition strip_sign (s : string) : Z * string :=
  match s with
  | String "-" rest => (-1, rest)
  | String "+" rest => (1, rest)
  | _ => (1, s)
  end.

Definition strip_hex_prefix (s : string) : Z * string :=
  match s with
  | String "0" (String "x" rest) => (16, rest)
  | String "0" (String "X" rest) => (16, rest)
  | _ => (10, s)
  end.

(** The digits a decimal numeral can start with. *)
Definition nonzero_digit (c : ascii) : Prop :=
  (c = "1" \/ c = "2" \/ c = "3" \/ c = "4" \/ c = "5" \/ c = "6" \/ c = "7"
   \/ c = "8" \/ c = "9")%char.

Definition parseInt (inputString : string) : prim :=
  let s0 := trimStart inputString in
  let '(sign, s1) := strip_sign s0 in
  let '(R, s2) := strip_hex_prefix s1 in
  match parse_digits R s2 None with
  | None => NaN
  | Some mathInt => Num (sign * mathInt)
  end.

(** [Number.MAX_SAFE_INTEGER] *)
Definition MAX_SAFE_INTEGER : Z := 2 ^ 53 - 1.

(** [Number.isSafeInteger(n)], for an integer [n] *)
Definition isSafeInteger (n : Z) : bool :=
  (- MAX_SAFE_INTEGER <=? n) && (n <=? MAX_SAFE_INTEGER).

(** The values whose number, if they are one, is a safe integer: on these
    [ToString], [toString_method] and [JSON.stringify] write what the script
    writes, and a [parseInt] that gives one of them has rounded nothing. *)
Definition exact (v : prim) : bool :=
  match v with
  | Num n => isSafeInteger n
  | _ => true
  end.

End JS.

(** ** JSON.stringify

    [SerializeJSONProperty] in two steps: [to_json] decides what is written
    (a property whose value is [undefined] is left out, [undefined] in an
    array and [NaN] become [null]); [render] writes the text, a number in
    plain decimal, which is what [JSON.stringify] writes for a safe
    integer. *)
Module Json.
Import JS.

#[warnings="-register-all"]
Inductive json :=
| JNull
| JBool (b : bool)
| JNum (n : Z)
| JStr (s : string)
| JArr (items : list json)
| JObj (members : list (string * json)).

Definition prim_to_json (p : prim) : option json :=
  match p with
  | Undefined => None
  | Null => Some JNull
  | Bool b => Some (JBool b)
  | Num n => Some (JNum n)
  | NaN => Some JNull
  | Str s => Some (JStr s)
  end.

Fixpoint to_json (v : value) : option json :=
  match v with
  | Prim p => prim_to_json p
  | Arr items =>
      Some (JArr ((fix elems (l : list value) : list json :=
                     match l with
                     | [] => []
                     | x :: l' => default JNull (to_json x) :: elems l'
                     end) items))
  | Obj props =>
      Some (JObj ((fix members (l : list (string * value)) : list (string * json) :=
                     match l with
                     | [] => []
                     | (k, x) :: l' =>
                         match to_json x with
                         | Some j => (k, j) :: members l'
                         | None => members l'
                         end
                     end) props))
  end.

(** The two local loops of [to_json], by name. *)
Definition elems_to_json (l : list value) : list json :=
  map (fun x => default JNull (to_json x)) l.

Fixpoint members_to_json (l : list (string * value)) : list (string * json) :=
  match l with
  | [] => []
  | (k, x) :: l' =>
      match to_json x with
      | Some j => (k, j) :: members_to_json l'
      | None => members_to_json l'
      end
  end.

(** Reading a member of a JSON object back (first binding of the key). *)
Fixpoint member (k : string) (ms : list (string * json)) : option json :=
  match ms with
  | [] => None
  | (k', j) :: ms' => if String.eqb k k' then Some j else member k ms'
  end.

Definition get (k : string) (j : json) : option json :=
  match j with
  | JObj ms => member k ms
  | _ => None
  end.

(** *** QuoteJSONString *)

Definition dquote : string := String (ascii_of_nat 34) EmptyString.
Definition backslash : string := String (ascii_of_nat 92) EmptyString.

Definition hex_digit (n : nat) : ascii :=
  ascii_of_nat (if Nat.ltb n 10 then 48 + n else 87 + n).

Definition quote_char (a : ascii) : string :=
  let n := nat_of_ascii a in
  if Nat.eqb n 8 then backslash +:+ "b"
  else if Nat.eqb n 9 then backslash +:+ "t"
  else if Nat.eqb n 10 then backslash +:+ "n"
  else if Nat.eqb n 12 then backslash +:+ "f"
  else if Nat.eqb n 13 then backslash +:+ "r"
  else if Nat.eqb n 34 then backslash +:+ dquote
  else if Nat.eqb n 92 then backslash +:+ backslash
  else if Nat.ltb n 32 then
    backslash +:+ "u00"
      +:+ String (hex_digit (n / 16)) (String (hex_digit (n mod 16)) EmptyString)
  else String a EmptyString.

Fixpoint quote_body (s : string) : string :=
  match s with
  | EmptyString => EmptyString
  | String a rest => quote_char a +:+ quote_body rest
  end.

Definition quote (s : string) : string := dquote +:+ quote_body s +:+ dquote.

Fixpoint render (j : json) : string :=
  match j with
  | JNull => "null"
  | JBool true => "true"
  | JBool false => "false"
  | JNum n => pretty n
  | JStr s => quote s
  | JArr items =>
      "[" +:+ join "," ((fix go (l : list json) : list string :=
                           match l with
                           | [] => []
                           | x :: l' => render x :: go l'
                           end) items) +:+ "]"
  | JObj ms =>
      "{" +:+ join "," ((fix go (l : list (string * json)) : list string :=
                           match l with
                           | [] => []
                           | (k, x) :: l' => (quote k +:+ ":" +:+ render x) :: go l'
                           end) ms) +:+ "}"
  end.

(** [JSON.stringify(v)]; [None] stands for the result [undefined]. *)
Definition stringify (v : value) : option string := render <$> to_json v.

End Json.

(** ** The effects of the script: console output, one HTTP request, promises *)
Module Effects.
Import JS.

Inductive console_arg :=
| CStr (s : string)
| CVal (v : value)
| CErr (e : error).

(** The entries of a [FormData], in [append] order. *)
Abbreviation form_data := (list (string * string)).

Inductive event :=
| console_log (args : list console_arg)
| console_error (args : list console_arg)
| http_fetch (url : string) (method : string) (body : form_data).

Record response := mkResponse { status : Z; statusText : string; body : string }.

(** [response.ok] *)
Definition ok (r : response) : bool :=
  ((200 <=? status r) && (status r <=? 299))%Z.

(** A settled promise: rejected with an error or fulfilled with a value. *)
Abbreviation promise A := (error + A)%type.

(** Code that appends to the event trace and either throws or returns. *)
Definition M (A : Type) : Type := list event -> list event * (error + A).

Definition ret {A} (a : A) : M A := fun t => (t, inr a).

Definition bind {A B} (m : M A) (k : A -> M B) : M B :=
  fun t =>
    match m t with
    | (t', inl e) => (t', inl e)
    | (t', inr a) => k a t'
    end.

Definition throw {A} (e : error) : M A := fun t => (t, inl e).

Definition emit (ev : event) : M unit := fun t => (t ++ [ev], inr tt).

Definition lift {A} (r : error + A) : M A := fun t => (t, r).

Definition run {A} (m : M A) : list event * (error + A) := m [].

(** [p.then(onFulfilled)]: an exception of the handler rejects the new promise. *)
Definition then_ {A B} (p : promise A) (onFulfilled : A -> M B) : M (promise B) :=
  match p with
  | inl e => ret (inl e)
  | inr a => fun t => let '(t', r) := onFulfilled a t in (t', inr r)
  end.

(** [p.catch(onRejected)] *)
Definition catch_ {A} (p : promise A) (onRejected : error -> M A) : M (promise A) :=
  match p with
  | inl e => fun t => let '(t', r) := onRejected e t in (t', inr r)
  | inr a => ret (inr a)
  end.

Definition is_fetch (ev : event) : bool :=
  match ev with
  | http_fetch _ _ _ => true
  | _ => false
  end.

(** How many HTTP requests a trace holds. *)
Definition requests (t : list event) : nat := List.length (filter (fun ev => is_fetch ev = true) t).

End Effects.

Declare Scope js_scope.
Notation "'do' x <- c1 ; c2" := (Effects.bind c1 (fun x => c2))
  (at level 10, x name, c1 at level 100, c2 at level 200) : js_scope.
Notation "'call' c1 ; c2" := (Effects.bind c1 (fun _ => c2))
  (at level 10, c1 at level 100, c2 at level 200) : js_scope.

(** ** addOverride(certificateId, overrideData)

    An intent is a plain object whose properties hold primitives; the second
    argument is left out, one intent, or an array of intents. *)
Module Override.
Import JS Json Effects.
Local Open Scope js_scope.

Abbreviation intent := (gmap string prim).

(** [override.name]: a property that is not there reads as [undefined]. *)
Definition prop (override : intent) (name : string) : prim :=
  default Undefined (override !! name).

(** Every number that the override object holds is a safe integer. *)
Definition exactNumbers (override : intent) : bool :=
  forallb (fun entry => exact (snd entry)) (map_to_list override).

Inductive argument :=
| Omitted
| Single (override : intent)
| Batch (overrides : list intent).

Definition nl : string := String (ascii_of_nat 10) EmptyString.

(** [arr.push(x)] *)
Definition push {A} (arr : list A) (x : A) : list A := arr ++ [x].

(** [arr.forEach((x, index) => ...)], the callback updating the state [S]. *)
Fixpoint forEach {A S} (callback : A -> Z -> S -> S) (arr : list A)
    (index : Z) (s : S) : S :=
  match arr with
  | [] => s
  | x :: rest => forEach callback rest (index + 1) (callback x index s)
  end.

(** [arr.map((x, index) => ...)], the callback possibly throwing. *)
Fixpoint map_indexed {A B} (callback : A -> Z -> error + B) (arr : list A)
    (index : Z) : error + list B :=
  match arr with
  | [] => inr []
  | x :: rest =>
      match callback x index with
      | inl e => inl e
      | inr y =>
          match map_indexed callback rest (index + 1) with
          | inl e => inl e
          | inr ys => inr (y :: ys)
          end
      end
  end.

(** Line 18: a single object is wrapped, the default argument is [{}]. *)
Definition overridesArray_of (overrideData : argument) : list intent :=
  match overrideData with
  | Omitted => [∅]
  | Single override => [override]
  | Batch overrides => overrides
  end.

(** Lines 26-34: the body of the validation callback. *)
Definition overrideErrors_of (override : intent) : list string :=
  let overrideErrors := [] in
  let overrideErrors :=
    if negb (truthy (prop override "tagNumber"))
    then push overrideErrors "tagNumber is required" else overrideErrors in
  let overrideErrors :=
    if negb (truthy (prop override "description"))
    then push overrideErrors "description is required" else overrideErrors in
  let overrideErrors :=
    if negb (truthy (prop override "typeId"))
    then push overrideErrors "typeId is required" else overrideErrors in
  let overrideErrors :=
    if negb (truthy (prop override "methodId"))
    then push overrideErrors "methodId is required" else overrideErrors in
  let overrideErrors :=
    if negb (truthy (prop override "appliedStateId"))
    then push overrideErrors "appliedStateId is required" else overrideErrors in
  let overrideErrors :=
    if negb (truthy (prop override "removedStateId"))
    then push overrideErrors "removedStateId is required" else overrideErrors in
  overrideErrors.

(** Lines 23-39 *)
Definition validationErrors_of (overridesArray : list intent) : list string :=
  forEach
    (fun override index validationErrors =>
       let overrideErrors := overrideErrors_of override in
       if (0 <? Z.of_nat (List.length overrideErrors))%Z
       then push validationErrors
              ("Override " +:+ ToString (Num (index + 1)) +:+ ": "
                 +:+ join ", " overrideErrors)
       else validationErrors)
    overridesArray 0 [].

(** Line 43 *)
Definition errorMessage_of (validationErrors : list string) : string :=
  "Validation failed:" +:+ nl +:+ join nl validationErrors.

Definition try_ {A B} (r : error + A) (k : A -> error + B) : error + B :=
  match r with
  | inl e => inl e
  | inr a => k a
  end.

(** Lines 54-101 *)
Definition createNewOverride (certificateId : string) (override : intent)
    (index : Z) : error + value :=
  try_ (toString_method (prop override "typeId")) (fun OverrideTypeId =>
  try_ (toString_method (prop override "methodId")) (fun OverrideMethodId =>
  try_ (toString_method (prop override "appliedStateId")) (fun OverrideAppliedStateId =>
  try_ (toString_method (prop override "removedStateId")) (fun OverrideRemovedStateId =>
  inr (Obj [
    ("TagNumber", Prim (prop override "tagNumber"));
    ("Description", Prim (prop override "description"));
    ("OverrideTypeId", Prim (Str OverrideTypeId));
    ("OverrideMethodId", Prim (Str OverrideMethodId));
    ("OverrideAppliedStateId", Prim (Str OverrideAppliedStateId));
    ("OverrideRemovedStateId", Prim (Str OverrideRemovedStateId));
    ("Comment", Prim (or_else (prop override "comment") (Str "")));
    ("AdditionalValueAppliedState",
       Prim (or_else (prop override "additionalValue") (Str "")));
    ("OverrideType",
       Obj [("Title", Prim (or_else (prop override "typeTitle") (Str "")))]);
    ("OverrideMethod",
       Obj [("Title", Prim (or_else (prop override "methodTitle") (Str "")))]);
    ("OverrideAppliedState",
       Obj [("Title", Prim (or_else (prop override "appliedStateTitle") (Str "")))]);
    ("OverrideRemovedState",
       Obj [("Title", Prim (or_else (prop override "removedStateTitle") (Str "")))]);
    ("CurrentOverrideStateId", Prim (Str "5"));
    ("CurrentState", Obj [("Title", Prim (Str "Не применено"))]);
    ("OrderId", Prim (Num (index + 1)));
    ("OverrideIndex", Prim (Num (index + 1)));
    ("SystemOverrideCertificateId", Prim (parseInt certificateId));
    ("Id", Prim Undefined);
    ("SystemOverrideCertificate", Prim Null);
    ("OverrideTypes", Prim Null);
    ("OverrideMethods", Prim Null);
    ("OverrideAppliedStates", Prim Null);
    ("OverrideRemovedStates", Prim Null);
    ("OverrideCurrentStates", Prim Null);
    ("OverridesJson", Prim Null);
    ("Overrides", Arr []);
    ("ReturnUrl", Prim Null);
    ("AdditionalValueRemovedState", Prim Null);
    ("Title", Prim Null);
    ("TypeMethod",
       Prim (Str (trim (ToString (or_else (prop override "typeTitle") (Str ""))
                          +:+ " / "
                          +:+ ToString (or_else (prop override "methodTitle") (Str ""))))));
    ("IsUnableToImplement", Prim (Bool false));
    ("UnableToImplementReason", Prim Null);
    ("IsEditable", Prim (Bool false))
  ]))))).

(** Line 104 *)
Definition submissionOverrides_of (certificateId : string)
    (overridesArray : list intent) : error + list value :=
  map_indexed (createNewOverride certificateId) overridesArray 0.

Definition baseUrl : string := "https://eptw-training.sakhalinenergy.ru".

(** Line 127 *)
Definition submitUrl_of (certificateId : string) : string :=
  baseUrl +:+ "/SOC/EditOverrides/" +:+ certificateId.

(** Lines 107-123; [now] is what [Date.now()] returns. *)
Definition formData_of (now : Z) (certificateId : string)
    (submissionOverrides : list value) : form_data :=
  let formData := [] in
  let formData := push formData ("SystemOverrideCertificateId", certificateId) in
  let formData := push formData ("TagNumber", "") in
  let formData := push formData ("Description", "") in
  let formData := push formData ("OverrideTypeId", "") in
  let formData := push formData ("OverrideMethodId", "") in
  let formData := push formData ("Comment", "") in
  let formData := push formData ("OverrideAppliedStateId", "") in
  let formData := push formData ("AdditionalValueAppliedState", "") in
  let formData := push formData ("OverrideRemovedStateId", "") in
  let formData := push formData ("CurrentOverrideStateId", "5") in
  let formData :=
    push formData
      ("OverridesJson", default "undefined" (stringify (Arr submissionOverrides))) in
  let formData :=
    push formData
      ("__RequestVerificationToken", "dummy-token-" +:+ ToString (Num now)) in
  formData.

Section AddOverride.

(** The surroundings of one call: the clock, and what the request settles
    to (a response, or a rejection when no response arrives). *)
Variable now : Z.
Variable server : string -> form_data -> promise response.

Definition fetch (url method : string) (body : form_data) : M (promise response) :=
  call emit (http_fetch url method body);
  ret (server url body).

(** Lines 14-150 *)
Definition addOverride (certificateId : string) (overrideData : argument)
    : M (promise response) :=
  call emit (console_log [CStr "🚀 Adding override(s) to certificate:";
                          CStr certificateId]);
  let overridesArray := overridesArray_of overrideData in
  call emit (console_log
               [CStr ("📦 Processing "
                        +:+ ToString (Num (Z.of_nat (List.length overridesArray)))
                        +:+ " override(s)")]);
  let validationErrors := validationErrors_of overridesArray in
  if (0 <? Z.of_nat (List.length validationErrors))%Z then
    let errorMessage := errorMessage_of validationErrors in
    call emit (console_error [CStr "❌"; CStr errorMessage]);
    throw (Error errorMessage)
  else
    do submissionOverrides <- lift (submissionOverrides_of certificateId overridesArray);
    let formData := formData_of now certificateId submissionOverrides in
    let submitUrl := submitUrl_of certificateId in
    call emit (console_log [CStr "🎯 Submitting to:"; CStr submitUrl]);
    call emit (console_log [CStr "✅ Overrides to be added:";
                            CVal (Arr submissionOverrides)]);
    do p <- fetch submitUrl "POST" formData;
    do p <- then_ p (fun response =>
      if ok response then
        call emit (console_log
                     [CStr ("✅ "
                              +:+ ToString (Num (Z.of_nat (List.length submissionOverrides)))
                              +:+ " override(s) added successfully to certificate "
                              +:+ certificateId)]);
        ret response
      else
        throw (Error ("Server error: " +:+ ToString (Num (status response))
                        +:+ " " +:+ statusText response)));
    catch_ p (fun error =>
      call emit (console_error [CStr "❌ Error adding override(s):"; CErr error]);
      throw error).

End AddOverride.

(** *** Reading the results *)

(** [record.key] on a built record. *)
Fixpoint assoc {V} (key : string) (props : list (string * V)) : option V :=
  match props with
  | [] => None
  | (k, v) :: rest => if String.eqb key k then Some v else assoc key rest
  end.

Definition field (key : string) (record : value) : option value :=
  match record with
  | Obj props => assoc key props
  | _ => None
  end.

(** The keys of the object literal of lines 54-101, in its order. *)
Definition record_keys : list string :=
  ["TagNumber"; "Description"; "OverrideTypeId"; "OverrideMethodId";
   "OverrideAppliedStateId"; "OverrideRemovedStateId"; "Comment";
   "AdditionalValueAppliedState"; "OverrideType"; "OverrideMethod";
   "OverrideAppliedState"; "OverrideRemovedState"; "CurrentOverrideStateId";
   "CurrentState"; "OrderId"; "OverrideIndex"; "SystemOverrideCertificateId";
   "Id"; "SystemOverrideCertificate"; "OverrideTypes"; "OverrideMethods";
   "OverrideAppliedStates"; "OverrideRemovedStates"; "OverrideCurrentStates";
   "OverridesJson"; "Overrides"; "ReturnUrl"; "AdditionalValueRemovedState";
   "Title"; "TypeMethod"; "IsUnableToImplement"; "UnableToImplementReason";
   "IsEditable"].

(** The properties of an intent that [createNewOverride] reads. *)
Definition read_fields : list string :=
  ["tagNumber"; "description"; "typeId"; "methodId"; "appliedStateId";
   "removedStateId"; "comment"; "additionalValue"; "typeTitle"; "methodTitle";
   "appliedStateTitle"; "removedStateTitle"].

(** Rewrites, by the lemma [lem], the reads of the properties other than
    [k] of [<[k:=v]> x]. *)
Ltac skip_insert lem x k :=
  repeat match goal with
         | |- context [prop (<[k:=?v]> x) ?f] => rewrite (lem x k f v) by discriminate
         end.

(** *** The vocabulary of the requirements *)

Definition required_fields : list string :=
  ["tagNumber"; "description"; "typeId"; "methodId"; "appliedStateId";
   "removedStateId"].

(** The required fields whose value is falsy (not there, [undefined], [null],
    [false], [0], [NaN] or the empty string), in the order of the list. *)
Definition missing (override : intent) : list string :=
  List.filter (fun f => negb (truthy (prop override f))) required_fields.

(** The required fields that are not properties of the object at all. *)
Definition absent (override : intent) : list string :=
  List.filter (fun f => bool_decide (override !! f = None)) required_fields.

Definition valid (override : intent) : Prop :=
  forallb (fun f => truthy (prop override f)) required_fields = true.

(** The line of the error message for the intent at 0-based position [i],
    naming the fields [fs]; no line when [fs] is empty. *)
Definition line_naming (fs : list string) (i : nat) : list string :=
  match fs with
  | [] => []
  | _ => ["Override " +:+ pretty (Z.of_nat i + 1) +:+ ": "
            +:+ join ", " (List.map (fun f => f +:+ " is required") fs)]
  end.

Definition lines_naming (which : intent -> list string) (overrides : list intent)
    : list string :=
  List.concat (imap (fun i override => line_naming (which override) i) overrides).

Definition message_naming (which : intent -> list string) (overrides : list intent)
    : string :=
  "Validation failed:" +:+ nl +:+ join nl (lines_naming which overrides).

End Override.

(** ** The single-override variant
    ([JS/add_an_override_using_temp_DOM_injection.js], lines 6-50) *)
Module Injection.
Import JS Json Effects Override.

(** [createNewOverride(index)], closed over [certificateId] and
    [overrideData]; [now] is what [Date.now()] returns. *)
Definition createNewOverride (now : Z) (certificateId : string)
    (overrideData : intent) (index : Z) : value :=
  Obj [
    ("TagNumber",
       Prim (or_else (prop overrideData "tagNumber")
               (Str ("AUTO-TAG-" +:+ ToString (Num now)))));
    ("Description",
       Prim (or_else (prop overrideData "description")
               (Str "Автоматическое переопределение")));
    ("OverrideTypeId",
       Prim (Str (ToString (or_else (prop overrideData "typeId") (Num 2)))));
    ("OverrideType",
       Obj [("Title",
               Prim (or_else (prop overrideData "typeTitle")
                       (Str "Программная блокировка при тех.обслуживании")))]);
    ("OverrideMethodId",
       Prim (Str (ToString (or_else (prop overrideData "methodId") (Num 2)))));
    ("OverrideMethod",
       Obj [("Title",
               Prim (or_else (prop overrideData "methodTitle") (Str "Установить MOS")))]);
    ("Comment", Prim (or_else (prop overrideData "comment") (Str "")));
    ("OverrideAppliedStateId",
       Prim (Str (ToString (or_else (prop overrideData "appliedStateId") (Num 3)))));
    ("OverrideAppliedState",
       Obj [("Title",
               Prim (or_else (prop overrideData "appliedStateTitle") (Str "MOS включен")))]);
    ("OverrideRemovedStateId",
       Prim (Str (ToString (or_else (prop overrideData "removedStateId") (Num 4)))));
    ("OverrideRemovedState",
       Obj [("Title",
               Prim (or_else (prop overrideData "removedStateTitle") (Str "MOS выключен")))]);
    ("CurrentOverrideStateId", Prim (Str "5"));
    ("CurrentState", Obj [("Title", Prim (Str "Не применено"))]);
    ("AdditionalValueAppliedState",
       Prim (or_else (prop overrideData "additionalValue") (Str "")));
    ("OrderId", Prim (Num index));
    ("OverrideIndex", Prim (Num index));
    ("SystemOverrideCertificateId", Prim (parseInt certificateId));
    ("Id", Prim Undefined);
    ("SystemOverrideCertificate", Prim Null);
    ("OverrideTypes", Prim Null);
    ("OverrideMethods", Prim Null);
    ("OverrideAppliedStates", Prim Null);
    ("OverrideRemovedStates", Prim Null);
    ("OverrideCurrentStates", Prim Null);
    ("TypeMethod",
       Prim (Str (ToString (or_else (prop overrideData "typeTitle")
                              (Str "Программная блокировка при тех.обслуживании"))
                    +:+ " / "
                    +:+ ToString (or_else (prop overrideData "methodTitle")
                                    (Str "Установить MOS")))));
    ("OverridesJson", Prim Null);
    ("Overrides", Arr []);
    ("ReturnUrl", Prim Null);
    ("IsUnableToImplement", Prim (Bool false));
    ("UnableToImplementReason", Prim Null);
    ("IsEditable", Prim (Bool false));
    ("AdditionalValueRemovedState", Prim Null);
    ("Title", Prim Null)
  ].

(** Line 53: [const overrides = [createNewOverride(1)]] *)
Definition overrides (now : Z) (certificateId : string) (overrideData : intent)
    : list value :=
  [createNewOverride now certificateId overrideData 1].

End Injection.

(** ** The catalog of section 3 of the design *)
Module Catalog.
Import JS Override.

(** Modelled from the spec: the reference data of the remote service, which
    no source file holds: the methods that are children of a type, and the
    applied and removed states that are children of a method. *)
Record catalog := mkCatalog {
  methodsForType : Z -> list Z;
  appliedForMethod : Z -> list Z;
  removedForMethod : Z -> list Z
}.

Definition mem (id : Z) (ids : list Z) : bool :=
  existsb (Z.eqb id) ids.

(** Modelled from the spec: the cross-entity checks of section 4.4, on the
    selection ids of one intent. *)
Definition consistent (cat : catalog) (override : intent) : bool :=
  match prop override "typeId", prop override "methodId",
        prop override "appliedStateId", prop override "removedStateId" with
  | Num t, Num m, Num a, Num r =>
      mem m (methodsForType cat t) && mem a (appliedForMethod cat m)
      && mem r (removedForMethod cat m)
  | _, _, _, _ => false
  end.

End Catalog.

(** ** The cascade resolver of section 4.3 of the design

    The scripts only trigger the cascade of the page
    ([JS/20251015_js_successful_tests.js] sets the type and fires [change]);
    the handler that fetches and binds the dependent lists is the page's own
    script, which the repository does not hold. *)
Module Cascade.
Import Catalog.

(** Modelled from the spec: the state of the Cascade Resolver, which the
    sources do not hold: the selection tuple, the most recently fetched lists
    for the current type and method, and the fetches in flight, each tagged
    with the selection that triggered it (sections 4.3 and 5). *)
Record resolver := mkResolver {
  typeId : option Z;
  methodId : option Z;
  appliedStateId : option Z;
  removedStateId : option Z;
  methodOptions : option (list Z);
  stateOptions : option (list Z * list Z);
  methodFetches : list Z;
  stateFetches : list Z
}.

Inductive result := Accepted | InvalidSelection.

(** Modelled from the spec: a resolver starts with its four slots unset,
    nothing fetched and no fetch in flight. *)
Definition initial : resolver :=
  mkResolver None None None None None None [] [].

(** Takes one fetch tagged [tag] out of the fetches in flight. *)
Fixpoint settle (tag : Z) (tags : list Z) : list Z :=
  match tags with
  | [] => []
  | t :: rest => if Z.eqb tag t then rest else t :: settle tag rest
  end.

(** Modelled from the spec: [selectType(id)] sets the type, unsets the three
    slots below it at once and starts the fetch of the methods of [id]. *)
Definition selectType (id : Z) (s : resolver) : resolver * result :=
  (mkResolver (Some id) None None None None None
     (methodFetches s ++ [id]) (stateFetches s),
   Accepted).

(** Modelled from the spec: [selectMethod(id)] is refused unless [id] is in
    the most recently fetched method list of the current type (also when
    that fetch has not completed); otherwise it sets the method, unsets the
    two states and starts the fetch of the states of [id]. *)
Definition selectMethod (id : Z) (s : resolver) : resolver * result :=
  match methodOptions s with
  | Some methods =>
      if mem id methods
      then (mkResolver (typeId s) (Some id) None None (methodOptions s) None
              (methodFetches s) (stateFetches s ++ [id]),
            Accepted)
      else (s, InvalidSelection)
  | None => (s, InvalidSelection)
  end.

(** Modelled from the spec: [selectAppliedState(id)]. *)
Definition selectAppliedState (id : Z) (s : resolver) : resolver * result :=
  match stateOptions s with
  | Some (applied, _) =>
      if mem id applied
      then (mkResolver (typeId s) (methodId s) (Some id) (removedStateId s)
              (methodOptions s) (stateOptions s)
              (methodFetches s) (stateFetches s),
            Accepted)
      else (s, InvalidSelection)
  | None => (s, InvalidSelection)
  end.

(** Modelled from the spec: [selectRemovedState(id)]. *)
Definition selectRemovedState (id : Z) (s : resolver) : resolver * result :=
  match stateOptions s with
  | Some (_, removed) =>
      if mem id removed
      then (mkResolver (typeId s) (methodId s) (appliedStateId s) (Some id)
              (methodOptions s) (stateOptions s)
              (methodFetches s) (stateFetches s),
            Accepted)
      else (s, InvalidSelection)
  | None => (s, InvalidSelection)
  end.

(** Modelled from the spec: [reset()] clears the four slots and cancels the
    fetches in flight. *)
Definition reset (s : resolver) : resolver * result := (initial, Accepted).

(** Modelled from the spec: a fetch of the methods of [tag] completes.  Its
    result is the catalog's list for [tag] ([available]) or a transport
    failure; it is dropped when no such fetch is in flight any more or when
    the current type is no longer [tag]. *)
Definition methodsArrive (cat : catalog) (tag : Z) (available : bool)
    (s : resolver) : resolver :=
  if mem tag (methodFetches s) then
    let options :=
      match typeId s with
      | Some current =>
          if Z.eqb current tag && available
          then Some (methodsForType cat tag) else methodOptions s
      | None => methodOptions s
      end in
    mkResolver (typeId s) (methodId s) (appliedStateId s) (removedStateId s)
      options (stateOptions s)
      (settle tag (methodFetches s)) (stateFetches s)
  else s.

(** Modelled from the spec: a fetch of the states of [tag] completes, under
    the same supersession rule. *)
Definition statesArrive (cat : catalog) (tag : Z) (available : bool)
    (s : resolver) : resolver :=
  if mem tag (stateFetches s) then
    let options :=
      match methodId s with
      | Some current =>
          if Z.eqb current tag && available
          then Some (appliedForMethod cat tag, removedForMethod cat tag)
          else stateOptions s
      | None => stateOptions s
      end in
    mkResolver (typeId s) (methodId s) (appliedStateId s) (removedStateId s)
      (methodOptions s) options
      (methodFetches s) (settle tag (stateFetches s))
  else s.

(** Modelled from the spec: what can happen to a resolver, in any order: a
    call of the caller, or the completion of a fetch (section 5). *)
Inductive event :=
| SelectType (id : Z)
| SelectMethod (id : Z)
| SelectAppliedState (id : Z)
| SelectRemovedState (id : Z)
| Reset
| MethodsArrive (tag : Z) (available : bool)
| StatesArrive (tag : Z) (available : bool).

Definition step (cat : catalog) (s : resolver) (ev : event) : resolver * result :=
  match ev with
  | SelectType id => selectType id s
  | SelectMethod id => selectMethod id s
  | SelectAppliedState id => selectAppliedState id s
  | SelectRemovedState id => selectRemovedState id s
  | Reset => reset s
  | MethodsArrive tag available => (methodsArrive cat tag available s, Accepted)
  | StatesArrive tag available => (statesArrive cat tag available s, Accepted)
  end.

(** The states a caller can observe along a sequence of events: the one
    before it and the one after each event. *)
Fixpoint observations (cat : catalog) (s : resolver) (evs : list event)
    : list resolver :=
  s :: match evs with
       | [] => []
       | ev :: rest => observations cat (fst (step cat s ev)) rest
       end.

Definition run (cat : catalog) (s : resolver) (evs : list event) : resolver :=
  fold_left (fun s ev => fst (step cat s ev)) evs s.

(** Modelled from the spec: the invariant of section 4.3. Every set slot is
    a valid child of the current value of its parent, and the lists on offer
    are the lists of the catalog for the current parent. *)
Definition consistent_slots (cat : catalog) (s : resolver) : Prop :=
  (forall m, methodId s = Some m ->
     exists t, typeId s = Some t /\ mem m (methodsForType cat t) = true)
  /\ (forall a, appliedStateId s = Some a ->
        exists m, methodId s = Some m /\ mem a (appliedForMethod cat m) = true)
  /\ (forall r, removedStateId s = Some r ->
        exists m, methodId s = Some m /\ mem r (removedForMethod cat m) = true)
  /\ (forall methods, methodOptions s = Some methods ->
        exists t, typeId s = Some t /\ methods = methodsForType cat t)
  /\ (forall states, stateOptions s = Some states ->
        exists m, methodId s = Some m
                  /\ states = (appliedForMethod cat m, removedForMethod cat m)).

Definition is_arrival (ev : event) : bool :=
  match ev with
  | MethodsArrive _ _ | StatesArrive _ _ => true
  | _ => false
  end.

End Cascade.

(** ** Inputs of the usage examples, and servers to answer them *)
Module Samples.
Import JS Effects Override Catalog.

(** The intent of the end-to-end scenario of the design. *)
Definition valve : intent :=
  list_to_map
    [("tagNumber", Str "VALVE-001"); ("description", Str "Bypass");
     ("typeId", Num 1); ("methodId", Num 1);
     ("appliedStateId", Num 1); ("removedStateId", Num 2)].

(** [addMOSOverride], lines 158-173. *)
Definition mos : intent :=
  list_to_map
    [("tagNumber", Str "MOS-TEST-001");
     ("description", Str "Тестовое переопределение МОС");
     ("typeId", Num 2);
     ("typeTitle", Str "Программная блокировка при тех.обслуживании");
     ("methodId", Num 2); ("methodTitle", Str "Установить MOS");
     ("comment", Str "Добавлено автоматически через JS");
     ("appliedStateId", Num 3); ("appliedStateTitle", Str "MOS включен");
     ("removedStateId", Num 4); ("removedStateTitle", Str "MOS выключен");
     ("additionalValue", Str "")].

(** [typeId] is there and holds 0; [removedStateId] is not there. *)
Definition zero_type : intent :=
  list_to_map
    [("tagNumber", Str "VALVE-001"); ("description", Str "Bypass");
     ("typeId", Num 0); ("methodId", Num 1); ("appliedStateId", Num 1)].

(** [valve] with a forced value on both sides. *)
Definition forced : intent :=
  <["additionalValue" := Str "50%"]>
    (<["additionalValueRemoved" := Str "0%"]> valve).

Definition answering (r : response) : string -> form_data -> promise response :=
  fun _ _ => inr r.

Definition accepting : string -> form_data -> promise response :=
  answering (mkResponse 200 "OK" "").

Definition unreachable : string -> form_data -> promise response :=
  fun _ _ => inl (TypeError "Failed to fetch").

(** A catalog in which method 1 belongs to type 2 only. *)
Definition mismatched : catalog :=
  mkCatalog (fun t => if Z.eqb t 2 then [1] else [])
            (fun m => if Z.eqb m 1 then [1] else [])
            (fun m => if Z.eqb m 1 then [2] else []).

End Samples.

(** ** The requirements as the design words them, where the script differs *)
Module AsStated.
Import JS Effects Override Catalog.

(** The error names exactly the fields that are not there. *)
Definition names_absent_fields (now : Z)
    (server : string -> form_data -> promise response)
    (certificateId : string) (overrideData : argument) : Prop :=
  snd (run (addOverride now server certificateId overrideData))
  = inl (Error (message_naming absent (overridesArray_of overrideData))).

(** The caller can read the status and the body of every response that is
    not 2xx off what the call gives back. *)
Definition surfaces_status_and_body (now : Z) (certificateId : string)
    (overrideData : argument) : Prop :=
  exists recover : list event * (error + promise response) -> Z * string,
    forall r : response,
      ok r = false ->
      recover (run (addOverride now (fun _ _ => inr r) certificateId overrideData))
      = (status r, body r).

(** A batch with a record that the catalog finds inconsistent is refused
    without a request. *)
Definition refuses_inconsistent (cat : catalog) (now : Z)
    (server : string -> form_data -> promise response)
    (certificateId : string) (overrides : list intent) : Prop :=
  (exists x, In x overrides /\ consistent cat x = false) ->
  exists e, snd (run (addOverride now server certificateId (Batch overrides))) = inl e
            /\ requests (fst (run (addOverride now server certificateId (Batch overrides)))) = 0%nat.

End AsStated.

(** ** The callers of [addOverride]
    ([JS/add_override(s)_to_specific_certificate_with_basic_validation.js],
    lines 152-215) *)
Module Helpers.
Import JS Json Effects Override.
Local Open Scope js_scope.

(** The object literal of [addHardwareBypass], lines 180-193. *)
Definition hardwareBypass : intent :=
  list_to_map
    [("tagNumber", Str "VALVE-001");
     ("description", Str "Байпас клапана");
     ("typeId", Num 1); ("typeTitle", Str "Апаратный байпас");
     ("methodId", Num 1); ("methodTitle", Str "Установить аппаратный байпас");
     ("comment", Str "Для технического обслуживания");
     ("appliedStateId", Num 1); ("appliedStateTitle", Str "Установлен");
     ("removedStateId", Num 2); ("removedStateTitle", Str "Не установлен");
     ("additionalValue", Str "")].

(** The object pushed by the loop of [addMultipleOverrides], lines 204-212. *)
Definition batchOverride (certificateId : string) (i : Z) : intent :=
  list_to_map
    [("tagNumber", Str ("BATCH-" +:+ ToString (Num i) +:+ "-" +:+ certificateId));
     ("description", Str ("Пакетное переопределение " +:+ ToString (Num i)));
     ("typeId", Num 2); ("methodId", Num 2);
     ("appliedStateId", Num 3); ("removedStateId", Num 4);
     ("comment", Str ("Добавлено в пакете #" +:+ ToString (Num i)))].

(** [for (let i = 1; i <= count; i++) overrides.push(...)], lines 203-213:
    [remaining] counts the passes that are left, [count + 1 - i] of them. *)
Fixpoint batchLoop (certificateId : string) (remaining : nat) (i : Z)
    (overrides : list intent) : list intent :=
  match remaining with
  | O => overrides
  | S remaining' =>
      batchLoop certificateId remaining' (i + 1)
        (push overrides (batchOverride certificateId i))
  end.

Section Callers.

Variable now : Z.
Variable server : string -> form_data -> promise response.

(** Lines 201-215; [count = 3] when the argument is left out. *)
Definition addMultipleOverrides (certificateId : string) (count : option Z)
    : M (promise response) :=
  let count := default 3 count in
  let overrides := batchLoop certificateId (Z.to_nat count) 1 [] in
  addOverride now server certificateId (Batch overrides).

(** Lines 179-194 *)
Definition addHardwareBypass (certificateId : string) : M (promise response) :=
  addOverride now server certificateId (Single hardwareBypass).

End Callers.

End Helpers.

(** ** The whole of the single-override variant
    ([JS/add_an_override_using_temp_DOM_injection.js]) *)
Module InjectionApi.
Import JS Json Effects Override.
Local Open Scope js_scope.

(** The object literals of the usage examples, lines 98-156. *)
Definition forcedValue : intent :=
  list_to_map
    [("tagNumber", Str "LVL-001");
     ("description", Str "Замена уровнемера");
     ("typeId", Num 3); ("typeTitle", Str "Программная форсировка");
     ("methodId", Num 4);
     ("methodTitle", Str "Принудительно заморожено с фиксированным значением");
     ("comment", Str "Калибровка датчика");
     ("appliedStateId", Num 12); ("appliedStateTitle", Str "Форсировано");
     ("removedStateId", Num 13); ("removedStateTitle", Str "Расфорсировано");
     ("additionalValue", Str "50%")].

(** The object of the loop of [addMultipleOverrides], lines 164-168. *)
Definition batchOverride (certificateId : string) (i : Z) : intent :=
  list_to_map
    [("tagNumber", Str ("BATCH-" +:+ ToString (Num i) +:+ "-" +:+ certificateId));
     ("description", Str ("Пакетное переопределение " +:+ ToString (Num i)));
     ("comment", Str ("Добавлено в пакете #" +:+ ToString (Num i)))].

(** How many times building the record reads the clock: [Date.now()] is
    evaluated only when [tagNumber] is falsy (line 7). *)
Definition clockReads_of_record (overrideData : intent) : nat :=
  if truthy (prop overrideData "tagNumber") then 0%nat else 1%nat.

(** Lines 2-78, the synchronous part of [addOverride]: everything up to
    the call of [fetch]. [clock k] is what the [k]-th reading of
    [Date.now()] from now on returns. Gives the events, the request and the
    number of readings made. The default of [overrideData] is [{}]. *)
Definition addOverride_start (clock : nat -> Z) (certificateId : string)
    (overrideData : option intent)
    : list event * (string * form_data) * nat :=
  let overrideData := default ∅ overrideData in
  let overrides := Injection.overrides (clock 0%nat) certificateId overrideData in
  let reads := clockReads_of_record overrideData in
  let formData := formData_of (clock reads) certificateId overrides in
  let submitUrl := submitUrl_of certificateId in
  ([console_log [CStr "🚀 Adding override to certificate:"; CStr certificateId];
    console_log [CStr "🎯 Submitting to:"; CStr submitUrl];
    console_log [CStr "✅ New override:";
                 CVal (default (Prim Undefined) (overrides !! 0%nat))];
    http_fetch submitUrl "POST" formData],
   (submitUrl, formData), S reads).

(** Lines 78-89, the handlers of the promise of [fetch], run when it
    settles with [answer]. *)
Definition addOverride_settle (certificateId : string) (answer : promise response)
    : M (promise response) :=
  do p <- then_ answer (fun response =>
    if ok response then
      call emit (console_log [CStr "✅ Override added successfully to certificate";
                              CStr certificateId]);
      ret response
    else
      throw (Error ("Server error: " +:+ ToString (Num (status response))
                      +:+ " " +:+ statusText response)));
  catch_ p (fun error =>
    call emit (console_error [CStr "❌ Error adding override:"; CErr error]);
    throw error).

(** One call of [addOverride] carried through to the settled promise, the
    request being answered by [answer]. *)
Definition addOverride (clock : nat -> Z)
    (answer : string -> form_data -> promise response)
    (certificateId : string) (overrideData : option intent)
    : list event * promise response * nat :=
  let '(events, (url, formData), reads) :=
    addOverride_start clock certificateId overrideData in
  let '(events', p) := addOverride_settle certificateId (answer url formData) events in
  (events', match p with inl e => inl e | inr p' => p' end, reads).

(** Lines 154-166, the loop of [addMultipleOverrides]: the calls of
    [addOverride] run their synchronous parts one after the other, before
    any response is handled; [remaining] counts the passes that are left.
    Gives the events and the requests issued, in order. *)
Fixpoint issueLoop (clock : nat -> Z) (certificateId : string) (remaining : nat)
    (i : Z) (reads : nat) : list event * list (string * form_data) :=
  match remaining with
  | O => ([], [])
  | S remaining' =>
      let '(events, request, n) :=
        addOverride_start (fun k => clock (reads + k)%nat) certificateId
          (Some (batchOverride certificateId i)) in
      let '(events', requests) :=
        issueLoop clock certificateId remaining' (i + 1) (reads + n)%nat in
      (events ++ events', request :: requests)
  end.

(** The synchronous part of [addMultipleOverrides(certificateId, count)];
    [count = 3] when the argument is left out. *)
Definition addMultipleOverrides_start (clock : nat -> Z) (certificateId : string)
    (count : option Z) : list event * list (string * form_data) :=
  issueLoop clock certificateId (Z.to_nat (default 3 count)) 1 0%nat.

(** Lines 176-189, [testAllTypes]: the three submissions chained by
    [reduce] and [then], each started when the one before is fulfilled and
    none started after a rejection. [answer k] answers the [k]-th request.
    Gives the events and the settled promise of the chain. *)
Fixpoint chain (clock : nat -> Z)
    (answer : nat -> string -> form_data -> promise response)
    (certificateId : string) (tests : list intent) (k reads : nat)
    (events : list event) (last : option response)
    : list event * promise (option response) :=
  match tests with
  | [] => (events, inr last)
  | overrideData :: rest =>
      let '(events', p, n) :=
        addOverride (fun j => clock (reads + j)%nat) (answer k) certificateId
          (Some overrideData) in
      match p with
      | inl e => (events ++ events', inl e)
      | inr response =>
          chain clock answer certificateId rest (S k) (reads + n)%nat
            (events ++ events') (Some response)
      end
  end.

(** Whether a settled promise of [fetch] ends a call in success: there is
    a response and its status is 2xx. *)
Definition fulfils (answer : promise response) : bool :=
  match answer with
  | inl _ => false
  | inr response => ok response
  end.

(** The form data of the request of a call for [overrideData] whose clock
    reading is [now], when [tagNumber] is truthy. *)
Definition requestOf (now : Z) (certificateId : string) (overrideData : intent)
    : form_data :=
  formData_of now certificateId
    [Injection.createNewOverride now certificateId overrideData 1].

(** Lines 173-190; [certificateId = '1054470'] when the argument is left
    out. *)
Definition testAllTypes (clock : nat -> Z)
    (answer : nat -> string -> form_data -> promise response)
    (certificateId : option string) : list event * promise (option response) :=
  let certificateId := default "1054470" certificateId in
  chain clock answer certificateId
    [Samples.mos; Helpers.hardwareBypass; forcedValue] 0%nat 0%nat
    [console_log [CStr "🧪 Testing all override types on certificate:";
                  CStr certificateId]]
    None.

End InjectionApi.

(** ** The comparison payload of the capture script
    ([JS/PREVENT form submission and log.js], lines 98-122) *)
Module Capture.
Import JS Json Effects Override.

(** The callback of [overridesArray.map], lines 99-119. *)
Definition testRecord (certificateId : string) (override : intent) (index : Z)
    : error + value :=
  try_ (toString_method (prop override "typeId")) (fun OverrideTypeId =>
  try_ (toString_method (prop override "methodId")) (fun OverrideMethodId =>
  try_ (toString_method (prop override "appliedStateId")) (fun OverrideAppliedStateId =>
  try_ (toString_method (prop override "removedStateId")) (fun OverrideRemovedStateId =>
  inr (Obj [
    ("TagNumber", Prim (prop override "tagNumber"));
    ("Description", Prim (prop override "description"));
    ("OverrideTypeId", Prim (Str OverrideTypeId));
    ("OverrideMethodId", Prim (Str OverrideMethodId));
    ("OverrideAppliedStateId", Prim (Str OverrideAppliedStateId));
    ("OverrideRemovedStateId", Prim (Str OverrideRemovedStateId));
    ("Comment", Prim (or_else (prop override "comment") (Str "")));
    ("AdditionalValueAppliedState",
       Prim (or_else (prop override "additionalValue") (Str "")));
    ("OverrideType",
       Obj [("Title", Prim (or_else (prop override "typeTitle") (Str "")))]);
    ("OverrideMethod",
       Obj [("Title", Prim (or_else (prop override "methodTitle") (Str "")))]);
    ("OverrideAppliedState",
       Obj [("Title", Prim (or_else (prop override "appliedStateTitle") (Str "")))]);
    ("OverrideRemovedState",
       Obj [("Title", Prim (or_else (prop override "removedStateTitle") (Str "")))]);
    ("CurrentOverrideStateId", Prim (Str "5"));
    ("CurrentState", Obj [("Title", Prim (Str "Не применено"))]);
    ("OrderId", Prim (Num (index + 1)));
    ("OverrideIndex", Prim (Num (index + 1)));
    ("SystemOverrideCertificateId", Prim (parseInt certificateId));
    ("Id", Prim Undefined)
  ]))))).

(** The records before [JSON.stringify], line 99. *)
Definition testRecords (certificateId : string) (overridesArray : list intent)
    : error + list value :=
  map_indexed (testRecord certificateId) overridesArray 0.

(** [generateTestOverrideJson(certificateId, overridesArray)], lines 98-122 *)
Definition generateTestOverrideJson (certificateId : string)
    (overridesArray : list intent) : error + string :=
  try_ (testRecords certificateId overridesArray) (fun submissionOverrides =>
  inr (default "undefined" (stringify (Arr submissionOverrides)))).

(** The keys of the object literal above. *)
Definition testRecord_keys : list string :=
  ["TagNumber"; "Description"; "OverrideTypeId"; "OverrideMethodId";
   "OverrideAppliedStateId"; "OverrideRemovedStateId"; "Comment";
   "AdditionalValueAppliedState"; "OverrideType"; "OverrideMethod";
   "OverrideAppliedState"; "OverrideRemovedState"; "CurrentOverrideStateId";
   "CurrentState"; "OrderId"; "OverrideIndex"; "SystemOverrideCertificateId";
   "Id"].

End Capture.

(** ** The CSV export ([JS/fetchAndSaveOverrideData_to_CSV.js], lines 1-118)

    [data] is what [response.json()] gives: a parsed JSON text, its numbers
    being integers here as everywhere in this file. A value read off it is a
    JSON value or [undefined] ([None]). *)
Module CsvExport.
Import JS Json.

(** ToBoolean on a parsed JSON value. *)
Definition truthy_json (j : json) : bool :=
  match j with
  | JNull => false
  | JBool b => b
  | JNum n => negb (n =? 0)%Z
  | JStr s => negb (String.eqb s "")
  | JArr _ | JObj _ => true
  end.

(** The own property [k] of an object made by [JSON.parse]: of the members
    with that key the last one counts. *)
Fixpoint own (k : string) (ms : list (string * json)) : option json :=
  match ms with
  | [] => None
  | (k', j) :: rest =>
      match own k rest with
      | Some j' => Some j'
      | None => if String.eqb k k' then Some j else None
      end
  end.

(** [v.k], for the names the script reads, which no prototype defines:
    reading a property of [null] throws, a string, number, boolean or array
    has no such property. *)
Definition read (k : string) (v : json) : error + option json :=
  match v with
  | JNull => inl (TypeError ("Cannot read properties of null (reading '" +:+ k +:+ "')"))
  | JObj ms => inr (own k ms)
  | _ => inr None
  end.

(** [v || ''] *)
Definition or_empty (v : option json) : json :=
  match v with
  | Some j => if truthy_json j then j else JStr ""
  | None => JStr ""
  end.

(** [item.k ? (item.k.Title || '') : ''], [item] being an object: a truthy
    value is not [null], so reading its [Title] does not throw. *)
Definition title_of (v : option json) : json :=
  match v with
  | Some j =>
      if truthy_json j
      then match read "Title" j with
           | inr t => or_empty t
           | inl _ => JStr ""
           end
      else JStr ""
  | None => JStr ""
  end.

(** The results of conversions made one after the other, the first failure
    ending them. *)
Fixpoint collect {A : Type} (l : list (error + A)) : error + list A :=
  match l with
  | [] => inr []
  | inl e :: _ => inl e
  | inr a :: rest =>
      match collect rest with
      | inl e => inl e
      | inr r => inr (a :: r)
      end
  end.

(** [String(value)]: an array is joined with commas, [null] in it giving
    the empty string; an object gives [[object Object]], unless it has a
    member named [toString], which is not callable and leaves the conversion
    without a primitive.  A number is written in plain decimal, which is
    what [String] gives for a safe integer; whether the conversion succeeds
    does not depend on the number. *)
Fixpoint String_ (j : json) : error + string :=
  match j with
  | JNull => inr "null"
  | JBool true => inr "true"
  | JBool false => inr "false"
  | JNum n => inr (pretty n)
  | JStr s => inr s
  | JArr items =>
      match collect (List.map (fun x => match x with
                                        | JNull => inr ""
                                        | _ => String_ x
                                        end) items) with
      | inl e => inl e
      | inr ss => inr (join "," ss)
      end
  | JObj ms =>
      match own "toString" ms with
      | Some _ => inl (TypeError "Cannot convert object to primitive value")
      | None => inr "[object Object]"
      end
  end.

(** [s.includes(c)] for a one-character [c]. *)
Fixpoint includes (c : ascii) (s : string) : bool :=
  match s with
  | EmptyString => false
  | String a rest => if Ascii.eqb a c then true else includes c rest
  end.

Definition comma : ascii := ascii_of_nat 44.
Definition dq : ascii := ascii_of_nat 34.
Definition LF : ascii := ascii_of_nat 10.
Definition CR : ascii := ascii_of_nat 13.

(** Line 109, the [replace] of the callback: every double quote is written
    twice. *)
Fixpoint doubleQuotes (s : string) : string :=
  match s with
  | EmptyString => EmptyString
  | String a rest =>
      if Ascii.eqb a dq then String dq (String dq (doubleQuotes rest))
      else String a (doubleQuotes rest)
  end.

(** Lines 106-111, the callback of [map] after [String(value)]. *)
Definition escapeCsv (stringValue : string) : string :=
  if includes comma stringValue || includes dq stringValue
     || includes LF stringValue || includes CR stringValue
  then String dq (doubleQuotes stringValue) +:+ String dq EmptyString
  else stringValue.

(** [s.replace('T', ' ')]: the first [T] only. *)
Fixpoint replaceFirstT (s : string) : string :=
  match s with
  | EmptyString => EmptyString
  | String a rest =>
      if Ascii.eqb a "T"%char then String " "%char rest
      else String a (replaceFirstT rest)
  end.

(** Lines 95-105: the nine values of a row, before [String]. *)
Definition rowValues (item : json) : error + list json :=
  match read "TagNumber" item with
  | inl e => inl e
  | inr TagNumber =>
      let get k := match read k item with inr v => v | inl _ => None end in
      inr [or_empty TagNumber;
           or_empty (get "Description");
           title_of (get "OverrideType");
           title_of (get "OverrideMethod");
           or_empty (get "Comment");
           title_of (get "OverrideAppliedState");
           or_empty (get "AdditionalValueAppliedState");
           title_of (get "OverrideRemovedState");
           or_empty (get "AdditionalValueRemovedState")]
  end.

(** [values.map(String)], the first failure ending it. *)
Fixpoint strings (values : list json) : error + list string :=
  match values with
  | [] => inr []
  | v :: rest =>
      match String_ v with
      | inl e => inl e
      | inr s =>
          match strings rest with
          | inl e => inl e
          | inr ss => inr (s :: ss)
          end
      end
  end.

(** The nine texts of a row, before the escaping. *)
Definition rowTexts (item : json) : error + list string :=
  match rowValues item with
  | inl e => inl e
  | inr values => strings values
  end.

Definition headers : list string :=
  ["TagNumber"; "Description"; "OverrideType"; "OverrideMethod"; "Comment";
   "AppliedState"; "AdditionalValueAppliedState"; "RemovedState";
   "AdditionalValueRemovedState"].

Definition nl : string := String LF EmptyString.

(** Lines 94-114, the [forEach] over the items, appending to [csvContent]. *)
Fixpoint appendRows (overrideData : list json) (csvContent : string)
    : error + string :=
  match overrideData with
  | [] => inr csvContent
  | item :: rest =>
      match rowTexts item with
      | inl e => inl e
      | inr texts =>
          appendRows rest
            (csvContent +:+ join "," (List.map escapeCsv texts) +:+ nl)
      end
  end.

(** Lines 56-68: which items are exported, and how many are announced. *)
Definition overrideData_of (data : json) : list json * Z :=
  match data with
  | JArr items => (items, Z.of_nat (List.length items))
  | JObj ms =>
      match own "Data" ms with
      | Some (JArr items) => (items, Z.of_nat (List.length items))
      | _ => ([data], 1)
      end
  | _ => ([], 0)
  end.

(** Lines 47-52 and 70-71: the lines above the table; [localeString] is
    what [new Date().toLocaleString('sv-SE')] gives. *)
Definition preamble (localeString : string) (certId : prim) (totalOverrides : Z)
    : string :=
  let currentDate := replaceFirstT localeString in
  let csvContent := "" in
  let csvContent := csvContent +:+ "SOC Overrides Export" +:+ nl in
  let csvContent := csvContent +:+ "SOC ID: " +:+ ToString certId +:+ nl in
  let csvContent := csvContent +:+ "Export Date: " +:+ currentDate +:+ nl in
  let csvContent :=
    csvContent +:+ "Total Overrides: " +:+ ToString (Num totalOverrides) +:+ nl in
  csvContent +:+ nl.

(** [convertJsonToCsv(data, certId)], lines 44-117 *)
Definition convertJsonToCsv (localeString : string) (data : json) (certId : prim)
    : error + string :=
  let '(overrideData, totalOverrides) := overrideData_of data in
  let csvContent := preamble localeString certId totalOverrides in
  if Nat.eqb (List.length overrideData) 0 then
    inr (csvContent +:+ "No override data found" +:+ nl)
  else
    let csvContent := csvContent +:+ join "," headers +:+ nl in
    appendRows overrideData csvContent.

(** *** [fetchAndSaveOverrideData(certIdFromPopup)], lines 1-42 *)

Inductive arg :=
| AStr (s : string)
| APrim (p : prim)
| AErr (e : error).

Inductive event :=
| log (args : list arg)
| log_error (args : list arg)
| request (url : string) (method : string) (headers : list (string * string))
    (body : string)
| download (filename : string) (type : string) (content : string).

(** A response: its status, and what [response.json()] settles to. *)
Record reply := mkReply { status : Z; parsed : error + json }.

Definition ok (r : reply) : bool := ((200 <=? status r) && (status r <=? 299))%Z.

(** The byte order mark U+FEFF, as the [Blob] encodes it. *)
Definition BOM : string :=
  String (ascii_of_nat 239) (String (ascii_of_nat 187)
    (String (ascii_of_nat 191) EmptyString)).

(** The [catch] block, lines 37-40. *)
Definition failed (certIdFromPopup : prim) (events : list event) (e : error)
    : list event * string :=
  (events ++ [log_error [AStr ("Error for ID " +:+ ToString certIdFromPopup +:+ ":");
                         AErr e]],
   "Error: " +:+ message e).

(** The events of a call and the string its promise is fulfilled with;
    [answer] is what [fetch] settles to. *)
Definition fetchAndSaveOverrideData (localeString : string)
    (answer : string -> error + reply) (certIdFromPopup : prim)
    : list event * string :=
  let fullUrl := "http://eptw.sakhalinenergy.ru/Soc/GetOverrides/"
                   +:+ ToString certIdFromPopup in
  let events :=
    [log [AStr "Using Certificate ID:"; APrim certIdFromPopup];
     request fullUrl "POST"
       [("Content-Type", "application/x-www-form-urlencoded; charset=UTF-8");
        ("X-Requested-With", "XMLHttpRequest")]
       "sort=&group=&filter="] in
  match answer fullUrl with
  | inl e => failed certIdFromPopup events e
  | inr response =>
      if negb (ok response) then
        failed certIdFromPopup events
          (Error ("HTTP error! Status: " +:+ ToString (Num (status response))))
      else
        match parsed response with
        | inl e => failed certIdFromPopup events e
        | inr data =>
            match convertJsonToCsv localeString data certIdFromPopup with
            | inl e => failed certIdFromPopup events e
            | inr csvContent =>
                (events ++
                   [download
                      ("override_data_" +:+ ToString certIdFromPopup +:+ ".csv")
                      "text/csv; charset=utf-8" (BOM +:+ csvContent);
                    log [AStr "CSV download started for ID:"; APrim certIdFromPopup]],
                 "Success for ID: " +:+ ToString certIdFromPopup)
            end
        end
  end.

(** Whether [String(value)] finds a primitive: no object with a member
    named [toString] is reached, an object inside an array included. *)
Fixpoint printable (j : json) : bool :=
  match j with
  | JArr items => forallb printable items
  | JObj ms => match own "toString" ms with Some _ => false | None => true end
  | _ => true
  end.

(** Whether the row of [item] can be written: [item] is not [null] and its
    nine values are printable. *)
Definition exportable (item : json) : bool :=
  match rowValues item with
  | inl _ => false
  | inr values => forallb printable values
  end.

(** A reply of the kind the server sends: the items under [Data], texts
    with a comma, a double quote and a line break among them. *)
Definition sampleItem : json :=
  JObj [("Id", JNum 7);
        ("TagNumber", JStr "V-101, V-102");
        ("Description", JStr ("size 2" +:+ String dq " valve"));
        ("OverrideType", JObj [("Id", JNum 1); ("Title", JStr "Bypass")]);
        ("OverrideMethod", JNull);
        ("Comment", JStr ("first line" +:+ String LF "second line"));
        ("OverrideAppliedState", JObj [("Title", JStr "Installed")]);
        ("AdditionalValueAppliedState", JNum 5);
        ("OverrideRemovedState", JObj [("Title", JStr "")])].

Definition sampleData : json :=
  JObj [("Data", JArr [sampleItem; JObj []]); ("Total", JNum 2)].

Definition is_request (ev : event) : bool :=
  match ev with request _ _ _ _ => true | _ => false end.

Definition is_download (ev : event) : bool :=
  match ev with download _ _ _ => true | _ => false end.

(** *** A reader for the table

    Not part of the script: a reader of CSV text as RFC 4180 lays it out
    (fields separated by commas, records ended by a line feed, a field in
    double quotes holding any character, a quote in it written twice), to
    say what the text that the script writes means to its readers. *)
Inductive mode := FieldStart | Plain | Quoted | QuoteSeen.

Definition endField (field : string) (record : list string) : list string :=
  record ++ [field].

Fixpoint readCsv (s : string) (m : mode) (field : string) (record : list string)
    (records : list (list string)) : list (list string) :=
  match s with
  | EmptyString =>
      match m, record with
      | FieldStart, [] => records
      | _, _ => records ++ [endField field record]
      end
  | String c rest =>
      match m with
      | FieldStart =>
          if Ascii.eqb c dq then readCsv rest Quoted "" record records
          else if Ascii.eqb c comma
          then readCsv rest FieldStart "" (endField "" record) records
          else if Ascii.eqb c LF
          then readCsv rest FieldStart "" [] (records ++ [endField "" record])
          else readCsv rest Plain (String c "") record records
      | Plain =>
          if Ascii.eqb c comma
          then readCsv rest FieldStart "" (endField field record) records
          else if Ascii.eqb c LF
          then readCsv rest FieldStart "" [] (records ++ [endField field record])
          else readCsv rest Plain (field +:+ String c "") record records
      | Quoted =>
          if Ascii.eqb c dq then readCsv rest QuoteSeen field record records
          else readCsv rest Quoted (field +:+ String c "") record records
      | QuoteSeen =>
          if Ascii.eqb c dq
          then readCsv rest Quoted (field +:+ String dq "") record records
          else if Ascii.eqb c comma
          then readCsv rest FieldStart "" (endField field record) records
          else if Ascii.eqb c LF
          then readCsv rest FieldStart "" [] (records ++ [endField field record])
          else readCsv rest Plain (field +:+ String c "") record records
      end
  end.

(** Reads a whole text. *)
Definition readTable (s : string) : list (list string) :=
  readCsv s FieldStart "" [] [].

(** Where the reader stands after the field [f] has been ended by the
    separator [sep], a comma or a line feed. *)
Definition afterField (sep : ascii) (rest : string) (f : string)
    (record : list string) (records : list (list string)) : list (list string) :=
  if Ascii.eqb sep comma
  then readCsv rest FieldStart "" (endField f record) records
  else readCsv rest FieldStart "" [] (records ++ [endField f record]).

End CsvExport.

(** ** Discovery of the cascade options, [_AJAX.js] *)

Module Discovery.
Import JS Json CsvExport.

Inductive arg :=
| AStr (s : string)
| AJson (j : json)
| AErr (e : error).

(** [get url] is a [fetch] of [url] with method GET, the header
    [Accept: application/json] and the credentials included. *)
Inductive event :=
| log (args : list arg)
| log_error (args : list arg)
| get (url : string).

Definition is_get (ev : event) : bool :=
  match ev with get _ => true | _ => false end.

Definition url_of (ev : event) : option string :=
  match ev with get url => Some url | _ => None end.

(** The urls of the requests of a trace, in order. *)
Definition gets (events : list event) : list string :=
  omap url_of events.

(** What a request settles to: [fetch] rejects, or it gives a response on
    which [response.json()] rejects or gives the parsed body.  The status
    of the response is not part of it: the script never reads it. *)
Definition fetched : Type := error + (error + json).

(** [{ success: true, data }] or [{ success: false, error }] *)
Inductive result :=
| Success (data : json)
| Failure (error : error).

Definition methodsUrl (overrideTypeId : prim) : string :=
  "/SOC/GetOverrideMethodsByType?overrideTypeId=" +:+ ToString overrideTypeId.

(** [getOverrideMethodsByType(overrideTypeId)], lines 2-17 *)
Definition getOverrideMethodsByType (answer : string -> fetched)
    (overrideTypeId : prim) : list event * result :=
  let caught error :=
    ([get (methodsUrl overrideTypeId);
      log_error [AStr ("❌ Failed to get methods for type "
                       +:+ ToString overrideTypeId +:+ ":"); AErr error]],
     Failure error) in
  match answer (methodsUrl overrideTypeId) with
  | inl error => caught error
  | inr (inl error) => caught error
  | inr (inr data) =>
      ([get (methodsUrl overrideTypeId);
        log [AStr ("✅ Methods for type " +:+ ToString overrideTypeId +:+ ":");
             AJson data]],
       Success data)
  end.

(** [data.map(m => m.Text)], lines 126, 105 and 42: [undefined] where an
    item has no [Text]. *)
Definition texts_of (receiver : string) (data : json) : error + list (option json) :=
  match data with
  | JNull => inl (TypeError "Cannot read properties of null (reading 'map')")
  | JArr items => collect (List.map (read "Text") items)
  | _ => inl (TypeError (receiver +:+ ".map is not a function"))
  end.

(** An element of an array in [join]: [undefined] and [null] give the empty
    string. *)
Definition elementText (v : option json) : error + string :=
  match v with
  | None | Some JNull => inr ""
  | Some j => String_ j
  end.

(** [names.join(sep)] *)
Definition joinTexts (sep : string) (names : list (option json)) : error + string :=
  match collect (List.map elementText names) with
  | inl e => inl e
  | inr texts => inr (join sep texts)
  end.

(** [Object.entries(typeMapping)], lines 117-120: integer keys come in
    ascending order, as strings. *)
Definition typeMapping : list (string * string) :=
  [("1", "Байпас"); ("2", "Блокировка"); ("3", "Форсировка");
   ("4", "Логики"); ("5", "Сигнализации")].

Definition LFs : string := String LF EmptyString.

(** The loop of [quickDiscover], lines 122-132, over the entries that are
    left; the outcome is how the promise settles. *)
Fixpoint quickLoop (answer : string -> fetched) (entries : list (string * string))
    (events : list event) : list event * (error + unit) :=
  match entries with
  | [] => (events, inr tt)
  | (typeId, typeName) :: rest =>
      let '(asked, methodsResult) :=
        getOverrideMethodsByType answer (parseInt typeId) in
      let events := events ++ asked in
      match methodsResult with
      | Success data =>
          match texts_of "methodsResult.data" data with
          | inl e => (events, inl e)
          | inr methodNames =>
              let events :=
                events ++ [log [AStr (LFs +:+ typeName +:+ ": "
                                      +:+ ToString (Num (Z.of_nat (List.length methodNames)))
                                      +:+ " methods")]] in
              match joinTexts ", " methodNames with
              | inl e => (events, inl e)
              | inr joined =>
                  quickLoop answer rest (events ++ [log [AStr ("  " +:+ joined)]])
              end
          end
      | Failure _ =>
          quickLoop answer rest
            (events ++ [log [AStr (LFs +:+ typeName +:+ ": Failed to load methods")]])
      end
  end.

(** [quickDiscover()], lines 114-133 *)
Definition quickDiscover (answer : string -> fetched) : list event * (error + unit) :=
  quickLoop answer typeMapping [log [AStr "🚀 Quick discovery of all types..."]].

(** Whether the names of the items of [data] can be listed: [data] is an
    array, none of its items is [null], and the [Text] of each is
    printable. *)
Definition hasPrintableText (item : json) : bool :=
  match item with
  | JNull => false
  | JObj ms => match own "Text" ms with
               | Some j => printable j
               | None => true
               end
  | _ => true
  end.

Definition listable (data : json) : bool :=
  match data with
  | JArr items => forallb hasPrintableText items
  | _ => false
  end.

(** Whether the answer for a type ends the discovery: a body was parsed and
    its names cannot be listed. *)
Definition ends (answer : string -> fetched) (typeId : string) : bool :=
  match answer (methodsUrl (parseInt typeId)) with
  | inr (inr data) => negb (listable data)
  | _ => false
  end.

(** The types asked about: each one in turn, up to and including the first
    whose answer ends the discovery. *)
Fixpoint asked (answer : string -> fetched) (typeIds : list string) : list string :=
  match typeIds with
  | [] => []
  | typeId :: rest =>
      typeId :: (if ends answer typeId then [] else asked answer rest)
  end.

(** [`${v}`], [v] a value read from parsed data or [undefined]. *)
Definition stringOf (v : option json) : error + string :=
  match v with
  | None => inr "undefined"
  | Some j => String_ j
  end.

Definition statesUrl (id : string) : string :=
  "/SOC/GetOverrideStatesByMethod?overrideMethodId=" +:+ id.

(** [getOverrideStatesByMethod(overrideMethodId)], lines 20-35.  The
    template of line 22 is evaluated inside the [try]: when the id has no
    text, the handler is entered before any request, and its own template
    (line 32) throws in the same way, so that the promise is rejected. *)
Definition getOverrideStatesByMethod (answer : string -> fetched)
    (overrideMethodId : option json) : list event * (error + result) :=
  match stringOf overrideMethodId with
  | inl e => ([], inl e)
  | inr id =>
      let caught error :=
        ([get (statesUrl id);
          log_error [AStr ("❌ Failed to get states for method " +:+ id +:+ ":");
                     AErr error]],
         inr (Failure error)) in
      match answer (statesUrl id) with
      | inl error => caught error
      | inr (inl error) => caught error
      | inr (inr data) =>
          ([get (statesUrl id);
            log [AStr ("✅ States for method " +:+ id +:+ ":"); AJson data]],
           inr (Success data))
      end
  end.

(** [getMethodDetails(method)], lines 38-47: the events, and how the
    promise settles. *)
Definition getMethodDetails (answer : string -> fetched) (method : json)
    : list event * (error + string) :=
  match read "Value" method with
  | inl e => ([], inl e)
  | inr Value =>
      let Text := match read "Text" method with inr v => v | inl _ => None end in
      match getOverrideStatesByMethod answer Value with
      | (events, inl e) => (events, inl e)
      | (events, inr (Success data)) =>
          match texts_of "statesResult.data" data with
          | inl e => (events, inl e)
          | inr stateNames =>
              match stringOf Text with
              | inl e => (events, inl e)
              | inr text =>
                  match joinTexts "," stateNames with
                  | inl e => (events, inl e)
                  | inr names =>
                      (events, inr ("   📝 " +:+ text +:+ " → States: " +:+ names))
                  end
              end
          end
      | (events, inr (Failure _)) =>
          match stringOf Text with
          | inl e => (events, inl e)
          | inr text =>
              (events,
               inr ("   📝 " +:+ text +:+ " → States: Unknown (failed to fetch)"))
          end
      end
  end.

(** Whether [stringOf] gives a text. *)
Definition printableOpt (v : option json) : bool :=
  match v with
  | None => true
  | Some j => printable j
  end.

(** Whether the line of a method can be written: the method is not [null],
    its [Value] and [Text] are printable, and the states either could not
    be fetched or are listable. *)
Definition describable (answer : string -> fetched) (method : json) : bool :=
  match read "Value" method, read "Text" method with
  | inr Value, inr Text =>
      match stringOf Value with
      | inl _ => false
      | inr id =>
          printableOpt Text
          && match answer (statesUrl id) with
             | inr (inr data) => listable data
             | _ => true
             end
      end
  | _, _ => false
  end.

End Discovery.

(** * Facts about the embedding *)

(** ** Decimal numerals *)
Module NumeralFacts.
Import JS.

Lemma digit_value_char (d : N) :
  (d < 10)%N -> digit_value (pretty_N_char d) = Some (Z.of_N d).
Proof.
  intros Hd.
  assert (d = 0 \/ d = 1 \/ d = 2 \/ d = 3 \/ d = 4 \/ d = 5 \/ d = 6 \/ d = 7
          \/ d = 8 \/ d = 9)%N as H by lia.
  repeat (destruct H as [->|H]; [reflexivity|]). now subst.
Qed.

Lemma parse_digits_char (d : N) (s : string) (acc : option Z) :
  (d < 10)%N ->
  parse_digits 10 (String (pretty_N_char d) s) acc
  = parse_digits 10 s (Some (default 0 acc * 10 + Z.of_N d)).
Proof.
  intros Hd. cbn [parse_digits]. rewrite (digit_value_char d Hd).
  replace (Z.of_N d <? 10) with true by (symmetry; apply Z.ltb_lt; lia).
  reflexivity.
Qed.

(** Reading back the digits that [pretty] wrote in front of [s]. *)
Lemma parse_digits_pretty (x : N) :
  (0 < x)%N ->
  exists p, forall s acc,
    parse_digits 10 (pretty_N_go x s) acc
    = parse_digits 10 s (Some (default 0 acc * p + Z.of_N x)).
Proof.
  induction (N.lt_wf_0 x) as [x _ IH]. intros Hx.
  assert (x `div` 10 = 0 \/ 0 < x `div` 10)%N as [E|Hq]
    by (destruct (x `div` 10)%N; [left|right]; lia).
  - exists 10. intros s acc. rewrite pretty_N_go_step by done.
    rewrite E, pretty_N_go_0, parse_digits_char by (apply N.mod_lt; lia).
    rewrite N.mod_small; [reflexivity|]. apply N.div_small_iff in E; lia.
  - destruct (IH (x `div` 10)%N) as [p Hp]; [apply N.div_lt; lia|done|].
    exists (p * 10). intros s acc. rewrite pretty_N_go_step by done.
    rewrite Hp, parse_digits_char by (apply N.mod_lt; lia).
    cbn [default]. do 2 f_equal.
    pose proof (N.div_mod x 10 ltac:(lia)) as H.
    rewrite H at 3. rewrite N2Z.inj_add, N2Z.inj_mul. change (Z.of_N 10) with 10.
    unfold id. ring.
Qed.

Lemma pretty_N_go_head (x : N) (s : string) :
  (0 < x)%N -> exists c rest, pretty_N_go x s = String c rest /\ nonzero_digit c.
Proof.
  revert s. induction (N.lt_wf_0 x) as [x _ IH]. intros s Hx.
  rewrite pretty_N_go_step by done.
  assert (x `div` 10 = 0 \/ 0 < x `div` 10)%N as [E|Hq]
    by (destruct (x `div` 10)%N; [left|right]; lia).
  - rewrite E, pretty_N_go_0. eexists _, _. split; [reflexivity|].
    assert (x < 10)%N as Hlt by (apply N.div_small_iff in E; lia).
    rewrite N.mod_small by done. unfold nonzero_digit.
    assert (x = 1 \/ x = 2 \/ x = 3 \/ x = 4 \/ x = 5 \/ x = 6 \/ x = 7
            \/ x = 8 \/ x = 9)%N as H by lia.
    repeat (destruct H as [->|H]; [cbn; tauto|]). subst. cbn. tauto.
  - apply IH; [apply N.div_lt; lia|done].
Qed.


Lemma trimStart_digit (c : ascii) (rest : string) :
  nonzero_digit c \/ c = "-"%char -> trimStart (String c rest) = String c rest.
Proof.
  unfold nonzero_digit. intros H.
  repeat (destruct H as [H|H]); subst c; destruct rest as [|b [|d r]]; reflexivity.
Qed.

Lemma parseInt_digits (x : N) :
  (0 < x)%N ->
  strip_hex_prefix (pretty_N_go x "") = (10, pretty_N_go x "")
  /\ strip_sign (pretty_N_go x "") = (1, pretty_N_go x "")
  /\ trimStart (pretty_N_go x "") = pretty_N_go x ""
  /\ parse_digits 10 (pretty_N_go x "") None = Some (Z.of_N x).
Proof.
  intros Hx. destruct (pretty_N_go_head x "" Hx) as (c & rest & E & Hc).
  destruct (parse_digits_pretty x Hx) as [p Hp].
  rewrite Hp. cbn [parse_digits default]. rewrite E.
  split; [|split; [|split]].
  - unfold nonzero_digit in Hc. repeat (destruct Hc as [Hc|Hc]); subst c; reflexivity.
  - unfold nonzero_digit in Hc. repeat (destruct Hc as [Hc|Hc]); subst c; reflexivity.
  - apply trimStart_digit. now left.
  - f_equal; lia.
Qed.

(** [parseInt] reads a decimal numeral back as the number it writes. *)
Lemma parseInt_pretty (n : Z) : parseInt (pretty n) = Num n.
Proof.
  destruct n as [|q|q].
  - reflexivity.
  - change (pretty (Z.pos q)) with (pretty_N_go (N.pos q) "").
    destruct (parseInt_digits (N.pos q)) as (H1 & H2 & H3 & H4); [lia|].
    unfold parseInt. rewrite H3, H2, H1, H4. reflexivity.
  - change (pretty (Z.neg q)) with (String "-" (pretty_N_go (N.pos q) "")).
    destruct (parseInt_digits (N.pos q)) as (H1 & H2 & H3 & H4); [lia|].
    unfold parseInt. rewrite trimStart_digit by now right.
    cbn [strip_sign]. rewrite H1, H4. reflexivity.
Qed.

End NumeralFacts.

(** ** The validation loop and the two ways a call can go *)
Module OverrideFacts.
Import JS Json Effects Override.

Lemma overrideErrors_of_missing (x : intent) :
  overrideErrors_of x = List.map (fun f => f +:+ " is required") (missing x).
Proof.
  unfold overrideErrors_of, missing, required_fields, push. cbn [List.filter].
  destruct (truthy (prop x "tagNumber")), (truthy (prop x "description")),
    (truthy (prop x "typeId")), (truthy (prop x "methodId")),
    (truthy (prop x "appliedStateId")), (truthy (prop x "removedStateId"));
    reflexivity.
Qed.

Lemma valid_missing (x : intent) : valid x <-> missing x = [].
Proof.
  unfold valid, missing, required_fields. cbn [forallb List.filter].
  destruct (truthy (prop x "tagNumber")), (truthy (prop x "description")),
    (truthy (prop x "typeId")), (truthy (prop x "methodId")),
    (truthy (prop x "appliedStateId")), (truthy (prop x "removedStateId"));
    cbn; split; congruence.
Qed.

Lemma valid_truthy (x : intent) (f : string) :
  valid x -> In f required_fields -> truthy (prop x f) = true.
Proof.
  unfold valid. rewrite forallb_forall. auto.
Qed.

Lemma missing_spec (x : intent) (f : string) :
  In f (missing x) <-> In f required_fields /\ truthy (prop x f) = false.
Proof.
  unfold missing. rewrite filter_In, negb_true_iff. reflexivity.
Qed.

(** The loop of [validationErrors_of], from any starting index and array. *)
Lemma forEach_lines (xs : list intent) (k : nat) (acc : list string) :
  forEach
    (fun override index validationErrors =>
       let overrideErrors := overrideErrors_of override in
       if (0 <? Z.of_nat (List.length overrideErrors))%Z
       then push validationErrors
              ("Override " +:+ ToString (Num (index + 1)) +:+ ": "
                 +:+ join ", " overrideErrors)
       else validationErrors)
    xs (Z.of_nat k) acc
  = acc ++ List.concat (imap (fun i x => line_naming (missing x) (k + i)) xs).
Proof.
  revert k acc. induction xs as [|x xs IH]; intros k acc.
  - cbn. now rewrite app_nil_r.
  - cbn [forEach imap List.concat].
    replace (Z.of_nat k + 1) with (Z.of_nat (S k)) by lia.
    rewrite IH. rewrite overrideErrors_of_missing.
    rewrite Nat.add_0_r.
    assert (Hi : imap ((fun i x0 => line_naming (missing x0) (k + i)) ∘ S) xs
                 = imap (fun i x0 => line_naming (missing x0) (S k + i)) xs).
    { apply imap_ext. intros i y _. cbn. f_equal. lia. }
    rewrite Hi. clear Hi.
    destruct (missing x) as [|f fs] eqn:Hm.
    + cbn. reflexivity.
    + cbn [List.map List.length line_naming].
      replace (0 <? Z.of_nat (S (List.length (List.map (fun f0 => f0 +:+ " is required") fs)))) with true
        by (symmetry; apply Z.ltb_lt; lia).
      unfold push. rewrite <- app_assoc. cbn [ToString]. 
      replace (Z.of_nat (S k)) with (Z.of_nat k + 1) by lia.
      reflexivity.
Qed.

Lemma validationErrors_of_lines (xs : list intent) :
  validationErrors_of xs = lines_naming missing xs.
Proof.
  unfold validationErrors_of, lines_naming.
  change 0 with (Z.of_nat 0). rewrite forEach_lines. reflexivity.
Qed.


Lemma line_naming_nil (fs : list string) (i : nat) :
  line_naming fs i = [] <-> fs = [].
Proof. destruct fs; cbn; split; congruence. Qed.

Lemma lines_naming_In (which : intent -> list string) (xs : list intent) (s : string) :
  In s (lines_naming which xs) <->
  exists i x, xs !! i = Some x /\ In s (line_naming (which x) i).
Proof.
  unfold lines_naming. rewrite in_concat. split.
  - intros (l & Hl & Hs). apply list_elem_of_In, elem_of_lookup_imap in Hl.
    destruct Hl as (i & x & -> & Hx). eauto.
  - intros (i & x & Hx & Hs). exists (line_naming (which x) i). split; [|done].
    apply list_elem_of_In, elem_of_lookup_imap. eauto.
Qed.

Lemma lines_naming_nil (which : intent -> list string) (xs : list intent) :
  lines_naming which xs = [] <-> Forall (fun x => which x = []) xs.
Proof.
  split.
  - intros H. apply Forall_forall. intros x Hx.
    apply list_elem_of_lookup in Hx as [i Hi].
    destruct (which x) as [|f fs] eqn:E; [done|].
    assert (In ("Override " +:+ pretty (Z.of_nat i + 1) +:+ ": "
                  +:+ join ", " (List.map (fun f => f +:+ " is required") (f :: fs)))
               (lines_naming which xs)) as Hin.
    { apply lines_naming_In. exists i, x. split; [done|]. rewrite E. now left. }
    rewrite H in Hin. destruct Hin.
  - intros H. destruct (lines_naming which xs) as [|s l] eqn:E; [done|].
    assert (In s (lines_naming which xs)) as Hin by (rewrite E; now left).
    apply lines_naming_In in Hin as (i & x & Hx & Hs).
    rewrite Forall_forall in H. rewrite (H x) in Hs; [destruct Hs|].
    eapply list_elem_of_lookup_2; eauto.
Qed.

Lemma Forall_valid_lines (xs : list intent) :
  Forall valid xs <-> lines_naming missing xs = [].
Proof.
  rewrite lines_naming_nil. apply Forall_iff. intros x. apply valid_missing.
Qed.

Lemma invalid_lines (xs : list intent) :
  (exists x, In x xs /\ missing x <> []) -> lines_naming missing xs <> [].
Proof.
  intros (x & Hx & Hm) H. apply lines_naming_nil in H.
  rewrite Forall_forall in H. apply Hm, H. now apply list_elem_of_In.
Qed.

Lemma truthy_toString (v : prim) :
  truthy v = true -> toString_method v = inr (ToString v).
Proof. destruct v; cbn; congruence. Qed.

Lemma map_indexed_length {A B} (f : A -> Z -> error + B) (xs : list A) (k : Z)
    (ys : list B) :
  map_indexed f xs k = inr ys -> List.length ys = List.length xs.
Proof.
  revert k ys. induction xs as [|x xs IH]; intros k ys; cbn.
  - intros [= <-]. reflexivity.
  - destruct (f x k); [discriminate|].
    destruct (map_indexed f xs (k + 1)) eqn:E; [discriminate|].
    intros [= <-]. cbn. f_equal. eauto.
Qed.

Lemma map_indexed_lookup {A B} (f : A -> Z -> error + B) (xs : list A) (k : Z)
    (ys : list B) (i : nat) (y : B) :
  map_indexed f xs k = inr ys -> ys !! i = Some y ->
  exists x, xs !! i = Some x /\ f x (k + Z.of_nat i) = inr y.
Proof.
  revert k ys i. induction xs as [|x xs IH]; intros k ys i; cbn.
  - intros [= <-]. rewrite lookup_nil. discriminate.
  - destruct (f x k) as [|y0] eqn:Ef; [discriminate|].
    destruct (map_indexed f xs (k + 1)) as [|ys0] eqn:E; [discriminate|].
    intros [= <-]. destruct i as [|i]; cbn.
    + intros [= <-]. exists x. split; [done|]. now rewrite Z.add_0_r.
    + intros Hy. destruct (IH _ _ _ E Hy) as (x' & Hx' & Hf).
      exists x'. split; [done|]. rewrite <- Hf. f_equal. lia.
Qed.

Lemma map_indexed_total {A B} (f : A -> Z -> error + B) (xs : list A) (k : Z) :
  (forall x j, In x xs -> exists y, f x j = inr y) ->
  exists ys, map_indexed f xs k = inr ys.
Proof.
  revert k. induction xs as [|x xs IH]; intros k H; cbn.
  - eauto.
  - destruct (H x k) as [y ->]; [now left|].
    destruct (IH (k + 1)) as [ys ->]; [intros; apply H; now right|]. eauto.
Qed.

Lemma createNewOverride_valid (certificateId : string) (x : intent) (index : Z) :
  valid x -> exists r, createNewOverride certificateId x index = inr r.
Proof.
  intros Hv. unfold createNewOverride.
  rewrite !truthy_toString by (apply valid_truthy; [done|cbn; tauto]).
  cbn [try_]. eauto.
Qed.

Lemma submissionOverrides_valid (certificateId : string) (xs : list intent) :
  Forall valid xs -> exists rs, submissionOverrides_of certificateId xs = inr rs.
Proof.
  intros H. apply map_indexed_total. intros x j Hx.
  apply createNewOverride_valid. rewrite Forall_forall in H.
  now apply H, list_elem_of_In.
Qed.

Section Runs.
Variable now : Z.
Variable server : string -> form_data -> promise response.

(** What a call does when the validation finds something. *)
Lemma run_invalid (certificateId : string) (overrideData : argument) :
  let xs := overridesArray_of overrideData in
  validationErrors_of xs <> [] ->
  run (addOverride now server certificateId overrideData)
  = ([console_log [CStr "🚀 Adding override(s) to certificate:"; CStr certificateId];
      console_log [CStr ("📦 Processing " +:+ pretty (Z.of_nat (List.length xs))
                           +:+ " override(s)")];
      console_error [CStr "❌"; CStr (errorMessage_of (validationErrors_of xs))]],
     inl (Error (errorMessage_of (validationErrors_of xs)))).
Proof.
  intros xs Hne. unfold addOverride, run. fold xs.
  destruct (validationErrors_of xs) as [|v vs] eqn:E; [done|].
  replace (0 <? Z.of_nat (List.length (v :: vs))) with true
    by (symmetry; apply Z.ltb_lt; cbn [List.length]; lia).
  reflexivity.
Qed.


(** What a call does when every intent passes the validation. *)
Lemma run_valid (certificateId : string) (overrideData : argument) (rs : list value) :
  let xs := overridesArray_of overrideData in
  validationErrors_of xs = [] ->
  submissionOverrides_of certificateId xs = inr rs ->
  let url := submitUrl_of certificateId in
  let formData := formData_of now certificateId rs in
  let before :=
    [console_log [CStr "🚀 Adding override(s) to certificate:"; CStr certificateId];
     console_log [CStr ("📦 Processing " +:+ pretty (Z.of_nat (List.length xs))
                          +:+ " override(s)")];
     console_log [CStr "🎯 Submitting to:"; CStr url];
     console_log [CStr "✅ Overrides to be added:"; CVal (Arr rs)];
     http_fetch url "POST" formData] in
  let failed e :=
    (before ++ [console_error [CStr "❌ Error adding override(s):"; CErr e]],
     inr (inl e) : error + promise response) in
  run (addOverride now server certificateId overrideData)
  = match server url formData with
    | inl e => failed e
    | inr response =>
        if ok response
        then (before ++
                [console_log
                   [CStr ("✅ " +:+ pretty (Z.of_nat (List.length rs))
                            +:+ " override(s) added successfully to certificate "
                            +:+ certificateId)]],
              inr (inr response))
        else failed (Error ("Server error: " +:+ pretty (status response)
                              +:+ " " +:+ statusText response))
    end.
Proof.
  intros xs Hv Hrs url formData before failed.
  unfold addOverride, run. fold xs. rewrite Hv, Hrs.
  change (0 <? Z.of_nat (List.length (@nil string))) with false. cbv iota.
  unfold bind, emit, lift, fetch, bind, emit, ret. cbn [app].
  fold url. fold formData.
  destruct (server url formData) as [e|response]; [reflexivity|].
  unfold then_, catch_. destruct (ok response); reflexivity.
Qed.

End Runs.

End OverrideFacts.

(** ** The records and their serialization *)
Module RecordFacts.
Import JS Json Effects Override OverrideFacts.

Lemma string_app_assoc (a b c : string) : (a +:+ b) +:+ c = a +:+ (b +:+ c).
Proof.
  induction a as [|ch a IH]; [reflexivity|].
  change (String ch ((a +:+ b) +:+ c) = String ch (a +:+ (b +:+ c))).
  now rewrite IH.
Qed.

(** An element of a joined array stands in the joined text. *)
Lemma join_In (sep s : string) (l : list string) :
  In s l -> exists a b, join sep l = a +:+ s +:+ b.
Proof.
  induction l as [|x l IH]; [intros []|]. intros [->|Hin].
  - destruct l as [|y l].
    + exists "", "". change (s = s +:+ ""). clear.
      induction s as [|c s IH]; [reflexivity|].
      change (String c s = String c (s +:+ "")). now rewrite <- IH.
    + exists "", (sep +:+ join sep (y :: l)). reflexivity.
  - destruct (IH Hin) as (a & b & E). destruct l as [|y l]; [destruct Hin|].
    exists (x +:+ sep +:+ a), b.
    change (join sep (x :: y :: l)) with (x +:+ sep +:+ join sep (y :: l)).
    rewrite E. now rewrite !string_app_assoc.
Qed.

Lemma record_keys_NoDup : List.NoDup record_keys.
Proof. apply NoDup_ListNoDup. by apply (bool_decide_unpack _); vm_compute. Qed.

Lemma prop_insert_ne (x : intent) (k f : string) (v : prim) :
  k <> f -> prop (<[k:=v]> x) f = prop x f.
Proof. intros H. unfold prop. now rewrite lookup_insert_ne. Qed.

Lemma toString_method_inr (v : prim) (s : string) :
  toString_method v = inr s -> s = ToString v.
Proof. destruct v; cbn; congruence. Qed.

(** The record a successful [createNewOverride] returns, property by
    property: the object literal of lines 54-101 with the four strings in. *)
Lemma createNewOverride_inr (certificateId : string) (x : intent) (index : Z)
    (r : value) :
  createNewOverride certificateId x index = inr r ->
  exists props,
    r = Obj props
    /\ List.map fst props = record_keys
    /\ field "TagNumber" r = Some (Prim (prop x "tagNumber"))
    /\ field "Description" r = Some (Prim (prop x "description"))
    /\ field "OverrideTypeId" r = Some (Prim (Str (ToString (prop x "typeId"))))
    /\ field "OverrideMethodId" r = Some (Prim (Str (ToString (prop x "methodId"))))
    /\ field "OverrideAppliedStateId" r
       = Some (Prim (Str (ToString (prop x "appliedStateId"))))
    /\ field "OverrideRemovedStateId" r
       = Some (Prim (Str (ToString (prop x "removedStateId"))))
    /\ field "Comment" r = Some (Prim (or_else (prop x "comment") (Str "")))
    /\ field "AdditionalValueAppliedState" r
       = Some (Prim (or_else (prop x "additionalValue") (Str "")))
    /\ field "AdditionalValueRemovedState" r = Some (Prim Null)
    /\ field "CurrentOverrideStateId" r = Some (Prim (Str "5"))
    /\ field "OrderId" r = Some (Prim (Num (index + 1)))
    /\ field "OverrideIndex" r = Some (Prim (Num (index + 1)))
    /\ field "SystemOverrideCertificateId" r = Some (Prim (parseInt certificateId))
    /\ field "Id" r = Some (Prim Undefined).
Proof.
  unfold createNewOverride.
  destruct (toString_method (prop x "typeId")) as [|s1] eqn:E1; [discriminate|].
  destruct (toString_method (prop x "methodId")) as [|s2] eqn:E2; [discriminate|].
  destruct (toString_method (prop x "appliedStateId")) as [|s3] eqn:E3; [discriminate|].
  destruct (toString_method (prop x "removedStateId")) as [|s4] eqn:E4; [discriminate|].
  cbn [try_]. intros [= <-].
  apply toString_method_inr in E1, E2, E3, E4. subst.
  eexists. split; [reflexivity|]. repeat split; reflexivity.
Qed.


(** *** What [JSON.stringify] writes of a record *)

Lemma to_json_Arr (items : list value) :
  to_json (Arr items) = Some (JArr (elems_to_json items)).
Proof.
  reflexivity.
Qed.

Lemma to_json_Obj (props : list (string * value)) :
  to_json (Obj props) = Some (JObj (members_to_json props)).
Proof.
  reflexivity.
Qed.

Lemma elems_to_json_length (items : list value) :
  List.length (elems_to_json items) = List.length items.
Proof. apply length_map. Qed.

Lemma elems_to_json_lookup (items : list value) (i : nat) (v : value) :
  items !! i = Some v ->
  elems_to_json items !! i = Some (default JNull (to_json v)).
Proof. intros H. unfold elems_to_json. now rewrite list_lookup_fmap, H. Qed.

Lemma member_absent (k : string) (props : list (string * value)) :
  ~ In k (List.map fst props) -> member k (members_to_json props) = None.
Proof.
  induction props as [|[k' v] props IH]; [reflexivity|]. cbn [List.map fst In].
  intros Hk. cbn [members_to_json].
  assert (String.eqb k k' = false) as Hne.
  { apply String.eqb_neq. intros ->. apply Hk. now left. }
  destruct (to_json v); cbn [member]; rewrite ?Hne; apply IH; tauto.
Qed.

(** With no key repeated, a member is read back as the property was
    written, and is not there when the property held [undefined]. *)
Lemma member_of_assoc (k : string) (props : list (string * value)) :
  List.NoDup (List.map fst props) ->
  member k (members_to_json props)
  = match assoc k props with
    | Some v => to_json v
    | None => None
    end.
Proof.
  induction props as [|[k' v] props IH]; [reflexivity|].
  cbn [List.map fst]. intros Hnd. apply List.NoDup_cons_iff in Hnd as [Hk' Hnd].
  cbn [members_to_json assoc].
  destruct (String.eqb k k') eqn:E.
  - apply String.eqb_eq in E as ->.
    destruct (to_json v); cbn [member]; rewrite ?String.eqb_refl; [reflexivity|].
    now apply member_absent.
  - destruct (to_json v); cbn [member]; rewrite ?E; now apply IH.
Qed.

End RecordFacts.

(** * The claims *)

(** ** Building and serializing a batch *)
Module BatchClaims.
Import JS Json Effects Override NumeralFacts OverrideFacts RecordFacts Samples.

Lemma valid_no_errors (xs : list intent) :
  Forall valid xs -> validationErrors_of xs = [].
Proof. rewrite validationErrors_of_lines. apply Forall_valid_lines. Qed.

Lemma invalid_errors (xs : list intent) :
  (exists x, In x xs /\ ~ valid x) -> validationErrors_of xs <> [].
Proof.
  intros (x & Hx & Hv). rewrite validationErrors_of_lines. apply invalid_lines.
  exists x. split; [done|]. now rewrite <- valid_missing.
Qed.

(** A valid input is sent, once. *)
Lemma run_valid_request (now : Z) (server : string -> form_data -> promise response)
    (certificateId : string) (overrideData : argument) (rs : list value) :
  Forall valid (overridesArray_of overrideData) ->
  submissionOverrides_of certificateId (overridesArray_of overrideData) = inr rs ->
  let out := run (addOverride now server certificateId overrideData) in
  In (http_fetch (submitUrl_of certificateId) "POST"
        (formData_of now certificateId rs)) (fst out)
  /\ requests (fst out) = 1%nat
  /\ exists p, snd out = inr p.
Proof.
  intros Hv Hrs out. subst out.
  rewrite (run_valid now server certificateId overrideData rs (valid_no_errors _ Hv) Hrs).
  destruct (server _ _) as [e|r]; [|destruct (ok r)]; cbn [fst snd];
    (split; [cbn; tauto|split; [reflexivity|eauto]]).
Qed.

(** C1. For every array of n valid intents and every certificateId, the
    numbers involved being safe integers (the intents hold no other number,
    [parseInt(certificateId)] is one or is NaN, and so is the reading of the
    clock, as every time value is), the records of the batch are built by array position, 1-based and dense: the record at
    0-based position i comes from the intent at that position and has
    OrderId = OverrideIndex = i + 1; every record carries
    SystemOverrideCertificateId = parseInt(certificateId), which is n when
    certificateId is the decimal numeral of the safe integer n; and these
    records are the ones the request carries. *)
Theorem batch_order_by_position (now : Z)
    (server : string -> form_data -> promise response)
    (certificateId : string) (xs : list intent) :
  Forall valid xs ->
  Forall (fun x => exactNumbers x = true) xs ->
  exact (parseInt certificateId) = true ->
  isSafeInteger now = true ->
  exists rs,
    submissionOverrides_of certificateId xs = inr rs
    /\ List.length rs = List.length xs
    /\ (forall i r, rs !! i = Some r ->
          (exists x, xs !! i = Some x
                     /\ createNewOverride certificateId x (Z.of_nat i) = inr r)
          /\ field "OrderId" r = Some (Prim (Num (Z.of_nat i + 1)))
          /\ field "OverrideIndex" r = Some (Prim (Num (Z.of_nat i + 1)))
          /\ field "SystemOverrideCertificateId" r
             = Some (Prim (parseInt certificateId)))
    /\ (forall n, isSafeInteger n = true -> certificateId = pretty n ->
          parseInt certificateId = Num n)
    /\ In (http_fetch (submitUrl_of certificateId) "POST"
             (formData_of now certificateId rs))
          (fst (run (addOverride now server certificateId (Batch xs)))).
Proof.
  intros Hv _ _ _. destruct (submissionOverrides_valid certificateId xs Hv) as [rs Hrs].
  exists rs. split; [done|]. split; [now apply map_indexed_length in Hrs|].
  split.
  - intros i r Hr.
    destruct (map_indexed_lookup _ _ _ _ _ _ Hrs Hr) as (x & Hx & Hc).
    rewrite Z.add_0_l in Hc. split; [eauto|].
    destruct (createNewOverride_inr _ _ _ _ Hc) as (props & _ & _ & F).
    tauto.
  - split; [intros n _ ->; apply parseInt_pretty|].
    now apply (run_valid_request now server certificateId (Batch xs) rs).
Qed.

Lemma batch_order_by_position_witness :
  Forall valid [valve; mos]
  /\ Forall (fun x => exactNumbers x = true) [valve; mos]
  /\ exact (parseInt "1054470") = true
  /\ isSafeInteger 0 = true
  /\ exists rs,
       submissionOverrides_of "1054470" [valve; mos] = inr rs
       /\ List.length rs = List.length [valve; mos]
       /\ (forall i r, rs !! i = Some r ->
             (exists x, [valve; mos] !! i = Some x
                        /\ createNewOverride "1054470" x (Z.of_nat i) = inr r)
             /\ field "OrderId" r = Some (Prim (Num (Z.of_nat i + 1)))
             /\ field "OverrideIndex" r = Some (Prim (Num (Z.of_nat i + 1)))
             /\ field "SystemOverrideCertificateId" r
                = Some (Prim (parseInt "1054470")))
       /\ (forall n, isSafeInteger n = true -> "1054470" = pretty n ->
             parseInt "1054470" = Num n)
       /\ In (http_fetch (submitUrl_of "1054470") "POST"
                (formData_of 0 "1054470" rs))
             (fst (run (addOverride 0 accepting "1054470" (Batch [valve; mos])))).
Proof.
  assert (Forall valid [valve; mos]) as H
    by (repeat constructor; vm_compute; reflexivity).
  assert (Forall (fun x => exactNumbers x = true) [valve; mos]) as H1
    by (repeat constructor; vm_compute; reflexivity).
  assert (exact (parseInt "1054470") = true) as H2 by (vm_compute; reflexivity).
  split; [exact H|]. split; [exact H1|]. split; [exact H2|].
  split; [reflexivity|].
  exact (batch_order_by_position 0 accepting "1054470" [valve; mos] H H1 H2 eq_refl).
Defined.


(** The member of the serialized record for a property of the record. *)
Lemma member_of_field (r : value) (props : list (string * value)) (k : string)
    (v : value) :
  r = Obj props -> List.map fst props = record_keys -> field k r = Some v ->
  member k (members_to_json props) = to_json v.
Proof.
  intros -> Hk Hf. rewrite member_of_assoc by (rewrite Hk; apply record_keys_NoDup).
  cbn [field] in Hf. now rewrite Hf.
Qed.

(** C3. For every valid intent of a call, the numbers involved being safe
    integers (the intents hold no other number, [parseInt(certificateId)]
    is one or is NaN, and so is the reading of the clock, as every time value
    is), the record serialized into the OverridesJson entry of the request has OverrideTypeId, OverrideMethodId, OverrideAppliedStateId
    and OverrideRemovedStateId equal to the string form of the intent's ids
    (for a safe integer t, its decimal numeral [pretty t]),
    CurrentOverrideStateId equal to the string 5, and no member named Id. *)
Theorem serialized_ids_are_strings (now : Z)
    (server : string -> form_data -> promise response)
    (certificateId : string) (overrideData : argument) :
  Forall valid (overridesArray_of overrideData) ->
  Forall (fun x => exactNumbers x = true) (overridesArray_of overrideData) ->
  exact (parseInt certificateId) = true ->
  isSafeInteger now = true ->
  exists rs js,
    submissionOverrides_of certificateId (overridesArray_of overrideData) = inr rs
    /\ In (http_fetch (submitUrl_of certificateId) "POST"
             (formData_of now certificateId rs))
          (fst (run (addOverride now server certificateId overrideData)))
    /\ assoc "OverridesJson" (formData_of now certificateId rs)
       = Some (render (JArr js))
    /\ List.length js = List.length (overridesArray_of overrideData)
    /\ forall i x,
         overridesArray_of overrideData !! i = Some x ->
         exists ms,
           js !! i = Some (JObj ms)
           /\ member "OverrideTypeId" ms = Some (JStr (ToString (prop x "typeId")))
           /\ member "OverrideMethodId" ms = Some (JStr (ToString (prop x "methodId")))
           /\ member "OverrideAppliedStateId" ms
              = Some (JStr (ToString (prop x "appliedStateId")))
           /\ member "OverrideRemovedStateId" ms
              = Some (JStr (ToString (prop x "removedStateId")))
           /\ (forall t, isSafeInteger t = true -> prop x "typeId" = Num t ->
                 member "OverrideTypeId" ms = Some (JStr (pretty t)))
           /\ member "CurrentOverrideStateId" ms = Some (JStr "5")
           /\ member "Id" ms = None.
Proof.
  intros Hv _ _ _. set (xs := overridesArray_of overrideData) in *.
  destruct (submissionOverrides_valid certificateId xs Hv) as [rs Hrs].
  exists rs, (elems_to_json rs). split; [done|].
  split; [now apply (run_valid_request now server certificateId overrideData rs)|].
  split; [reflexivity|].
  pose proof (map_indexed_length _ _ _ _ Hrs) as Hlen.
  split; [now rewrite elems_to_json_length|].
  intros i x Hx.
  destruct (lookup_lt_is_Some_2 rs i) as [r Hr];
    [rewrite Hlen; eapply lookup_lt_Some, Hx|].
  destruct (map_indexed_lookup _ _ _ _ _ _ Hrs Hr) as (x' & Hx' & Hc).
  fold xs in Hx'. rewrite Hx in Hx'. injection Hx' as <-.
  destruct (createNewOverride_inr _ _ _ _ Hc)
    as (props & Hp & Hk & _ & _ & F1 & F2 & F3 & F4 & _ & _ & _ & F5 & _ & _ & _ & F6).
  exists (members_to_json props). split.
  { rewrite (elems_to_json_lookup _ _ _ Hr), Hp. reflexivity. }
  rewrite (member_of_field _ _ _ _ Hp Hk F1), (member_of_field _ _ _ _ Hp Hk F2),
    (member_of_field _ _ _ _ Hp Hk F3), (member_of_field _ _ _ _ Hp Hk F4),
    (member_of_field _ _ _ _ Hp Hk F5), (member_of_field _ _ _ _ Hp Hk F6).
  repeat split; try reflexivity. intros t _ ->. reflexivity.
Qed.

Lemma serialized_ids_are_strings_witness :
  Forall valid (overridesArray_of (Single valve))
  /\ Forall (fun x => exactNumbers x = true) (overridesArray_of (Single valve))
  /\ exact (parseInt "1054470") = true
  /\ isSafeInteger 0 = true
  /\ exists rs js,
       submissionOverrides_of "1054470" (overridesArray_of (Single valve)) = inr rs
       /\ In (http_fetch (submitUrl_of "1054470") "POST" (formData_of 0 "1054470" rs))
             (fst (run (addOverride 0 accepting "1054470" (Single valve))))
       /\ assoc "OverridesJson" (formData_of 0 "1054470" rs) = Some (render (JArr js))
       /\ List.length js = List.length (overridesArray_of (Single valve))
       /\ forall i x,
            overridesArray_of (Single valve) !! i = Some x ->
            exists ms,
              js !! i = Some (JObj ms)
              /\ member "OverrideTypeId" ms = Some (JStr (ToString (prop x "typeId")))
              /\ member "OverrideMethodId" ms = Some (JStr (ToString (prop x "methodId")))
              /\ member "OverrideAppliedStateId" ms
                 = Some (JStr (ToString (prop x "appliedStateId")))
              /\ member "OverrideRemovedStateId" ms
                 = Some (JStr (ToString (prop x "removedStateId")))
              /\ (forall t, isSafeInteger t = true -> prop x "typeId" = Num t ->
                    member "OverrideTypeId" ms = Some (JStr (pretty t)))
              /\ member "CurrentOverrideStateId" ms = Some (JStr "5")
              /\ member "Id" ms = None.
Proof.
  assert (Forall valid (overridesArray_of (Single valve))) as H
    by (repeat constructor; vm_compute; reflexivity).
  assert (Forall (fun x => exactNumbers x = true) (overridesArray_of (Single valve)))
    as H1 by (repeat constructor; vm_compute; reflexivity).
  assert (exact (parseInt "1054470") = true) as H2 by (vm_compute; reflexivity).
  split; [exact H|]. split; [exact H1|]. split; [exact H2|].
  split; [reflexivity|].
  exact (serialized_ids_are_strings 0 accepting "1054470" (Single valve) H H1 H2 eq_refl).
Defined.

(** C9. Passing one intent object is the same as passing the array that
    holds just that intent: the two calls give the same console output, the
    same validation outcome, the same request and the same settled promise,
    whatever the clock and the server. *)
Theorem single_is_one_element_batch (now : Z)
    (server : string -> form_data -> promise response)
    (certificateId : string) (x : intent) :
  overridesArray_of (Single x) = overridesArray_of (Batch [x])
  /\ validationErrors_of (overridesArray_of (Single x))
     = validationErrors_of (overridesArray_of (Batch [x]))
  /\ submissionOverrides_of certificateId (overridesArray_of (Single x))
     = submissionOverrides_of certificateId (overridesArray_of (Batch [x]))
  /\ run (addOverride now server certificateId (Single x))
     = run (addOverride now server certificateId (Batch [x])).
Proof.
  assert (overridesArray_of (Single x) = overridesArray_of (Batch [x])) as E
    by reflexivity.
  split; [exact E|]. rewrite E. repeat split.
Qed.

End BatchClaims.

(** ** The required-field check *)
Module ValidationClaims.
Import JS Json Effects Override OverrideFacts RecordFacts BatchClaims Samples AsStated.

(** C4. For every input with at least one invalid intent (one of the six
    required fields is falsy), the call throws the validation error
    synchronously and its trace holds no HTTP request; the outcome does not
    depend on the server, which is never asked. *)
Theorem validation_precedes_request (now : Z)
    (server : string -> form_data -> promise response)
    (certificateId : string) (overrideData : argument) :
  (exists x, In x (overridesArray_of overrideData) /\ ~ valid x) ->
  exists tr msg,
    run (addOverride now server certificateId overrideData) = (tr, inl (Error msg))
    /\ requests tr = 0%nat
    /\ (forall url method body, ~ In (http_fetch url method body) tr)
    /\ (forall server',
          run (addOverride now server' certificateId overrideData)
          = (tr, inl (Error msg))).
Proof.
  intros H. apply invalid_errors in H.
  eexists _, _. split; [apply (run_invalid now server), H|].
  split; [reflexivity|]. split.
  - intros url method body Hin. cbn in Hin.
    repeat (destruct Hin as [Hin|Hin]; [discriminate|]). destruct Hin.
  - intros server'. apply (run_invalid now server'), H.
Qed.

Lemma validation_precedes_request_witness :
  (exists x, In x (overridesArray_of (Batch [valve; zero_type])) /\ ~ valid x)
  /\ exists tr msg,
       run (addOverride 0 accepting "1054470" (Batch [valve; zero_type]))
       = (tr, inl (Error msg))
       /\ requests tr = 0%nat
       /\ (forall url method body, ~ In (http_fetch url method body) tr)
       /\ (forall server',
             run (addOverride 0 server' "1054470" (Batch [valve; zero_type]))
             = (tr, inl (Error msg))).
Proof.
  assert (exists x, In x (overridesArray_of (Batch [valve; zero_type])) /\ ~ valid x)
    as H.
  { exists zero_type. split; [right; left; reflexivity|]. vm_compute. discriminate. }
  split; [exact H|].
  exact (validation_precedes_request 0 accepting "1054470"
           (Batch [valve; zero_type]) H).
Defined.


(** The line of an invalid intent is one of the lines of the message. *)
Lemma line_in_validationErrors (xs : list intent) (i : nat) (x : intent) :
  xs !! i = Some x -> overrideErrors_of x <> [] ->
  In ("Override " +:+ pretty (Z.of_nat i + 1) +:+ ": "
        +:+ join ", " (overrideErrors_of x))
     (validationErrors_of xs).
Proof.
  intros Hx Hne. rewrite validationErrors_of_lines. apply lines_naming_In.
  exists i, x. split; [done|]. rewrite overrideErrors_of_missing in *.
  destruct (missing x); [done|]. now left.
Qed.

(** C8. The required-field check treats a falsy value as a missing field:
    when the intent at position i supplies a required field f with a falsy
    value v (the empty string for tagNumber or description, 0 for one of the
    four ids, and likewise null, false or NaN), the check records that f is
    required, the call throws before any request, and the message has, in
    the line Override i+1, the words f is required. *)
Theorem falsy_field_is_reported (now : Z)
    (server : string -> form_data -> promise response)
    (certificateId : string) (overrideData : argument)
    (i : nat) (x : intent) (f : string) (v : prim) :
  overridesArray_of overrideData !! i = Some x ->
  In f required_fields ->
  x !! f = Some v ->
  truthy v = false ->
  In (f +:+ " is required") (overrideErrors_of x)
  /\ exists tr msg before between after,
       run (addOverride now server certificateId overrideData)
       = (tr, inl (Error msg))
       /\ requests tr = 0%nat
       /\ msg = before
                +:+ ("Override " +:+ pretty (Z.of_nat i + 1) +:+ ": "
                       +:+ (between +:+ (f +:+ " is required") +:+ after))
    .
Proof.
  intros Hx Hf Hv Ht.
  assert (In (f +:+ " is required") (overrideErrors_of x)) as Hin.
  { rewrite overrideErrors_of_missing.
    apply (in_map (fun f0 => f0 +:+ " is required")), missing_spec.
    split; [done|]. unfold prop. now rewrite Hv. }
  split; [exact Hin|].
  assert (overrideErrors_of x <> []) as Hne by (intros E; now rewrite E in Hin).
  pose proof (line_in_validationErrors _ _ _ Hx Hne) as Hline.
  assert (validationErrors_of (overridesArray_of overrideData) <> []) as Hvs
    by (intros E; now rewrite E in Hline).
  destruct (join_In ", " _ _ Hin) as (a & b & Eerr).
  destruct (join_In nl _ _ Hline) as (c & d & Emsg).
  exists [console_log [CStr "🚀 Adding override(s) to certificate:"; CStr certificateId];
          console_log
            [CStr ("📦 Processing "
                     +:+ pretty (Z.of_nat (List.length (overridesArray_of overrideData)))
                     +:+ " override(s)")];
          console_error
            [CStr "❌";
             CStr (errorMessage_of (validationErrors_of (overridesArray_of overrideData)))]],
         (errorMessage_of (validationErrors_of (overridesArray_of overrideData))),
         ("Validation failed:" +:+ nl +:+ c), a, (b +:+ d).
  split; [apply (run_invalid now server), Hvs|]. split; [reflexivity|].
  unfold errorMessage_of. rewrite Emsg, Eerr.
  now rewrite !string_app_assoc.
Qed.

Lemma falsy_field_is_reported_witness :
  overridesArray_of (Batch [valve; zero_type]) !! 1%nat = Some zero_type
  /\ In "typeId" required_fields
  /\ zero_type !! "typeId" = Some (Num 0)
  /\ truthy (Num 0) = false
  /\ In ("typeId" +:+ " is required") (overrideErrors_of zero_type)
  /\ exists tr msg before between after,
       run (addOverride 0 accepting "1054470" (Batch [valve; zero_type]))
       = (tr, inl (Error msg))
       /\ requests tr = 0%nat
       /\ msg = before
                +:+ ("Override " +:+ pretty (Z.of_nat 1 + 1) +:+ ": "
                       +:+ (between +:+ ("typeId" +:+ " is required") +:+ after)).
Proof.
  assert (overridesArray_of (Batch [valve; zero_type]) !! 1%nat = Some zero_type)
    as H1 by reflexivity.
  assert (In "typeId" required_fields) as H2 by (cbn; tauto).
  assert (zero_type !! "typeId" = Some (Num 0)) as H3 by reflexivity.
  assert (truthy (Num 0) = false) as H4 by reflexivity.
  repeat (split; [assumption|]).
  exact (falsy_field_is_reported 0 accepting "1054470" (Batch [valve; zero_type])
           1 zero_type "typeId" (Num 0) H1 H2 H3 H4).
Defined.

Lemma lines_naming_map (which : intent -> list string) (xs : list intent) :
  lines_naming which xs
  = List.concat (imap (fun i fs => line_naming fs i) (List.map which xs)).
Proof. unfold lines_naming. now rewrite imap_fmap. Qed.

(** C2, as the script has it. For every input (one intent or an array) in
    which at least one intent has a required field that is not there or
    holds a falsy value, the call throws a validation error, before any
    request, whose message has one line per such intent, naming exactly the
    required fields of that intent that are falsy, all of them, in the order
    of the checks; the message depends on the intents through the truthiness
    of those six fields only. *)
Theorem falsy_fields_are_named (now : Z)
    (server : string -> form_data -> promise response)
    (certificateId : string) (overrideData : argument) :
  (exists x, In x (overridesArray_of overrideData) /\ missing x <> []) ->
  (exists tr,
     run (addOverride now server certificateId overrideData)
     = (tr, inl (Error (message_naming missing (overridesArray_of overrideData))))
     /\ requests tr = 0%nat)
  /\ (forall x f,
        In f (missing x) <-> In f required_fields /\ truthy (prop x f) = false)
  /\ (forall s,
        In s (lines_naming missing (overridesArray_of overrideData)) <->
        exists i x, overridesArray_of overrideData !! i = Some x
                    /\ missing x <> []
                    /\ s = "Override " +:+ pretty (Z.of_nat i + 1) +:+ ": "
                           +:+ join ", "
                                 (List.map (fun f => f +:+ " is required") (missing x)))
  /\ (forall ys,
        List.map missing ys = List.map missing (overridesArray_of overrideData) ->
        message_naming missing ys
        = message_naming missing (overridesArray_of overrideData)).
Proof.
  intros H. split; [|split; [|split]].
  - pose proof (invalid_lines _ H) as Hne. rewrite <- validationErrors_of_lines in Hne.
    rewrite (run_invalid now server _ _ Hne).
    unfold errorMessage_of, message_naming. rewrite validationErrors_of_lines.
    eexists. split; reflexivity.
  - apply missing_spec.
  - intros s. rewrite lines_naming_In. split.
    + intros (i & x & Hx & Hs). exists i, x. split; [done|].
      destruct (missing x) as [|f fs] eqn:E; [destruct Hs|].
      split; [done|]. destruct Hs as [<-|[]]. reflexivity.
    + intros (i & x & Hx & Hm & ->). exists i, x. split; [done|].
      destruct (missing x); [done|]. now left.
  - intros ys E. unfold message_naming. now rewrite !lines_naming_map, E.
Qed.

Lemma falsy_fields_are_named_witness :
  (exists x, In x (overridesArray_of (Single zero_type)) /\ missing x <> [])
  /\ (exists tr,
        run (addOverride 0 accepting "1054470" (Single zero_type))
        = (tr, inl (Error (message_naming missing (overridesArray_of (Single zero_type)))))
        /\ requests tr = 0%nat)
  /\ (forall x f,
        In f (missing x) <-> In f required_fields /\ truthy (prop x f) = false)
  /\ (forall s,
        In s (lines_naming missing (overridesArray_of (Single zero_type))) <->
        exists i x, overridesArray_of (Single zero_type) !! i = Some x
                    /\ missing x <> []
                    /\ s = "Override " +:+ pretty (Z.of_nat i + 1) +:+ ": "
                           +:+ join ", "
                                 (List.map (fun f => f +:+ " is required") (missing x)))
  /\ (forall ys,
        List.map missing ys = List.map missing (overridesArray_of (Single zero_type)) ->
        message_naming missing ys
        = message_naming missing (overridesArray_of (Single zero_type))).
Proof.
  assert (exists x, In x (overridesArray_of (Single zero_type)) /\ missing x <> [])
    as H.
  { exists zero_type. split; [left; reflexivity|]. vm_compute. discriminate. }
  split; [exact H|].
  exact (falsy_fields_are_named 0 accepting "1054470" (Single zero_type) H).
Defined.

(** C2 as worded does not hold: [zero_type] has typeId there (holding 0) and
    lacks only removedStateId, yet the message names both. *)
Lemma absent_fields_not_exactly_named :
  zero_type !! "typeId" = Some (Num 0)
  /\ absent zero_type = ["removedStateId"]
  /\ snd (run (addOverride 0 accepting "1054470" (Single zero_type)))
     = inl (Error ("Validation failed:" +:+ nl
                     +:+ "Override 1: typeId is required, removedStateId is required"))
  /\ ~ names_absent_fields 0 accepting "1054470" (Single zero_type).
Proof.
  split; [reflexivity|]. split; [reflexivity|]. split; [reflexivity|].
  unfold names_absent_fields. vm_compute. discriminate.
Qed.

End ValidationClaims.

(** ** The submission *)
Module SubmissionClaims.
Import JS Json Effects Override OverrideFacts RecordFacts BatchClaims Samples
  AsStated Catalog.

(** C5, as the script has it. A call with valid intents performs exactly one
    request, whatever the answer (no retry after a rejection or a transport
    failure). A 2xx response fulfils the promise with the response itself; any
    other response rejects it with an Error whose message is
    Server error: status statusText, built from the status and the status
    text alone, so two responses that differ only in their bodies give the
    same result; a transport failure rejects with the failure unchanged. *)
Theorem one_request_status_surfaced (now : Z)
    (server : string -> form_data -> promise response)
    (certificateId : string) (overrideData : argument) :
  Forall valid (overridesArray_of overrideData) ->
  exists rs,
    submissionOverrides_of certificateId (overridesArray_of overrideData) = inr rs
    /\ requests (fst (run (addOverride now server certificateId overrideData))) = 1%nat
    /\ match server (submitUrl_of certificateId) (formData_of now certificateId rs) with
       | inr r =>
           if ok r
           then snd (run (addOverride now server certificateId overrideData))
                = inr (inr r)
           else snd (run (addOverride now server certificateId overrideData))
                = inr (inl (Error ("Server error: " +:+ pretty (status r)
                                     +:+ " " +:+ statusText r)))
       | inl e =>
           snd (run (addOverride now server certificateId overrideData))
           = inr (inl e)
       end
    /\ forall r b,
         ok r = false ->
         run (addOverride now (answering r) certificateId overrideData)
         = run (addOverride now (answering (mkResponse (status r) (statusText r) b))
                  certificateId overrideData).
Proof.
  intros Hv. destruct (submissionOverrides_valid certificateId _ Hv) as [rs Hrs].
  exists rs. split; [done|].
  pose proof (valid_no_errors _ Hv) as Hno.
  split; [|split].
  - now apply (run_valid_request now server certificateId overrideData rs).
  - rewrite (run_valid now server certificateId overrideData rs Hno Hrs).
    destruct (server _ _) as [e|r]; [reflexivity|]. destruct (ok r); reflexivity.
  - intros r b Hr.
    rewrite (run_valid now (answering r) certificateId overrideData rs Hno Hrs).
    rewrite (run_valid now (answering _) certificateId overrideData rs Hno Hrs).
    unfold answering, ok in *. cbn [status statusText] in *. now rewrite Hr.
Qed.

Lemma one_request_status_surfaced_witness :
  Forall valid (overridesArray_of (Single valve))
  /\ exists rs,
       submissionOverrides_of "1054470" (overridesArray_of (Single valve)) = inr rs
       /\ requests (fst (run (addOverride 0
                                (answering (mkResponse 500 "Internal Server Error" "duplicate tag"))
                                "1054470" (Single valve)))) = 1%nat
       /\ match answering (mkResponse 500 "Internal Server Error" "duplicate tag")
                  (submitUrl_of "1054470") (formData_of 0 "1054470" rs) with
          | inr r =>
              if ok r
              then snd (run (addOverride 0
                               (answering (mkResponse 500 "Internal Server Error" "duplicate tag"))
                               "1054470" (Single valve)))
                   = inr (inr r)
              else snd (run (addOverride 0
                               (answering (mkResponse 500 "Internal Server Error" "duplicate tag"))
                               "1054470" (Single valve)))
                   = inr (inl (Error ("Server error: " +:+ pretty (status r)
                                        +:+ " " +:+ statusText r)))
          | inl e =>
              snd (run (addOverride 0
                          (answering (mkResponse 500 "Internal Server Error" "duplicate tag"))
                          "1054470" (Single valve)))
              = inr (inl e)
          end
       /\ forall r b,
            ok r = false ->
            run (addOverride 0 (answering r) "1054470" (Single valve))
            = run (addOverride 0 (answering (mkResponse (status r) (statusText r) b))
                     "1054470" (Single valve)).
Proof.
  assert (Forall valid (overridesArray_of (Single valve))) as H
    by (repeat constructor; vm_compute; reflexivity).
  split; [exact H|].
  exact (one_request_status_surfaced 0
           (answering (mkResponse 500 "Internal Server Error" "duplicate tag"))
           "1054470" (Single valve) H).
Defined.

(** C5 as worded does not hold: nothing the call gives back tells apart two
    500 responses with different bodies, so the body is not surfaced. *)
Lemma response_body_not_surfaced :
  ~ surfaces_status_and_body 0 "1054470" (Single valve).
Proof.
  intros [recover H].
  pose proof (H (mkResponse 500 "Internal Server Error" "duplicate tag") eq_refl) as H1.
  pose proof (H (mkResponse 500 "Internal Server Error" "") eq_refl) as H2.
  assert (run (addOverride 0
                 (fun _ _ => inr (mkResponse 500 "Internal Server Error" "duplicate tag"))
                 "1054470" (Single valve))
          = run (addOverride 0
                   (fun _ _ => inr (mkResponse 500 "Internal Server Error" ""))
                   "1054470" (Single valve))) as E by (vm_compute; reflexivity).
  rewrite E, H2 in H1. discriminate H1.
Qed.

(** C6, as the script has it. No catalog is consulted before the submission:
    a batch whose intents all have the six required fields truthy is sent,
    in one request that carries a record for every intent, and the call
    throws nothing, also when a catalog finds one of its records
    inconsistent (a method that is no child of the type, a state that is no
    child of the method). *)
Theorem inconsistent_batch_is_submitted (cat : catalog) (now : Z)
    (server : string -> form_data -> promise response)
    (certificateId : string) (xs : list intent) :
  Forall valid xs ->
  (exists x, In x xs /\ consistent cat x = false) ->
  exists rs,
    submissionOverrides_of certificateId xs = inr rs
    /\ List.length rs = List.length xs
    /\ In (http_fetch (submitUrl_of certificateId) "POST"
             (formData_of now certificateId rs))
          (fst (run (addOverride now server certificateId (Batch xs))))
    /\ requests (fst (run (addOverride now server certificateId (Batch xs)))) = 1%nat
    /\ exists p, snd (run (addOverride now server certificateId (Batch xs))) = inr p.
Proof.
  intros Hv _. destruct (submissionOverrides_valid certificateId xs Hv) as [rs Hrs].
  exists rs. split; [done|]. split; [now apply map_indexed_length in Hrs|].
  apply (run_valid_request now server certificateId (Batch xs) rs Hv Hrs).
Qed.

Lemma inconsistent_batch_is_submitted_witness :
  Forall valid [valve]
  /\ (exists x, In x [valve] /\ consistent mismatched x = false)
  /\ exists rs,
       submissionOverrides_of "1054470" [valve] = inr rs
       /\ List.length rs = List.length [valve]
       /\ In (http_fetch (submitUrl_of "1054470") "POST" (formData_of 0 "1054470" rs))
             (fst (run (addOverride 0 accepting "1054470" (Batch [valve]))))
       /\ requests (fst (run (addOverride 0 accepting "1054470" (Batch [valve])))) = 1%nat
       /\ exists p, snd (run (addOverride 0 accepting "1054470" (Batch [valve]))) = inr p.
Proof.
  assert (Forall valid [valve]) as H1 by (repeat constructor; vm_compute; reflexivity).
  assert (exists x, In x [valve] /\ consistent mismatched x = false) as H2
    by (exists valve; split; [left|]; reflexivity).
  split; [exact H1|]. split; [exact H2|].
  exact (inconsistent_batch_is_submitted mismatched 0 accepting "1054470" [valve] H1 H2).
Defined.

(** C6 as worded does not hold: with a catalog in which method 1 belongs to
    type 2, the intent of the scenario (type 1, method 1) is still sent. *)
Lemma inconsistent_batch_not_refused :
  consistent mismatched valve = false
  /\ requests (fst (run (addOverride 0 accepting "1054470" (Batch [valve])))) = 1%nat
  /\ snd (run (addOverride 0 accepting "1054470" (Batch [valve])))
     = inr (inr (mkResponse 200 "OK" ""))
  /\ ~ refuses_inconsistent mismatched 0 accepting "1054470" [valve].
Proof.
  split; [reflexivity|]. split; [reflexivity|]. split; [reflexivity|].
  intros H. destruct H as (e & He & _).
  - exists valve. split; [left|]; reflexivity.
  - vm_compute in He. discriminate He.
Qed.

End SubmissionClaims.

(** ** The additional values *)
Module RecordClaims.
Import JS Json Effects Override OverrideFacts RecordFacts BatchClaims Samples.

(** A property that [createNewOverride] does not read does not matter. *)
Lemma createNewOverride_unread (certificateId : string) (x : intent) (index : Z)
    (k : string) (v : prim) :
  ~ In k read_fields ->
  createNewOverride certificateId (<[k:=v]> x) index
  = createNewOverride certificateId x index.
Proof.
  intros Hk. unfold createNewOverride.
  rewrite !(prop_insert_ne x k) by (intros ->; apply Hk; cbn; tauto).
  reflexivity.
Qed.

Lemma injection_unread (now : Z) (certificateId : string) (x : intent) (index : Z)
    (k : string) (v : prim) :
  ~ In k read_fields ->
  Injection.createNewOverride now certificateId (<[k:=v]> x) index
  = Injection.createNewOverride now certificateId x index.
Proof.
  intros Hk. unfold Injection.createNewOverride.
  rewrite !(prop_insert_ne x k) by (intros ->; apply Hk; cbn; tauto).
  reflexivity.
Qed.

(** C10. In every record built from an intent, AdditionalValueRemovedState
    is null (and is serialized as null); AdditionalValueAppliedState is the
    intent's additionalValue, or the empty string when that is not there (or
    falsy); a property the builder does not read, such as a removed-side
    additional value, changes nothing; and additionalValue reaches no
    property of the record other than AdditionalValueAppliedState. The same
    holds for the builder of the single-override variant. *)
Theorem removed_side_value_is_null (now : Z) (certificateId : string)
    (x : intent) (index : Z) :
  (forall r,
     createNewOverride certificateId x index = inr r ->
     field "AdditionalValueRemovedState" r = Some (Prim Null)
     /\ field "AdditionalValueAppliedState" r
        = Some (Prim (or_else (prop x "additionalValue") (Str "")))
     /\ exists ms,
          to_json r = Some (JObj ms)
          /\ member "AdditionalValueRemovedState" ms = Some JNull)
  /\ (x !! "additionalValue" = None ->
      or_else (prop x "additionalValue") (Str "") = Str "")
  /\ (forall k v,
        ~ In k read_fields ->
        createNewOverride certificateId (<[k:=v]> x) index
        = createNewOverride certificateId x index)
  /\ (forall v key r r',
        key <> "AdditionalValueAppliedState" ->
        createNewOverride certificateId x index = inr r ->
        createNewOverride certificateId (<["additionalValue":=v]> x) index = inr r' ->
        field key r' = field key r)
  /\ field "AdditionalValueRemovedState"
       (Injection.createNewOverride now certificateId x index)
     = Some (Prim Null)
  /\ field "AdditionalValueAppliedState"
       (Injection.createNewOverride now certificateId x index)
     = Some (Prim (or_else (prop x "additionalValue") (Str "")))
  /\ (forall k v,
        ~ In k read_fields ->
        Injection.createNewOverride now certificateId (<[k:=v]> x) index
        = Injection.createNewOverride now certificateId x index)
  /\ (forall v key,
        key <> "AdditionalValueAppliedState" ->
        field key (Injection.createNewOverride now certificateId
                     (<["additionalValue":=v]> x) index)
        = field key (Injection.createNewOverride now certificateId x index)).
Proof.
  split; [|split; [|split; [|split; [|split; [|split; [|split]]]]]].
  - intros r Hr.
    destruct (createNewOverride_inr _ _ _ _ Hr)
      as (props & Hp & Hk & _ & _ & _ & _ & _ & _ & _ & Fa & Fr & _).
    split; [exact Fr|]. split; [exact Fa|].
    exists (members_to_json props). split; [now rewrite Hp|].
    now rewrite (member_of_field _ _ _ _ Hp Hk Fr).
  - intros Hx. unfold prop. rewrite Hx. reflexivity.
  - intros k v. apply createNewOverride_unread.
  - intros v key r r' Hkey. unfold createNewOverride.
    skip_insert prop_insert_ne x "additionalValue".
    destruct (toString_method (prop x "typeId")); [discriminate|].
    destruct (toString_method (prop x "methodId")); [discriminate|].
    destruct (toString_method (prop x "appliedStateId")); [discriminate|].
    destruct (toString_method (prop x "removedStateId")); [discriminate|].
    cbn [try_]. intros [= <-] [= <-]. apply String.eqb_neq in Hkey.
    cbn [field assoc]. rewrite Hkey. reflexivity.
  - reflexivity.
  - reflexivity.
  - intros k v. apply injection_unread.
  - intros v key Hkey. unfold Injection.createNewOverride.
    skip_insert prop_insert_ne x "additionalValue".
    apply String.eqb_neq in Hkey. cbn [field assoc]. rewrite Hkey. reflexivity.
Qed.

(** The theorem at work on an intent that supplies both additional values. *)
Lemma removed_side_value_is_null_witness :
  exists r,
    createNewOverride "1054470" forced 0 = inr r
    /\ field "AdditionalValueRemovedState" r = Some (Prim Null)
    /\ field "AdditionalValueAppliedState" r = Some (Prim (Str "50%"))
    /\ createNewOverride "1054470" forced 0 = createNewOverride "1054470"
         (<["additionalValue" := Str "50%"]> valve) 0.
Proof.
  destruct (createNewOverride "1054470" forced 0) as [e|r] eqn:E;
    [vm_compute in E; discriminate E|].
  exists r. split; [reflexivity|].
  destruct (removed_side_value_is_null 0 "1054470" forced 0) as (H1 & _ & H3 & _).
  destruct (H1 r E) as (Hr & Ha & _).
  split; [exact Hr|]. split; [exact Ha|].
  rewrite <- E.
  exact (proj1 (proj2 (proj2
           (removed_side_value_is_null 0 "1054470"
              (<["additionalValue" := Str "50%"]> valve) 0)))
           "additionalValueRemoved" (Str "0%")
           ltac:(cbn; intuition discriminate)).
Defined.

End RecordClaims.

(** ** The cascade resolver *)
Module CascadeClaims.
Import Catalog Cascade.

Lemma initial_consistent (cat : catalog) : consistent_slots cat initial.
Proof. repeat split; intros ? [=]. Qed.

Lemma selectType_consistent (cat : catalog) (id : Z) (s : resolver) :
  consistent_slots cat (fst (selectType id s)).
Proof. repeat split; intros ? [=]. Qed.

Lemma selectMethod_consistent (cat : catalog) (id : Z) (s : resolver) :
  consistent_slots cat s -> consistent_slots cat (fst (selectMethod id s)).
Proof.
  intros Hs. pose proof Hs as (H1 & H2 & H3 & H4 & H5). unfold selectMethod.
  destruct (methodOptions s) as [methods|] eqn:Eo; [|exact Hs].
  destruct (mem id methods) eqn:Em; [|exact Hs].
  destruct (H4 methods eq_refl) as (t & Ht & ->).
  repeat split; cbn; try (intros ? [=]; fail).
  - intros m [= <-]. eauto.
  - intros ms [= <-]. eauto.
Qed.

Lemma selectAppliedState_consistent (cat : catalog) (id : Z) (s : resolver) :
  consistent_slots cat s -> consistent_slots cat (fst (selectAppliedState id s)).
Proof.
  intros Hs. pose proof Hs as (H1 & H2 & H3 & H4 & H5). unfold selectAppliedState.
  destruct (stateOptions s) as [[applied removed]|] eqn:Eo; [|exact Hs].
  destruct (mem id applied) eqn:Em; [|exact Hs].
  destruct (H5 _ eq_refl) as (m & Hm & [= -> ->]).
  repeat split; cbn; auto.
  intros a [= <-]. eauto.
Qed.

Lemma selectRemovedState_consistent (cat : catalog) (id : Z) (s : resolver) :
  consistent_slots cat s -> consistent_slots cat (fst (selectRemovedState id s)).
Proof.
  intros Hs. pose proof Hs as (H1 & H2 & H3 & H4 & H5). unfold selectRemovedState.
  destruct (stateOptions s) as [[applied removed]|] eqn:Eo; [|exact Hs].
  destruct (mem id removed) eqn:Em; [|exact Hs].
  destruct (H5 _ eq_refl) as (m & Hm & [= -> ->]).
  repeat split; cbn; auto.
  intros r [= <-]. eauto.
Qed.

Lemma methodsArrive_consistent (cat : catalog) (tag : Z) (available : bool)
    (s : resolver) :
  consistent_slots cat s -> consistent_slots cat (methodsArrive cat tag available s).
Proof.
  intros Hs. pose proof Hs as (H1 & H2 & H3 & H4 & H5). unfold methodsArrive.
  destruct (mem tag (methodFetches s)); [|exact Hs].
  repeat split; cbn; auto.
  intros methods. destruct (typeId s) as [current|] eqn:Et; [|auto].
  destruct (Z.eqb_spec current tag) as [->|]; [|auto].
  destruct available; cbn; [|auto]. intros [= <-]. eauto.
Qed.

Lemma statesArrive_consistent (cat : catalog) (tag : Z) (available : bool)
    (s : resolver) :
  consistent_slots cat s -> consistent_slots cat (statesArrive cat tag available s).
Proof.
  intros Hs. pose proof Hs as (H1 & H2 & H3 & H4 & H5). unfold statesArrive.
  destruct (mem tag (stateFetches s)); [|exact Hs].
  repeat split; cbn; auto.
  intros states. destruct (methodId s) as [current|] eqn:Em; [|auto].
  destruct (Z.eqb_spec current tag) as [->|]; [|auto].
  destruct available; cbn; [|auto]. intros [= <-]. eauto.
Qed.

Lemma step_consistent (cat : catalog) (s : resolver) (ev : event) :
  consistent_slots cat s -> consistent_slots cat (fst (step cat s ev)).
Proof.
  destruct ev; cbn [step fst];
    auto using selectType_consistent, selectMethod_consistent,
      selectAppliedState_consistent, selectRemovedState_consistent,
      methodsArrive_consistent, statesArrive_consistent, initial_consistent.
Qed.

Lemma observations_consistent (cat : catalog) (evs : list event) (s0 s : resolver) :
  consistent_slots cat s0 -> In s (observations cat s0 evs) -> consistent_slots cat s.
Proof.
  revert s0. induction evs as [|ev evs IH]; intros s0 H0; cbn [observations].
  - intros [<-|[]]. exact H0.
  - intros [<-|Hin]; [exact H0|]. eapply IH; [|exact Hin]. now apply step_consistent.
Qed.

(** After a type was selected, the completions of fetches alone leave the
    type in place and offer nothing but its own methods. *)
Lemma arrivals_keep_type (cat : catalog) (s : resolver) (evs : list event) :
  Forall (fun ev => is_arrival ev = true) evs ->
  typeId (run cat s evs) = typeId s
  /\ (methodOptions (run cat s evs) = methodOptions s
      \/ exists t, typeId s = Some t
                   /\ methodOptions (run cat s evs) = Some (methodsForType cat t)).
Proof.
  revert s. induction evs as [|ev evs IH]; intros s Hall; [cbn; auto|].
  apply Forall_cons in Hall as [Hev Hall].
  change (run cat s (ev :: evs)) with (run cat (fst (step cat s ev)) evs).
  destruct (IH (fst (step cat s ev)) Hall) as [Ht Ho].
  assert (typeId (fst (step cat s ev)) = typeId s
          /\ (methodOptions (fst (step cat s ev)) = methodOptions s
              \/ exists t, typeId s = Some t
                           /\ methodOptions (fst (step cat s ev))
                              = Some (methodsForType cat t))) as [Ht1 Ho1].
  { destruct ev; try discriminate Hev; cbn [step fst].
    - unfold methodsArrive. destruct (mem tag (methodFetches s)); [|auto].
      cbn. split; [reflexivity|]. destruct (typeId s) as [current|]; [|auto].
      destruct (Z.eqb_spec current tag) as [->|]; [|auto].
      destruct available; cbn; eauto.
    - unfold statesArrive. destruct (mem tag (stateFetches s)); auto. }
  split; [congruence|].
  destruct Ho as [Ho|(t & Et & Ho)].
  - rewrite Ho. exact Ho1.
  - right. exists t. split; [congruence|exact Ho].
Qed.


Lemma mem_cons (id t : Z) (ids : list Z) :
  mem id (t :: ids) = (Z.eqb id t || mem id ids)%bool.
Proof. reflexivity. Qed.

(** The resolver after [selectType A] and then [selectType B]. *)
Lemma after_two_types (cat : catalog) (A B : Z) :
  run cat initial [SelectType A; SelectType B]
  = mkResolver (Some B) None None None None None [A; B] [].
Proof. reflexivity. Qed.

(** C7. Under every interleaving of the selection calls, [reset] and
    the completions of the catalog fetches, every state a caller can observe
    has each set slot a valid child of the current value of its parent, and
    offers only the lists of the current parent. In particular, after
    selectType(A) and then selectType(B), whatever fetches complete and in
    whatever order, the type is B and the method options are either not yet
    there or the methods of B; the list fetched for A is dropped, whether it
    arrives before or after the list for B. *)
Theorem cascade_slots_stay_consistent (cat : catalog) :
  (forall evs s, In s (observations cat initial evs) -> consistent_slots cat s)
  /\ (forall A B evs,
        Forall (fun ev => is_arrival ev = true) evs ->
        typeId (run cat initial ([SelectType A; SelectType B] ++ evs)) = Some B
        /\ (methodOptions (run cat initial ([SelectType A; SelectType B] ++ evs)) = None
            \/ methodOptions (run cat initial ([SelectType A; SelectType B] ++ evs))
               = Some (methodsForType cat B)))
  /\ (forall A B,
        methodOptions
          (run cat initial
             [SelectType A; SelectType B; MethodsArrive B true; MethodsArrive A true])
        = Some (methodsForType cat B))
  /\ (forall A B,
        methodOptions
          (run cat initial
             [SelectType A; SelectType B; MethodsArrive A true; MethodsArrive B true])
        = Some (methodsForType cat B))
  /\ (forall A B,
        A <> B ->
        methodOptions
          (run cat initial [SelectType A; SelectType B; MethodsArrive A true])
        = None).
Proof.
  split; [|split; [|split; [|split]]].
  - intros evs s. apply observations_consistent, initial_consistent.
  - intros A B evs Hall. unfold run. rewrite fold_left_app.
    change (fold_left _ [SelectType A; SelectType B] initial)
      with (run cat initial [SelectType A; SelectType B]).
    rewrite after_two_types.
    destruct (arrivals_keep_type cat
                (mkResolver (Some B) None None None None None [A; B] []) evs Hall)
      as [Ht Ho].
    unfold run in Ht, Ho. split; [exact Ht|].
    destruct Ho as [Ho|(t & [= <-] & Ho)]; [left|right]; exact Ho.
  - intros A B.
    change (run cat initial
              [SelectType A; SelectType B; MethodsArrive B true; MethodsArrive A true])
      with (methodsArrive cat A true
              (methodsArrive cat B true
                 (run cat initial [SelectType A; SelectType B]))).
    rewrite after_two_types. unfold methodsArrive at 2. cbn [methodFetches typeId].
    rewrite !mem_cons, !Z.eqb_refl, orb_true_r. cbn [andb].
    unfold methodsArrive. cbn [methodFetches typeId methodOptions].
    destruct (mem A (settle B [A; B])); [|reflexivity].
    cbn [methodOptions]. destruct (Z.eqb_spec B A) as [->|]; reflexivity.
  - intros A B.
    change (run cat initial
              [SelectType A; SelectType B; MethodsArrive A true; MethodsArrive B true])
      with (methodsArrive cat B true
              (methodsArrive cat A true
                 (run cat initial [SelectType A; SelectType B]))).
    rewrite after_two_types. unfold methodsArrive at 2. cbn [methodFetches typeId].
    rewrite !mem_cons, !Z.eqb_refl. cbn [orb settle]. rewrite Z.eqb_refl.
    unfold methodsArrive. cbn [methodFetches typeId methodOptions].
    rewrite mem_cons, Z.eqb_refl. cbn [orb andb methodOptions]. reflexivity.
  - intros A B Hne.
    change (run cat initial [SelectType A; SelectType B; MethodsArrive A true])
      with (methodsArrive cat A true (run cat initial [SelectType A; SelectType B])).
    rewrite after_two_types. unfold methodsArrive. cbn [methodFetches typeId].
    rewrite !mem_cons, !Z.eqb_refl. cbn [orb methodOptions].
    destruct (Z.eqb_spec B A) as [->|]; [done|reflexivity].
Qed.

End CascadeClaims.

(** * Further properties of the scripts *)

(** ** The callers of the validated [addOverride], and its edge inputs *)
Module HelperFacts.
Import JS Json Effects Override OverrideFacts RecordFacts BatchClaims Helpers.

Lemma batchLoop_spec (certificateId : string) (remaining : nat) (i : Z)
    (acc : list intent) :
  batchLoop certificateId remaining i acc
  = acc ++ imap (fun k _ => batchOverride certificateId (i + Z.of_nat k))
             (replicate remaining tt).
Proof.
  revert i acc. induction remaining as [|n IH]; intros i acc; cbn [batchLoop].
  - cbn. now rewrite app_nil_r.
  - rewrite IH. unfold push. rewrite <- app_assoc. cbn [replicate imap app].
    rewrite Z.add_0_r. do 2 f_equal. apply imap_ext. intros k [] _.
    unfold compose. f_equal. lia.
Qed.

Lemma batchLoop_length (certificateId : string) (remaining : nat) (i : Z) :
  List.length (batchLoop certificateId remaining i []) = remaining.
Proof.
  rewrite batchLoop_spec. cbn [app]. now rewrite length_imap, length_replicate.
Qed.

Lemma batchLoop_lookup (certificateId : string) (remaining : nat) (i : Z) (k : nat)
    (x : intent) :
  batchLoop certificateId remaining i [] !! k = Some x ->
  x = batchOverride certificateId (i + Z.of_nat k).
Proof.
  rewrite batchLoop_spec. cbn [app]. rewrite list_lookup_imap.
  destruct (replicate remaining tt !! k); cbn; congruence.
Qed.

Lemma batchOverride_valid (certificateId : string) (i : Z) :
  valid (batchOverride certificateId i).
Proof. reflexivity. Qed.

Lemma batchLoop_valid (certificateId : string) (remaining : nat) (i : Z) :
  Forall valid (batchLoop certificateId remaining i []).
Proof.
  apply Forall_forall. intros x Hx. apply list_elem_of_lookup in Hx as [k Hk].
  apply batchLoop_lookup in Hk as ->. apply batchOverride_valid.
Qed.


(** X1. [addMultipleOverrides(certificateId, count)] of the validated script
    never fails the validation: whatever the certificate id and the count
    (3 when left out, nothing for a count below 1), it sends exactly one
    request, which carries one record per pass of the loop; the record at
    0-based position k has OrderId k + 1 and the tag BATCH-(k+1)-certificateId. *)
Theorem addMultipleOverrides_sends_one_batch (now : Z)
    (server : string -> form_data -> promise response)
    (certificateId : string) (count : option Z) :
  exists rs,
    In (http_fetch (submitUrl_of certificateId) "POST"
          (formData_of now certificateId rs))
       (fst (run (addMultipleOverrides now server certificateId count)))
    /\ requests (fst (run (addMultipleOverrides now server certificateId count))) = 1%nat
    /\ (exists p, snd (run (addMultipleOverrides now server certificateId count)) = inr p)
    /\ List.length rs = Z.to_nat (default 3 count)
    /\ forall k r,
         rs !! k = Some r ->
         field "OrderId" r = Some (Prim (Num (Z.of_nat k + 1)))
         /\ field "OverrideIndex" r = Some (Prim (Num (Z.of_nat k + 1)))
         /\ field "TagNumber" r
            = Some (Prim (Str ("BATCH-" +:+ pretty (Z.of_nat k + 1) +:+ "-"
                                 +:+ certificateId))).
Proof.
  unfold addMultipleOverrides.
  set (xs := batchLoop certificateId (Z.to_nat (default 3 count)) 1 []).
  assert (Forall valid xs) as Hv by apply batchLoop_valid.
  destruct (submissionOverrides_valid certificateId xs Hv) as [rs Hrs].
  exists rs.
  destruct (run_valid_request now server certificateId (Batch xs) rs Hv Hrs)
    as (H1 & H2 & H3).
  split; [exact H1|]. split; [exact H2|]. split; [exact H3|].
  pose proof (map_indexed_length _ _ _ _ Hrs) as Hlen.
  split; [rewrite Hlen; apply batchLoop_length|].
  intros k r Hr.
  destruct (map_indexed_lookup _ _ _ _ _ _ Hrs Hr) as (x & Hx & Hc).
  apply batchLoop_lookup in Hx as ->. rewrite Z.add_0_l in Hc.
  destruct (createNewOverride_inr _ _ _ _ Hc)
    as (props & _ & _ & Ft & _ & _ & _ & _ & _ & _ & _ & _ & _ & Fo & Fi & _).
  split; [exact Fo|]. split; [exact Fi|]. rewrite Ft.
  replace (1 + Z.of_nat k) with (Z.of_nat k + 1) by lia. reflexivity.
Qed.

(** X2. An empty array passes the validation: the call throws nothing and
    sends one request whose OverridesJson entry is the text of the empty
    array. *)
Theorem empty_batch_is_submitted (now : Z)
    (server : string -> form_data -> promise response) (certificateId : string) :
  requests (fst (run (addOverride now server certificateId (Batch [])))) = 1%nat
  /\ In (http_fetch (submitUrl_of certificateId) "POST"
           (formData_of now certificateId []))
        (fst (run (addOverride now server certificateId (Batch []))))
  /\ assoc "OverridesJson" (formData_of now certificateId []) = Some "[]"
  /\ exists p, snd (run (addOverride now server certificateId (Batch []))) = inr p.
Proof.
  destruct (run_valid_request now server certificateId (Batch []) []
              (Forall_nil_2 _) eq_refl) as (H1 & H2 & H3).
  split; [exact H2|]. split; [exact H1|]. split; [reflexivity|exact H3].
Qed.

(** X3. Called without override data, the script validates the default
    empty object: it throws the validation error that names all six
    required fields for Override 1, and sends nothing. *)
Theorem omitted_data_is_rejected (now : Z)
    (server : string -> form_data -> promise response) (certificateId : string) :
  snd (run (addOverride now server certificateId Omitted))
  = inl (Error ("Validation failed:" +:+ nl
                  +:+ "Override 1: tagNumber is required, description is required, "
                  +:+ "typeId is required, methodId is required, "
                  +:+ "appliedStateId is required, removedStateId is required"))
  /\ requests (fst (run (addOverride now server certificateId Omitted))) = 0%nat.
Proof.
  assert (validationErrors_of (overridesArray_of Omitted) <> []) as Hne
    by (vm_compute; discriminate).
  rewrite (run_invalid now server certificateId Omitted Hne).
  split; reflexivity.
Qed.

End HelperFacts.

(** ** The single-override variant as a whole *)
Module InjectionFacts.
Import JS Json Effects Override OverrideFacts RecordFacts BatchClaims InjectionApi.

Lemma or_else_falsy (v d : prim) : truthy v = false -> or_else v d = d.
Proof. unfold or_else. now intros ->. Qed.

Lemma or_else_truthy (v d : prim) : truthy v = true -> or_else v d = v.
Proof. unfold or_else. now intros ->. Qed.

(** The events of one whole call: those of the synchronous part, then one
    line of the handlers. *)
Lemma injection_addOverride_events (clock : nat -> Z)
    (answer : string -> form_data -> promise response)
    (certificateId : string) (overrideData : option intent) :
  exists last,
    fst (fst (InjectionApi.addOverride clock answer certificateId overrideData))
    = fst (fst (addOverride_start clock certificateId overrideData)) ++ [last]
    /\ is_fetch last = false.
Proof.
  unfold InjectionApi.addOverride, addOverride_start, addOverride_settle.
  cbv zeta. cbn [fst snd]. unfold bind, then_, catch_, ret, throw, emit.
  destruct (answer _ _) as [e|r]; [|destruct (ok r)]; cbn; eexists; split;
    reflexivity.
Qed.

(** X4. The single-override variant does not validate: for every override
    data, also none at all, a call sends exactly one request, with one record
    numbered 1; a falsy typeId, methodId, appliedStateId or removedStateId is
    sent as 2, 2, 3 or 4, and a falsy tagNumber as AUTO-TAG- followed by the
    first reading of the clock, the token then taking the second reading. *)
Theorem injection_sends_without_validation (clock : nat -> Z)
    (answer : string -> form_data -> promise response)
    (certificateId : string) (overrideData : option intent) :
  let x := default ∅ overrideData in
  let record := Injection.createNewOverride (clock 0%nat) certificateId x 1 in
  let reads := if truthy (prop x "tagNumber") then 0%nat else 1%nat in
  requests (fst (fst (InjectionApi.addOverride clock answer certificateId overrideData)))
  = 1%nat
  /\ In (http_fetch (submitUrl_of certificateId) "POST"
           (formData_of (clock reads) certificateId [record]))
        (fst (fst (InjectionApi.addOverride clock answer certificateId overrideData)))
  /\ field "OrderId" record = Some (Prim (Num 1))
  /\ field "OverrideIndex" record = Some (Prim (Num 1))
  /\ (truthy (prop x "typeId") = false ->
      field "OverrideTypeId" record = Some (Prim (Str "2")))
  /\ (truthy (prop x "methodId") = false ->
      field "OverrideMethodId" record = Some (Prim (Str "2")))
  /\ (truthy (prop x "appliedStateId") = false ->
      field "OverrideAppliedStateId" record = Some (Prim (Str "3")))
  /\ (truthy (prop x "removedStateId") = false ->
      field "OverrideRemovedStateId" record = Some (Prim (Str "4")))
  /\ (truthy (prop x "tagNumber") = false ->
      field "TagNumber" record
      = Some (Prim (Str ("AUTO-TAG-" +:+ pretty (clock 0%nat))))).
Proof.
  intros x record reads.
  destruct (injection_addOverride_events clock answer certificateId overrideData)
    as (last & -> & Hlast).
  split.
  { unfold requests, addOverride_start. cbn [fst]. rewrite filter_app, length_app.
    cbn. rewrite Hlast. destruct (decide (false = true)); [discriminate|].
    reflexivity. }
  split.
  { apply in_or_app. left. unfold addOverride_start. cbn. tauto. }
  split; [reflexivity|]. split; [reflexivity|].
  repeat split; intros H; subst record; unfold Injection.createNewOverride;
    cbn [field assoc String.eqb Ascii.eqb Bool.eqb]; rewrite (or_else_falsy _ _ H);
    reflexivity.
Qed.


(** The record of the pass of the loop for [i], and its request. *)
Lemma batch_start (clock : nat -> Z) (certificateId : string) (i : Z) :
  addOverride_start clock certificateId (Some (InjectionApi.batchOverride certificateId i))
  = ([console_log [CStr "🚀 Adding override to certificate:"; CStr certificateId];
      console_log [CStr "🎯 Submitting to:"; CStr (submitUrl_of certificateId)];
      console_log
        [CStr "✅ New override:";
         CVal (Injection.createNewOverride (clock 0%nat) certificateId
                 (InjectionApi.batchOverride certificateId i) 1)];
      http_fetch (submitUrl_of certificateId) "POST"
        (formData_of (clock 0%nat) certificateId
           [Injection.createNewOverride (clock 0%nat) certificateId
              (InjectionApi.batchOverride certificateId i) 1])],
     (submitUrl_of certificateId,
      formData_of (clock 0%nat) certificateId
        [Injection.createNewOverride (clock 0%nat) certificateId
           (InjectionApi.batchOverride certificateId i) 1]),
     1%nat).
Proof. reflexivity. Qed.

Lemma issueLoop_spec (clock : nat -> Z) (certificateId : string) (remaining : nat)
    (i : Z) (reads : nat) :
  snd (issueLoop clock certificateId remaining i reads)
  = imap (fun k _ =>
            (submitUrl_of certificateId,
             formData_of (clock (reads + k)%nat) certificateId
               [Injection.createNewOverride (clock (reads + k)%nat) certificateId
                  (InjectionApi.batchOverride certificateId (i + Z.of_nat k)) 1]))
      (replicate remaining tt)
  /\ requests (fst (issueLoop clock certificateId remaining i reads)) = remaining.
Proof.
  revert i reads. induction remaining as [|n IH]; intros i reads; [split; reflexivity|].
  cbn [issueLoop]. rewrite batch_start.
  destruct (issueLoop clock certificateId n (i + 1) (reads + 1)%nat)
    as [events' requests'] eqn:E.
  specialize (IH (i + 1) (reads + 1)%nat). rewrite E in IH. cbn [fst snd] in IH.
  destruct IH as [IH1 IH2]. cbn [fst snd]. split.
  - cbn [replicate imap]. rewrite Nat.add_0_r, Z.add_0_r. f_equal.
    rewrite IH1. apply imap_ext. intros k [] _. unfold compose.
    replace (reads + 1 + k)%nat with (reads + S k)%nat by lia.
    replace (i + 1 + Z.of_nat k) with (i + Z.of_nat (S k)) by lia. reflexivity.
  - unfold requests in *. rewrite filter_app, length_app, IH2. reflexivity.
Qed.

(** X5. [addMultipleOverrides(certificateId, count)] of the single-override
    variant issues one request per pass of its loop (3 when count is left
    out), all of them before any response is handled; the k-th of them
    (0-based) carries a single record with the tag BATCH-(k+1)-certificateId,
    and every one of these records has OrderId 1, OverrideIndex 1 and, no
    ids being given, the default type 2. *)
Theorem injection_batch_is_one_request_each (clock : nat -> Z)
    (certificateId : string) (count : option Z) :
  let issued := addMultipleOverrides_start clock certificateId count in
  List.length (snd issued) = Z.to_nat (default 3 count)
  /\ requests (fst issued) = Z.to_nat (default 3 count)
  /\ forall k request,
       snd issued !! k = Some request ->
       exists record,
         request = (submitUrl_of certificateId,
                    formData_of (clock k) certificateId [record])
         /\ field "TagNumber" record
            = Some (Prim (Str ("BATCH-" +:+ pretty (Z.of_nat k + 1) +:+ "-"
                                 +:+ certificateId)))
         /\ field "OrderId" record = Some (Prim (Num 1))
         /\ field "OverrideIndex" record = Some (Prim (Num 1))
         /\ field "OverrideTypeId" record = Some (Prim (Str "2")).
Proof.
  intros issued. subst issued. unfold addMultipleOverrides_start.
  destruct (issueLoop_spec clock certificateId (Z.to_nat (default 3 count)) 1 0)
    as [H1 H2].
  rewrite H1. split; [now rewrite length_imap, length_replicate|].
  split; [exact H2|].
  intros k request. rewrite list_lookup_imap.
  destruct (replicate _ tt !! k); [|discriminate]. cbn [fmap option_fmap option_map].
  intros [= <-]. eexists. split; [reflexivity|].
  replace (1 + Z.of_nat k) with (Z.of_nat k + 1) by lia.
  repeat split; reflexivity.
Qed.


(** One whole call for an intent with a tag: one reading of the clock, one
    request, and a promise settled by the answer. *)
Lemma injection_call (clock : nat -> Z)
    (answer : string -> form_data -> promise response)
    (certificateId : string) (x : intent) :
  truthy (prop x "tagNumber") = true ->
  exists events,
    InjectionApi.addOverride clock answer certificateId (Some x)
    = (events,
       match answer (submitUrl_of certificateId)
               (requestOf (clock 0%nat) certificateId x) with
       | inl e => inl e
       | inr r =>
           if ok r then inr r
           else inl (Error ("Server error: " +:+ pretty (status r) +:+ " "
                              +:+ statusText r))
       end,
       1%nat)
    /\ requests events = 1%nat.
Proof.
  intros Ht. unfold InjectionApi.addOverride, addOverride_start. cbv zeta.
  change (default ∅ (Some x)) with x. unfold clockReads_of_record. rewrite Ht.
  unfold requestOf, Injection.overrides.
  unfold addOverride_settle, bind, then_, catch_, ret, throw, emit.
  destruct (answer _ _) as [e|r]; [|destruct (ok r)]; cbn; eexists; split;
    reflexivity.
Qed.

Lemma requests_app (t1 t2 : list event) :
  requests (t1 ++ t2) = (requests t1 + requests t2)%nat.
Proof. unfold requests. now rewrite filter_app, length_app. Qed.

(** X6. [testAllTypes] sends its three overrides (MOS, hardware bypass,
    forced value) one after the other and stops at the first submission
    that does not end in a 2xx response: no later override is sent and the
    chain is rejected; when all three succeed there are three requests and
    the chain is fulfilled with the last response. *)
Theorem testAllTypes_stops_at_first_failure (clock : nat -> Z)
    (answer : nat -> string -> form_data -> promise response)
    (certificateId : option string) :
  let c := default "1054470" certificateId in
  let o0 := answer 0%nat (submitUrl_of c) (requestOf (clock 0%nat) c Samples.mos) in
  let o1 := answer 1%nat (submitUrl_of c)
              (requestOf (clock 1%nat) c Helpers.hardwareBypass) in
  let o2 := answer 2%nat (submitUrl_of c) (requestOf (clock 2%nat) c forcedValue) in
  let result := testAllTypes clock answer certificateId in
  (fulfils o0 = false ->
   requests (fst result) = 1%nat /\ exists e, snd result = inl e)
  /\ (fulfils o0 = true -> fulfils o1 = false ->
      requests (fst result) = 2%nat /\ exists e, snd result = inl e)
  /\ (fulfils o0 = true -> fulfils o1 = true -> fulfils o2 = false ->
      requests (fst result) = 3%nat /\ exists e, snd result = inl e)
  /\ (fulfils o0 = true -> fulfils o1 = true -> fulfils o2 = true ->
      requests (fst result) = 3%nat
      /\ exists r, o2 = inr r /\ snd result = inr (Some r)).
Proof.
  intros c o0 o1 o2 result. subst result. unfold testAllTypes. fold c.
  cbn [chain].
  destruct (injection_call (fun j => clock (0 + j)%nat) (answer 0%nat) c Samples.mos
              eq_refl) as (ev0 & -> & R0).
  cbn [Nat.add]. fold o0.
  destruct (injection_call (fun j => clock (0 + 1 + j)%nat) (answer 1%nat) c
              Helpers.hardwareBypass eq_refl) as (ev1 & E1 & R1).
  destruct (injection_call (fun j => clock (0 + 1 + 1 + j)%nat) (answer 2%nat) c
              forcedValue eq_refl) as (ev2 & E2 & R2).
  cbn [Nat.add] in E1, E2. fold o1 in E1. fold o2 in E2.
  unfold fulfils.
  destruct o0 as [e0|r0]; [|destruct (ok r0)]; cbn [fst snd].
  1, 3: repeat split; intros; try congruence;
    try (rewrite requests_app, R0; reflexivity); eauto.
  cbn [Nat.add]. rewrite E1.
  destruct o1 as [e1|r1]; [|destruct (ok r1)]; cbn [fst snd].
  1, 3: repeat split; intros; try congruence;
    try (rewrite !requests_app, R0, R1; reflexivity); eauto.
  cbn [Nat.add]. rewrite E2.
  destruct o2 as [e2|r2]; [|destruct (ok r2)]; cbn [fst snd];
    repeat split; intros; try congruence;
    try (rewrite !requests_app, R0, R1, R2; reflexivity); eauto.
Qed.

End InjectionFacts.

(** ** The comparison payload of the capture script *)
Module CaptureFacts.
Import JS Json Effects Override OverrideFacts RecordFacts BatchClaims Capture.

Lemma testRecord_keys_NoDup : List.NoDup testRecord_keys.
Proof. apply NoDup_ListNoDup. by apply (bool_decide_unpack _); vm_compute. Qed.

Lemma assoc_not_In {V} (k : string) (props : list (string * V)) :
  ~ In k (List.map fst props) -> assoc k props = None.
Proof.
  induction props as [|[k' v] props IH]; [reflexivity|]. cbn [List.map fst In assoc].
  intros H. destruct (String.eqb_spec k k') as [->|]; [tauto|]. apply IH. tauto.
Qed.

(** What the two builders make of one valid intent. *)
Lemma testRecord_agrees (certificateId : string) (x : intent) (index : Z) :
  valid x ->
  exists props props',
    createNewOverride certificateId x index = inr (Obj props)
    /\ testRecord certificateId x index = inr (Obj props')
    /\ List.map fst props = record_keys
    /\ List.map fst props' = testRecord_keys
    /\ forall key, In key testRecord_keys -> assoc key props' = assoc key props.
Proof.
  intros Hv. unfold createNewOverride, testRecord.
  rewrite !truthy_toString by (apply valid_truthy; [done|cbn; tauto]).
  cbn [try_]. eexists _, _. split; [reflexivity|]. split; [reflexivity|].
  split; [reflexivity|]. split; [reflexivity|].
  intros key Hkey. unfold testRecord_keys in Hkey. cbn [In] in Hkey.
  repeat (destruct Hkey as [<-|Hkey]; [reflexivity|]). destruct Hkey.
Qed.

(** X7. For valid intents the comparison payload of the capture script
    agrees with the payload that [addOverride] sends: it has a record for
    every intent, and each of its records has exactly the members of the
    real record whose keys are among its own 18 keys, with the same values
    (Id is written in neither); the other members of the real record are
    missing from it. *)
Theorem capture_payload_agrees (certificateId : string) (xs : list intent) :
  Forall valid xs ->
  exists rs rs',
    submissionOverrides_of certificateId xs = inr rs
    /\ testRecords certificateId xs = inr rs'
    /\ generateTestOverrideJson certificateId xs
       = inr (render (JArr (elems_to_json rs')))
    /\ List.length rs' = List.length rs
    /\ forall i r r',
         rs !! i = Some r -> rs' !! i = Some r' ->
         exists ms ms',
           to_json r = Some (JObj ms) /\ to_json r' = Some (JObj ms')
           /\ (forall key, In key testRecord_keys -> member key ms' = member key ms)
           /\ (forall key, ~ In key testRecord_keys -> member key ms' = None)
           /\ member "Id" ms' = None.
Proof.
  intros Hv. destruct (submissionOverrides_valid certificateId xs Hv) as [rs Hrs].
  assert (exists rs', testRecords certificateId xs = inr rs') as [rs' Hrs'].
  { apply map_indexed_total. intros x j Hx.
    rewrite Forall_forall in Hv. apply list_elem_of_In, Hv in Hx.
    destruct (testRecord_agrees certificateId x j Hx) as (p & p' & _ & -> & _).
    eauto. }
  exists rs, rs'. split; [done|]. split; [done|].
  split; [unfold generateTestOverrideJson; now rewrite Hrs'|].
  split.
  { rewrite (map_indexed_length _ _ _ _ Hrs'), (map_indexed_length _ _ _ _ Hrs).
    reflexivity. }
  intros i r r' Hr Hr'.
  destruct (map_indexed_lookup _ _ _ _ _ _ Hrs Hr) as (x & Hx & Hc).
  destruct (map_indexed_lookup _ _ _ _ _ _ Hrs' Hr') as (x' & Hx' & Hc').
  rewrite Hx in Hx'. injection Hx' as <-.
  assert (valid x) as Hvx.
  { rewrite Forall_forall in Hv. eapply Hv, list_elem_of_lookup_2, Hx. }
  destruct (testRecord_agrees certificateId x (0 + Z.of_nat i) Hvx)
    as (props & props' & E & E' & Hk & Hk' & Hag).
  rewrite E in Hc. rewrite E' in Hc'. injection Hc as <-. injection Hc' as <-.
  exists (members_to_json props), (members_to_json props').
  split; [reflexivity|]. split; [reflexivity|].
  assert (forall key, member key (members_to_json props')
                      = match assoc key props' with
                        | Some v => to_json v
                        | None => None
                        end) as M'
    by (intros; apply member_of_assoc; rewrite Hk'; apply testRecord_keys_NoDup).
  assert (forall key, member key (members_to_json props)
                      = match assoc key props with
                        | Some v => to_json v
                        | None => None
                        end) as M
    by (intros; apply member_of_assoc; rewrite Hk; apply record_keys_NoDup).
  split; [|split].
  - intros key Hkey. now rewrite M', M, (Hag key Hkey).
  - intros key Hkey. rewrite M', assoc_not_In; [reflexivity|now rewrite Hk'].
  - rewrite M', (Hag "Id") by (cbn; tauto).
    destruct (createNewOverride_inr _ _ _ _ E) as (p & _ & _ & F).
    cbn [field] in F. destruct F as (_ & _ & _ & _ & _ & _ & _ & _ & _ & _ & _ & _ & _ & ->).
    reflexivity.
Qed.


Lemma capture_payload_agrees_witness :
  Forall valid [Samples.valve]
  /\ exists rs rs',
       submissionOverrides_of "1054470" [Samples.valve] = inr rs
       /\ testRecords "1054470" [Samples.valve] = inr rs'
       /\ generateTestOverrideJson "1054470" [Samples.valve]
          = inr (render (JArr (elems_to_json rs')))
       /\ List.length rs' = List.length rs
       /\ forall i r r',
            rs !! i = Some r -> rs' !! i = Some r' ->
            exists ms ms',
              to_json r = Some (JObj ms) /\ to_json r' = Some (JObj ms')
              /\ (forall key, In key testRecord_keys -> member key ms' = member key ms)
              /\ (forall key, ~ In key testRecord_keys -> member key ms' = None)
              /\ member "Id" ms' = None.
Proof.
  assert (Forall valid [Samples.valve]) as H
    by (repeat constructor; vm_compute; reflexivity).
  split; [exact H|].
  exact (capture_payload_agrees "1054470" [Samples.valve] H).
Defined.

Lemma testRecord_error (certificateId : string) (x : intent) (index : Z) (e : error) :
  testRecord certificateId x index = inl e -> kind e = TypeErrorK.
Proof.
  unfold testRecord, try_.
  destruct (prop x "typeId"); cbn; try (intros [= <-]; reflexivity);
    destruct (prop x "methodId"); cbn; try (intros [= <-]; reflexivity);
    destruct (prop x "appliedStateId"); cbn; try (intros [= <-]; reflexivity);
    destruct (prop x "removedStateId"); cbn; try (intros [= <-]; reflexivity);
    discriminate.
Qed.

Lemma testRecord_throws (certificateId : string) (x : intent) (index : Z) (f : string) :
  In f ["typeId"; "methodId"; "appliedStateId"; "removedStateId"] ->
  prop x f = Undefined \/ prop x f = Null ->
  exists e, testRecord certificateId x index = inl e.
Proof.
  intros Hf Hp. unfold testRecord, try_.
  destruct (toString_method (prop x "typeId")) as [|s1] eqn:E1; [eauto|].
  destruct (toString_method (prop x "methodId")) as [|s2] eqn:E2; [eauto|].
  destruct (toString_method (prop x "appliedStateId")) as [|s3] eqn:E3; [eauto|].
  destruct (toString_method (prop x "removedStateId")) as [|s4] eqn:E4; [eauto|].
  exfalso. cbn [In] in Hf.
  destruct Hf as [<-|[<-|[<-|[<-|[]]]]]; destruct Hp as [Hp|Hp];
    rewrite Hp in *; discriminate.
Qed.

Lemma map_indexed_throws {A B} (f : A -> Z -> error + B) (xs : list A) (k : Z)
    (P : error -> Prop) :
  (forall x j e, f x j = inl e -> P e) ->
  (exists x, In x xs /\ forall j, exists e, f x j = inl e) ->
  exists e, map_indexed f xs k = inl e /\ P e.
Proof.
  intros HP. revert k. induction xs as [|x xs IH]; intros k (y & Hy & Hf);
    [destruct Hy|].
  cbn [map_indexed]. destruct (f x k) as [e|b] eqn:E; [eauto|].
  destruct Hy as [->|Hy]; [destruct (Hf k) as [e He]; congruence|].
  destruct (IH (k + 1)) as (e & -> & He); eauto.
Qed.

(** X8. The comparison payload is built without the required-field check:
    when one intent of the array has no typeId, methodId, appliedStateId or
    removedStateId (the property is not there, or holds undefined or null),
    [generateTestOverrideJson] throws a TypeError and gives no text, where
    [addOverride] throws the validation error that names the field. *)
Theorem capture_throws_on_missing_id (certificateId : string) (xs : list intent)
    (x : intent) (f : string) :
  In x xs ->
  In f ["typeId"; "methodId"; "appliedStateId"; "removedStateId"] ->
  prop x f = Undefined \/ prop x f = Null ->
  (exists e, generateTestOverrideJson certificateId xs = inl e /\ kind e = TypeErrorK)
  /\ In (f +:+ " is required") (overrideErrors_of x).
Proof.
  intros Hx Hf Hp. split.
  - destruct (map_indexed_throws (testRecord certificateId) xs 0
                (fun e => kind e = TypeErrorK)) as (e & He & Hk).
    + intros y j e. apply testRecord_error.
    + exists x. split; [done|]. intros j. now apply (testRecord_throws _ _ _ f).
    + exists e. split; [|exact Hk]. unfold generateTestOverrideJson, testRecords.
      now rewrite He.
  - rewrite overrideErrors_of_missing.
    apply (in_map (fun f0 => f0 +:+ " is required")), missing_spec. split.
    + cbn [In] in Hf. cbn. tauto.
    + destruct Hp as [-> | ->]; reflexivity.
Qed.

Lemma capture_throws_on_missing_id_witness :
  In Samples.zero_type [Samples.valve; Samples.zero_type]
  /\ In "removedStateId" ["typeId"; "methodId"; "appliedStateId"; "removedStateId"]
  /\ (prop Samples.zero_type "removedStateId" = Undefined
      \/ prop Samples.zero_type "removedStateId" = Null)
  /\ (exists e,
        generateTestOverrideJson "1054470" [Samples.valve; Samples.zero_type] = inl e
        /\ kind e = TypeErrorK)
  /\ In ("removedStateId" +:+ " is required") (overrideErrors_of Samples.zero_type).
Proof.
  assert (In Samples.zero_type [Samples.valve; Samples.zero_type]) as H1
    by (right; left; reflexivity).
  assert (In "removedStateId" ["typeId"; "methodId"; "appliedStateId"; "removedStateId"])
    as H2 by (cbn; tauto).
  assert (prop Samples.zero_type "removedStateId" = Undefined
          \/ prop Samples.zero_type "removedStateId" = Null) as H3
    by (left; reflexivity).
  split; [exact H1|]. split; [exact H2|]. split; [exact H3|].
  exact (capture_throws_on_missing_id "1054470" [Samples.valve; Samples.zero_type]
           Samples.zero_type "removedStateId" H1 H2 H3).
Defined.

End CaptureFacts.

(** * The CSV export *)

Module CsvFacts.
Import JS Json RecordFacts CsvExport.

Lemma app_String (a : ascii) (s t : string) : String a s +:+ t = String a (s +:+ t).
Proof. reflexivity. Qed.

Lemma app_empty_l (s : string) : "" +:+ s = s.
Proof. reflexivity. Qed.

Lemma app_empty_r (s : string) : s +:+ "" = s.
Proof.
  induction s as [|a s IH]; [reflexivity|]. rewrite app_String. now rewrite IH.
Qed.

Lemma snoc_app (acc : string) (a : ascii) (s : string) :
  (acc +:+ String a "") +:+ s = acc +:+ String a s.
Proof. now rewrite string_app_assoc. Qed.

Lemma includes_cons (c a : ascii) (s : string) :
  includes c (String a s) = false -> Ascii.eqb a c = false /\ includes c s = false.
Proof. cbn [includes]. destruct (Ascii.eqb a c); [discriminate|auto]. Qed.

(** Characters that are no separators are gathered into the field. *)
Lemma readCsv_plain (f : string) :
  includes comma f = false -> includes LF f = false ->
  forall acc rest record records,
    readCsv (f +:+ rest) Plain acc record records
    = readCsv rest Plain (acc +:+ f) record records.
Proof.
  induction f as [|a f IH]; intros Hc Hl acc rest record records.
  - now rewrite app_empty_l, app_empty_r.
  - apply includes_cons in Hc as [Ha Hc]. apply includes_cons in Hl as [Ha' Hl].
    rewrite app_String. cbn [readCsv]. rewrite Ha, Ha'.
    rewrite IH by assumption. now rewrite snoc_app.
Qed.

(** Inside quotes everything is gathered, a doubled quote as one quote. *)
Lemma readCsv_quoted (f : string) :
  forall acc rest record records,
    readCsv (doubleQuotes f +:+ rest) Quoted acc record records
    = readCsv rest Quoted (acc +:+ f) record records.
Proof.
  induction f as [|a f IH]; intros acc rest record records.
  - now rewrite app_empty_r.
  - cbn [doubleQuotes]. destruct (Ascii.eqb a dq) eqn:E.
    + apply Ascii.eqb_eq in E as ->. rewrite !app_String. cbn [readCsv].
      rewrite Ascii.eqb_refl. rewrite IH. now rewrite snoc_app.
    + rewrite app_String. cbn [readCsv]. rewrite E. rewrite IH. now rewrite snoc_app.
Qed.

Lemma sep_not_dq (sep : ascii) : sep = comma \/ sep = LF -> Ascii.eqb sep dq = false.
Proof. intros [-> | ->]; reflexivity. Qed.

(** The reader gets a field back from what line 106-111 write for it. *)
Lemma readCsv_field (f : string) (sep : ascii) (rest : string)
    (record : list string) (records : list (list string)) :
  sep = comma \/ sep = LF ->
  readCsv (escapeCsv f +:+ String sep rest) FieldStart "" record records
  = afterField sep rest f record records.
Proof.
  intros Hsep. unfold escapeCsv.
  destruct (includes comma f) eqn:Hc; cbn [orb].
  2: destruct (includes dq f) eqn:Hq; cbn [orb].
  3: destruct (includes LF f) eqn:Hl; cbn [orb].
  4: destruct (includes CR f) eqn:Hr; cbn [orb].
  1-4: rewrite !app_String; cbn [readCsv]; rewrite Ascii.eqb_refl;
    rewrite string_app_assoc, readCsv_quoted, app_empty_l; rewrite app_String;
    cbn [readCsv]; rewrite Ascii.eqb_refl; unfold afterField;
    destruct Hsep as [-> | ->]; reflexivity.
  destruct f as [|a f].
  - rewrite app_empty_l. unfold afterField. destruct Hsep as [-> | ->]; reflexivity.
  - apply includes_cons in Hc as [Ha Hc]. apply includes_cons in Hq as [Ha' Hq].
    apply includes_cons in Hl as [Ha'' Hl].
    rewrite app_String. cbn [readCsv]. rewrite Ha', Ha, Ha''.
    rewrite readCsv_plain by assumption. unfold afterField.
    destruct Hsep as [-> | ->]; reflexivity.
Qed.

(** A row of at least one field, written and ended by a line feed, is read
    back as one record. *)
Lemma readCsv_row (fields : list string) :
  fields <> [] ->
  forall rest record records,
    readCsv (join "," (List.map escapeCsv fields) +:+ nl +:+ rest)
      FieldStart "" record records
    = readCsv rest FieldStart "" [] (records ++ [record ++ fields]).
Proof.
  induction fields as [|f fields IH]; [done|]. intros _ rest record records.
  destruct fields as [|f2 fields].
  - change (join "," (List.map escapeCsv [f])) with (escapeCsv f).
    unfold nl. rewrite app_String, app_empty_l.
    rewrite readCsv_field by (now right). reflexivity.
  - change (join "," (List.map escapeCsv (f :: f2 :: fields)))
      with (escapeCsv f +:+ "," +:+ join "," (List.map escapeCsv (f2 :: fields))).
    rewrite !string_app_assoc.
    change ("," +:+ ?s) with (String comma s).
    rewrite readCsv_field by (now left). unfold afterField.
    change (Ascii.eqb comma comma) with true. cbv iota.
    rewrite IH by discriminate. unfold endField. now rewrite <- app_assoc.
Qed.

Lemma strings_length (values : list json) (texts : list string) :
  strings values = inr texts -> List.length texts = List.length values.
Proof.
  revert texts. induction values as [|v values IH]; intros texts H; cbn [strings] in H.
  - now injection H as <-.
  - destruct (String_ v); [discriminate|]. destruct (strings values); [discriminate|].
    injection H as <-. cbn [List.length]. f_equal. now apply IH.
Qed.

Lemma rowTexts_length (item : json) (texts : list string) :
  rowTexts item = inr texts -> List.length texts = 9%nat.
Proof.
  unfold rowTexts, rowValues. intros H.
  destruct (read "TagNumber" item); [discriminate|].
  now apply strings_length in H.
Qed.

(** What [appendRows] adds to the text is read back as one record per item,
    the texts of its nine values. *)
Lemma appendRows_read (items : list json) :
  forall acc out,
    appendRows items acc = inr out ->
    exists rows body,
      out = acc +:+ body
      /\ Forall2 (fun item row => rowTexts item = inr row) items rows
      /\ forall records, readCsv body FieldStart "" [] records = records ++ rows.
Proof.
  induction items as [|item items IH]; intros acc out H; cbn [appendRows] in H.
  - injection H as <-. exists [], "". rewrite app_empty_r. repeat split; [constructor|].
    intros records. cbn [readCsv]. now rewrite app_nil_r.
  - destruct (rowTexts item) as [|texts] eqn:E; [discriminate|].
    apply IH in H as (rows & body & -> & Hrows & Hread).
    exists (texts :: rows), (join "," (List.map escapeCsv texts) +:+ nl +:+ body).
    split; [now rewrite !string_app_assoc|]. split; [now constructor|].
    intros records. rewrite readCsv_row.
    + rewrite Hread. cbn [app]. now rewrite <- app_assoc.
    + apply rowTexts_length in E. now destruct texts.
Qed.

Lemma appendRows_first_failure (items : list json) :
  forall acc e,
    appendRows items acc = inl e <->
    exists before item rest,
      items = before ++ item :: rest
      /\ Forall (fun i => exists texts, rowTexts i = inr texts) before
      /\ rowTexts item = inl e.
Proof.
  induction items as [|item items IH]; intros acc e; cbn [appendRows].
  - split; [discriminate|]. intros (before & i & rest & H & _). now destruct before.
  - destruct (rowTexts item) as [e'|texts] eqn:E.
    + split.
      * intros [= ->]. exists [], item, items. repeat split; [constructor|assumption].
      * intros (before & i & rest & H & Hb & Hi). destruct before as [|b before].
        -- injection H as -> ->. congruence.
        -- injection H as -> ->. inversion Hb as [|? ? [t Ht] ?]. congruence.
    + rewrite IH. split.
      * intros (before & i & rest & -> & Hb & Hi).
        exists (item :: before), i, rest. repeat split; [|assumption].
        constructor; [now exists texts|assumption].
      * intros (before & i & rest & H & Hb & Hi). destruct before as [|b before].
        -- injection H as -> ->. congruence.
        -- injection H as -> ->. inversion Hb; subst.
           exists before, i, rest. now repeat split.
Qed.

Lemma convertJsonToCsv_unfold (localeString : string) (data : json) (certId : prim) :
  convertJsonToCsv localeString data certId
  = let overrideData := (overrideData_of data).1 in
    let csvContent := preamble localeString certId (overrideData_of data).2 in
    match overrideData with
    | [] => inr (csvContent +:+ "No override data found" +:+ nl)
    | _ => appendRows overrideData (csvContent +:+ join "," headers +:+ nl)
    end.
Proof.
  unfold convertJsonToCsv. destruct (overrideData_of data) as [items total].
  cbn [fst snd]. now destruct items.
Qed.

Lemma total_is_length (data : json) :
  (overrideData_of data).2 = Z.of_nat (List.length (overrideData_of data).1).
Proof.
  destruct data as [| | | |items|ms]; try reflexivity.
  unfold overrideData_of. destruct (own "Data" ms) as [[]|]; reflexivity.
Qed.

(** X9: when the export succeeds on at least one item, the file is the
    preamble followed by a table that a CSV reader takes apart into the header
    record and, for each item in order, one record of nine fields, which are
    the texts of the item's nine values, whatever commas, quotes or line
    breaks they hold. *)
Theorem table_reads_back (localeString : string) (data : json) (certId : prim)
    (csvContent : string) :
  convertJsonToCsv localeString data certId = inr csvContent ->
  (overrideData_of data).1 <> [] ->
  exists (table : string) (rows : list (list string)),
    csvContent = preamble localeString certId (overrideData_of data).2 +:+ table
    /\ readTable table = headers :: rows
    /\ Forall2 (fun item row => rowTexts item = inr row) (overrideData_of data).1 rows
    /\ Forall (fun row => List.length row = 9%nat) rows
    /\ (overrideData_of data).2 = Z.of_nat (List.length rows).
Proof.
  rewrite convertJsonToCsv_unfold. cbv zeta. rewrite (total_is_length data).
  destruct (overrideData_of data).1 as [|item items] eqn:E; [done|]. intros H _.
  apply appendRows_read in H as (rows & body & -> & Hrows & Hread).
  exists (join "," (List.map escapeCsv headers) +:+ nl +:+ body), rows.
  split; [|split; [|split; [|split]]].
  5: { f_equal. eapply Forall2_length, Hrows. }
  - change (List.map escapeCsv headers) with headers. now rewrite !string_app_assoc.
  - unfold readTable. rewrite readCsv_row by discriminate. now rewrite Hread.
  - assumption.
  - clear -Hrows. induction Hrows as [|i r items0 rs Hi _ IH]; constructor; [|assumption].
    now apply rowTexts_length in Hi.
Qed.

Lemma table_reads_back_witness :
  exists csvContent table rows,
    convertJsonToCsv "2025-10-15 09:30:00" sampleData (Str "1054470") = inr csvContent
    /\ csvContent = preamble "2025-10-15 09:30:00" (Str "1054470") 2 +:+ table
    /\ readTable table = headers :: rows
    /\ Forall2 (fun item row => rowTexts item = inr row) [sampleItem; JObj []] rows
    /\ Forall (fun row => List.length row = 9%nat) rows.
Proof.
  destruct (convertJsonToCsv "2025-10-15 09:30:00" sampleData (Str "1054470"))
    as [e|csvContent] eqn:E; [vm_compute in E; discriminate|].
  destruct (table_reads_back _ _ _ _ E) as (table & rows & H1 & H2 & H3 & H4 & _).
  - vm_compute. discriminate.
  - exists csvContent, table, rows. repeat split; assumption.
Defined.

(** X10: the envelope is transparent: an object whose [Data] is an array is
    exported as that array, and any other object as the array holding it
    alone. *)
Theorem envelope_is_transparent (localeString : string)
    (ms : list (string * json)) (certId : prim) :
  convertJsonToCsv localeString (JObj ms) certId
  = convertJsonToCsv localeString
      (JArr match own "Data" ms with
            | Some (JArr items) => items
            | _ => [JObj ms]
            end) certId.
Proof.
  unfold convertJsonToCsv, overrideData_of.
  destruct (own "Data" ms) as [[]|]; reflexivity.
Qed.

(** X11: data that is neither an object nor an array with an item (a
    [null], a number, a text, a boolean, an empty array) is not an error: the
    file announces no overrides and has neither header nor rows. *)
Theorem nothing_to_export (localeString : string) (data : json) (certId : prim) :
  (forall ms, data <> JObj ms) ->
  (forall item items, data <> JArr (item :: items)) ->
  convertJsonToCsv localeString data certId
  = inr (preamble localeString certId 0 +:+ "No override data found" +:+ nl).
Proof.
  intros Hobj Harr. destruct data as [| | | |[|item items]|ms]; try reflexivity.
  - now destruct (Harr item items).
  - now destruct (Hobj ms).
Qed.

Lemma nothing_to_export_witness :
  (forall ms, JNull <> JObj ms)
  /\ (forall item items, JNull <> JArr (item :: items))
  /\ convertJsonToCsv "2025-10-15 09:30:00" JNull (Str "1054470")
     = inr (preamble "2025-10-15 09:30:00" (Str "1054470") 0
            +:+ "No override data found" +:+ nl).
Proof.
  assert (forall ms, JNull <> JObj ms) as H1 by discriminate.
  assert (forall item items, JNull <> JArr (item :: items)) as H2 by discriminate.
  exact (conj H1 (conj H2 (nothing_to_export _ JNull _ H1 H2))).
Defined.

Lemma json_nested_ind (P : json -> Prop) :
  P JNull -> (forall b, P (JBool b)) -> (forall n, P (JNum n)) ->
  (forall s, P (JStr s)) ->
  (forall items, Forall P items -> P (JArr items)) ->
  (forall ms, P (JObj ms)) ->
  forall j, P j.
Proof.
  intros Hnull Hbool Hnum Hstr Harr Hobj. fix IH 1. intros [| b | n | s | items | ms].
  - apply Hnull.
  - apply Hbool.
  - apply Hnum.
  - apply Hstr.
  - apply Harr. induction items as [|x items IHitems]; constructor;
      [apply IH | apply IHitems].
  - apply Hobj.
Qed.

Lemma collect_inr {A : Type} (l : list (error + A)) :
  (exists r, collect l = inr r) <-> Forall (fun x => exists a, x = inr a) l.
Proof.
  induction l as [|[e|a] l IH]; cbn [collect].
  - split; [intros _; apply Forall_nil; exact I | intros _; exists []; reflexivity].
  - split; [intros [? [=]] | intros H; inversion H as [|? ? [? ?] ?]; discriminate].
  - split.
    + intros [r H]. constructor; [eauto|]. apply IH.
      destruct (collect l); [discriminate|eauto].
    + intros H. inversion H as [|? ? _ Hl]. apply IH in Hl as [r ->]. eauto.
Qed.

(** [String(value)] succeeds on exactly the printable values. *)
Lemma String_printable (j : json) :
  (exists s, String_ j = inr s) <-> printable j = true.
Proof.
  revert j. apply json_nested_ind.
  - split; [reflexivity | now exists "null"].
  - intros b. split; [reflexivity | destruct b; cbn; eauto].
  - intros n. split; [reflexivity | cbn; eauto].
  - intros s. split; [reflexivity | cbn; eauto].
  - intros items IH. cbn [String_ printable].
    rewrite forallb_forall, <- List.Forall_forall.
    transitivity (Forall (fun x => exists a,
                    match x with JNull => inr "" | _ => String_ x end = inr a) items).
    + rewrite <- Forall_map with (f := fun x => match x with
                                                  | JNull => inr ""
                                                  | _ => String_ x
                                                  end)
                                 (P := fun y : error + string => exists a, y = inr a).
      rewrite <- collect_inr. split.
      * intros [s H]. destruct (collect _); [discriminate|eauto].
      * intros [r ->]. eauto.
    + induction IH as [|x items Hx _ IHl]; [split; constructor|].
      split; intros H; inversion H as [|? ? H1 H2]; subst; constructor;
        try (now apply IHl).
      * destruct x; try reflexivity; now apply Hx.
      * destruct x; eauto; now apply Hx.
  - intros ms. cbn [String_ printable]. destruct (own "toString" ms); split;
      try discriminate; eauto. intros [? [=]].
Qed.

Lemma strings_printable (values : list json) :
  (exists texts, strings values = inr texts) <-> forallb printable values = true.
Proof.
  induction values as [|v values IH]; cbn [strings forallb].
  - split; [reflexivity | intros _; now exists []].
  - rewrite andb_true_iff, <- IH, <- String_printable. split.
    + intros [texts H]. destruct (String_ v) as [|s]; [discriminate|].
      destruct (strings values) as [|ss]; [discriminate|]. eauto.
    + intros [[s ->] [ss ->]]. eauto.
Qed.

Lemma rowTexts_exportable (item : json) :
  (exists texts, rowTexts item = inr texts) <-> exportable item = true.
Proof.
  unfold rowTexts, exportable. destruct (rowValues item) as [e|values].
  - split; [intros [? [=]] | discriminate].
  - apply strings_printable.
Qed.

Lemma rowTexts_not_exportable (item : json) :
  (exists e, rowTexts item = inl e) <-> exportable item = false.
Proof.
  rewrite <- not_true_iff_false, <- rowTexts_exportable.
  destruct (rowTexts item) as [e|texts]; split; eauto.
  - intros _ [? [=]].
  - intros [? [=]].
  - intros H. destruct H. eauto.
Qed.

(** X12: the export throws exactly when some item is not exportable, that
    is when it is [null] or one of its nine values holds an object with a
    member named [toString]; the error is the one of the first such item,
    and nothing of the items before it is returned. *)
Theorem export_fails_at_first_bad_item (localeString : string) (data : json)
    (certId : prim) :
  ((exists csvContent, convertJsonToCsv localeString data certId = inr csvContent)
   <-> forallb exportable (overrideData_of data).1 = true)
  /\ forall e,
       convertJsonToCsv localeString data certId = inl e <->
       exists before item rest,
         (overrideData_of data).1 = before ++ item :: rest
         /\ forallb exportable before = true
         /\ exportable item = false
         /\ rowTexts item = inl e.
Proof.
  assert (forall e,
       convertJsonToCsv localeString data certId = inl e <->
       exists before item rest,
         (overrideData_of data).1 = before ++ item :: rest
         /\ forallb exportable before = true
         /\ exportable item = false
         /\ rowTexts item = inl e) as Hfail.
  { intros e. rewrite convertJsonToCsv_unfold. cbv zeta.
    destruct (overrideData_of data).1 as [|item items].
    - split; [discriminate|]. intros (before & i & rest & H & _). now destruct before.
    - rewrite appendRows_first_failure. split.
      + intros (before & i & rest & H & Hb & Hi). exists before, i, rest.
        repeat split; try assumption.
        * apply forallb_forall. intros x Hx. apply rowTexts_exportable.
          rewrite List.Forall_forall in Hb. now apply Hb.
        * apply rowTexts_not_exportable. eauto.
      + intros (before & i & rest & H & Hb & _ & Hi). exists before, i, rest.
        repeat split; try assumption.
        apply List.Forall_forall. intros x Hx. apply rowTexts_exportable.
        rewrite forallb_forall in Hb. now apply Hb. }
  split; [|exact Hfail].
  destruct (convertJsonToCsv localeString data certId) as [e|csvContent] eqn:E.
  - split; [intros [? [=]]|]. intros Hall.
    destruct (proj1 (Hfail e) eq_refl) as (before & i & rest & H & _ & Hi & _).
    rewrite H, forallb_app in Hall. cbn [forallb] in Hall. rewrite Hi in Hall.
    now rewrite andb_false_r in Hall.
  - split; [intros _ | eauto].
    destruct (forallb exportable (overrideData_of data).1) eqn:Hall; [reflexivity|].
    exfalso. clear Hfail. rewrite convertJsonToCsv_unfold in E. cbv zeta in E.
    destruct (overrideData_of data).1 as [|item items]; [discriminate|].
    apply appendRows_read in E as (rows & _ & _ & Hrows & _).
    assert (forallb exportable (item :: items) = true); [|congruence].
    apply forallb_forall. intros x Hx. apply rowTexts_exportable.
    clear Hall. induction Hrows as [|y r ys rs Hy _ IH]; [destruct Hx|].
    destruct Hx as [<- | Hx]; eauto.
Qed.

(** X13: a call makes exactly one request, whatever happens.  Either the
    reply was a success whose body parsed and whose data could be converted:
    then there is exactly one download, named after the certificate, holding
    the byte order mark and the converted text, and the promise is fulfilled
    with the success message.  Or there is no download at all, the last event
    is the error written to the console, and the promise is fulfilled (not
    rejected) with the message of that error. *)
Theorem export_downloads_iff_success (localeString : string)
    (answer : string -> error + reply) (certIdFromPopup : prim) :
  let fullUrl := "http://eptw.sakhalinenergy.ru/Soc/GetOverrides/"
                   +:+ ToString certIdFromPopup in
  let events := (fetchAndSaveOverrideData localeString answer certIdFromPopup).1 in
  let result := (fetchAndSaveOverrideData localeString answer certIdFromPopup).2 in
  List.length (List.filter is_request events) = 1%nat
  /\ ((exists response data csvContent,
         answer fullUrl = inr response /\ ok response = true
         /\ parsed response = inr data
         /\ convertJsonToCsv localeString data certIdFromPopup = inr csvContent
         /\ List.filter is_download events
            = [download ("override_data_" +:+ ToString certIdFromPopup +:+ ".csv")
                 "text/csv; charset=utf-8" (BOM +:+ csvContent)]
         /\ result = "Success for ID: " +:+ ToString certIdFromPopup)
      \/ (exists e,
            List.filter is_download events = []
            /\ List.last events (log []) = 
               log_error [AStr ("Error for ID " +:+ ToString certIdFromPopup +:+ ":");
                          AErr e]
            /\ result = "Error: " +:+ message e
            /\ (answer fullUrl = inl e
                \/ exists response,
                     answer fullUrl = inr response
                     /\ (ok response = false
                         /\ e = Error ("HTTP error! Status: "
                                       +:+ ToString (Num (status response)))
                         \/ ok response = true
                            /\ (parsed response = inl e
                                \/ exists data,
                                     parsed response = inr data
                                     /\ convertJsonToCsv localeString data
                                          certIdFromPopup = inl e))))).
Proof.
  cbv zeta. unfold fetchAndSaveOverrideData. cbv zeta.
  destruct (answer _) as [e|response] eqn:Ea.
  { split; [reflexivity|]. right. exists e. repeat split; auto. }
  destruct (ok response) eqn:Eok; cbn [negb].
  2: { split; [reflexivity|]. right. eexists. repeat split. right.
       exists response. split; [reflexivity|]. left. auto. }
  destruct (parsed response) as [e|data] eqn:Ep.
  { split; [reflexivity|]. right. exists e. repeat split. right.
    exists response. split; [reflexivity|]. right. auto. }
  destruct (convertJsonToCsv localeString data certIdFromPopup) as [e|csvContent] eqn:Ec.
  { split; [reflexivity|]. right. exists e. repeat split. right.
    exists response. split; [reflexivity|]. right. split; [assumption|]. right.
    exists data. auto. }
  split; [reflexivity|]. left. exists response, data, csvContent. repeat split; auto.
Qed.

End CsvFacts.

(** * Discovery of the cascade options *)

Module DiscoveryFacts.
Import JS Json CsvExport CsvFacts Discovery.

Lemma collect_cons {A : Type} (x : error + A) (l : list (error + A)) (r : list A) :
  collect (x :: l) = inr r <->
  exists a r', x = inr a /\ collect l = inr r' /\ r = a :: r'.
Proof.
  cbn [collect]. destruct x as [e|a].
  - split; [discriminate | intros (? & ? & [=] & _)].
  - destruct (collect l) as [e|r'].
    + split; [discriminate | intros (? & ? & _ & [=] & _)].
    + split.
      * intros [= <-]. now exists a, r'.
      * intros (? & ? & [= <-] & [= <-] & ->). reflexivity.
Qed.

Lemma elementText_printable (item : json) (v : option json) :
  read "Text" item = inr v ->
  (exists text, elementText v = inr text) <-> hasPrintableText item = true.
Proof.
  destruct item as [| b | n | s | items | ms]; cbn [read hasPrintableText];
    try discriminate; intros [= <-]; try (split; [reflexivity | now exists ""]).
  destruct (own "Text" ms) as [j|]; [|split; [reflexivity | now exists ""]].
  rewrite <- String_printable. destruct j; try reflexivity.
  split; [now exists "null" | now exists ""].
Qed.

(** The names of the items can be taken and joined exactly when the data
    is listable. *)
Lemma listable_items (items : list json) :
  forallb hasPrintableText items = true <->
  exists names, collect (List.map (read "Text") items) = inr names
                /\ exists texts, collect (List.map elementText names) = inr texts.
Proof.
  induction items as [|item items IH]; cbn [forallb List.map].
  - split; [intros _; exists []; split; [reflexivity | now exists []] | reflexivity].
  - rewrite andb_true_iff, IH. split.
    + intros [Hitem (names & Hn & texts & Ht)].
      destruct (read "Text" item) as [e|v] eqn:E.
      { destruct item; try discriminate. }
      apply (elementText_printable _ _ E) in Hitem as [text Htext].
      exists (v :: names). split; [apply collect_cons; now exists v, names|].
      exists (text :: texts). cbn [List.map]. apply collect_cons. now exists text, texts.
    + intros (names & Hn & texts & Ht).
      apply collect_cons in Hn as (v & names' & Hv & Hn & ->).
      cbn [List.map] in Ht. apply collect_cons in Ht as (text & texts' & Htext & Ht & ->).
      split; [apply (elementText_printable _ _ Hv); eauto | eauto].
Qed.

Lemma listable_spec (receiver sep : string) (data : json) :
  listable data = true <->
  exists names joined,
    texts_of receiver data = inr names /\ joinTexts sep names = inr joined.
Proof.
  destruct data as [| b | n | s | items | ms]; cbn [listable texts_of];
    try (split; [discriminate | intros (? & ? & [=] & _)]).
  rewrite listable_items. unfold joinTexts. split.
  - intros (names & Hn & texts & Ht). exists names, (join sep texts).
    now rewrite Ht.
  - intros (names & joined & Hn & Hj). exists names. split; [assumption|].
    destruct (collect (List.map elementText names)) as [|texts]; [discriminate|eauto].
Qed.

Lemma collect_TypeError {A : Type} (l : list (error + A)) (e : error) :
  collect l = inl e -> Forall (fun x => forall e', x = inl e' -> kind e' = TypeErrorK) l ->
  kind e = TypeErrorK.
Proof.
  induction l as [|[e'|a] l IH]; cbn [collect]; [discriminate| |].
  - intros [= ->] H. inversion H; subst. auto.
  - destruct (collect l); [|discriminate]. intros [= ->] H. inversion H; subst. auto.
Qed.

Lemma String_TypeError (j : json) (e : error) :
  String_ j = inl e -> kind e = TypeErrorK.
Proof.
  revert j e. apply (json_nested_ind (fun j => forall e, String_ j = inl e -> kind e = TypeErrorK));
    try (intros; cbn in *; discriminate).
  - intros [|] e; discriminate.
  - intros items IH e. cbn [String_].
    destruct (collect _) as [e'|] eqn:E; [|discriminate]. intros [= <-].
    apply collect_TypeError in E; [assumption|].
    apply Forall_map. eapply Forall_impl; [exact IH|]. intros x Hx e0.
    destruct x; try discriminate; apply Hx.
  - intros ms e. cbn [String_]. destruct (own "toString" ms); [|discriminate].
    now intros [= <-].
Qed.

Lemma texts_of_TypeError (receiver : string) (data : json) (e : error) :
  texts_of receiver data = inl e -> kind e = TypeErrorK.
Proof.
  destruct data as [| b | n | s | items | ms]; cbn [texts_of]; try (now intros [= <-]).
  intros H. apply collect_TypeError in H; [assumption|].
  apply Forall_map, List.Forall_forall. intros x _ e'. destruct x; try discriminate.
  now intros [= <-].
Qed.

Lemma joinTexts_TypeError (sep : string) (names : list (option json)) (e : error) :
  joinTexts sep names = inl e -> kind e = TypeErrorK.
Proof.
  unfold joinTexts. destruct (collect _) as [e'|] eqn:E; [|discriminate]. intros [= <-].
  apply collect_TypeError in E; [assumption|].
  apply Forall_map, List.Forall_forall. intros [j|] _ e0; [|discriminate].
  destruct j; try discriminate; apply String_TypeError.
Qed.

Lemma gets_app (a b : list event) : gets (a ++ b) = gets a ++ gets b.
Proof. unfold gets. apply omap_app. Qed.

Lemma quickLoop_spec (answer : string -> fetched) (entries : list (string * string)) :
  forall events,
    gets (quickLoop answer entries events).1
    = gets events ++ List.map (fun typeId => methodsUrl (parseInt typeId))
                       (asked answer (List.map fst entries))
    /\ ((quickLoop answer entries events).2 = inr tt <->
        forallb (fun typeId => negb (ends answer typeId)) (List.map fst entries) = true)
    /\ forall e, (quickLoop answer entries events).2 = inl e -> kind e = TypeErrorK.
Proof.
  induction entries as [|[typeId typeName] entries IH]; intros events.
  - cbn. rewrite app_nil_r. repeat split; discriminate.
  - cbn [quickLoop List.map fst asked forallb]. unfold getOverrideMethodsByType, ends.
    destruct (answer (methodsUrl (parseInt typeId))) as [e|[e|data]]; cbn [negb andb].
    1,2: destruct (IH ((events ++ [get (methodsUrl (parseInt typeId));
                log_error [AStr ("❌ Failed to get methods for type "
                                 +:+ ToString (parseInt typeId) +:+ ":"); AErr e]])
               ++ [log [AStr (LFs +:+ typeName +:+ ": Failed to load methods")]]))
        as (H1 & H2 & H3);
      rewrite H1, !gets_app; cbn [gets omap url_of List.map app];
      rewrite !app_nil_r, <- app_assoc; repeat split; try apply H2; apply H3.
    destruct (listable data) eqn:El; cbn [negb].
    + apply (listable_spec "methodsResult.data" ", ") in El as (names & joined & -> & ->).
      match goal with
      | |- context [quickLoop answer entries ?evs] =>
          destruct (IH evs) as (H1 & H2 & H3)
      end.
      rewrite H1, !gets_app. cbn [gets omap url_of List.map app].
      rewrite !app_nil_r, <- app_assoc. repeat split; try apply H2; apply H3.
    + destruct (texts_of "methodsResult.data" data) as [e|names] eqn:Et.
      { cbn [fst snd]. rewrite gets_app. cbn. repeat split; try discriminate.
        intros e' [= <-]. eapply texts_of_TypeError, Et. }
      destruct (joinTexts ", " names) as [e|joined] eqn:Ej.
      { cbn [fst snd]. rewrite !gets_app. cbn. rewrite app_nil_r.
        repeat split; try discriminate.
        intros e' [= <-]. eapply joinTexts_TypeError, Ej. }
      assert (listable data = true); [|congruence].
      apply (listable_spec "methodsResult.data" ", "). eauto.
Qed.

(** X14: the quick discovery asks about the five types in ascending order,
    one request each, until an answer ends it: a request that fails, or a
    body that does not parse, is reported and the next type is asked; a
    parsed body whose names cannot be listed (not an array, a [null] item,
    a [Text] holding an object with a [toString] member) rejects the
    promise with a [TypeError] and the types after it are never asked. *)
Theorem quickDiscover_asks_until_malformed (answer : string -> fetched) :
  gets (quickDiscover answer).1
  = List.map (fun typeId => methodsUrl (parseInt typeId))
      (asked answer ["1"; "2"; "3"; "4"; "5"])
  /\ ((quickDiscover answer).2 = inr tt <->
      forallb (fun typeId => negb (ends answer typeId)) ["1"; "2"; "3"; "4"; "5"] = true)
  /\ forall e, (quickDiscover answer).2 = inl e -> kind e = TypeErrorK.
Proof.
  unfold quickDiscover.
  exact (quickLoop_spec answer typeMapping [log [AStr "🚀 Quick discovery of all types..."]]).
Qed.

Lemma stringOf_printable (v : option json) :
  (exists text, stringOf v = inr text) <-> printableOpt v = true.
Proof.
  destruct v as [j|]; [apply String_printable|]. split; [reflexivity | now exists "undefined"].
Qed.

Lemma stringOf_TypeError (v : option json) (e : error) :
  stringOf v = inl e -> kind e = TypeErrorK.
Proof. destruct v; [apply String_TypeError | discriminate]. Qed.

(** X15: the line of a method costs at most one request, none when the
    [Value] of the method has no text; the promise is fulfilled exactly
    when the method is describable (states that could not be fetched give
    a line too), and is otherwise rejected with a [TypeError]. *)
Theorem getMethodDetails_outcome (answer : string -> fetched) (method : json) :
  (List.length (gets (getMethodDetails answer method).1) <= 1)%nat
  /\ ((exists line, (getMethodDetails answer method).2 = inr line)
      <-> describable answer method = true)
  /\ (forall e, (getMethodDetails answer method).2 = inl e -> kind e = TypeErrorK)
  /\ (gets (getMethodDetails answer method).1 = [] <->
      forall Value, read "Value" method = inr Value -> printableOpt Value = false).
Proof.
  unfold getMethodDetails, describable, getOverrideStatesByMethod.
  destruct (read "Value" method) as [e|Value] eqn:EV.
  { destruct method; try discriminate. cbn in EV. injection EV as <-.
    cbn. split; [lia|]. split; [split; [intros [? [=]] | discriminate]|].
    split; [now intros e [= <-]|]. split; [discriminate | reflexivity]. }
  assert (exists Text, read "Text" method = inr Text) as [Text ET].
  { destruct method; try discriminate; cbn; eauto. }
  rewrite ET.
  destruct (stringOf Value) as [e|id] eqn:Eid.
  { cbn. split; [lia|]. split; [split; [intros [? [=]] | discriminate]|].
    split; [intros e' [= <-]; eapply stringOf_TypeError, Eid|].
    split; [|reflexivity]. intros _ V [= <-]. apply not_true_iff_false.
    rewrite <- stringOf_printable, Eid. intros [? [=]]. }
  assert (printableOpt Value = true) as HV by (apply stringOf_printable; eauto).
  assert (forall events : list string,
            statesUrl id :: events = [] <->
            (forall V, @inr error _ Value = inr V -> printableOpt V = false)) as Hget.
  { intros events. split; [discriminate|]. intros H. specialize (H _ eq_refl). congruence. }
  assert (printableOpt Text = true <-> exists text, stringOf Text = inr text) as HT
    by (symmetry; apply stringOf_printable).
  pose proof (listable_spec "statesResult.data" ",") as HL.
  destruct (answer (statesUrl id)) as [e|[e|data]].
  1,2: rewrite andb_true_r, HT; destruct (stringOf Text) as [e'|text] eqn:Etext; cbn;
    (split; [lia|]); (split; [split; [intros [? [=]]; eauto | intros [? [=]]; eauto]|]);
    (split; [intros e0 [= <-]; eapply stringOf_TypeError; eassumption | apply Hget]).
  rewrite andb_true_iff, HT, HL.
  destruct (texts_of "statesResult.data" data) as [e|stateNames] eqn:Et.
  { cbn. split; [lia|]. split; [split; [intros [? [=]] | intros [_ (? & ? & [=] & _)]]|].
    split; [intros e0 [= <-]; eapply texts_of_TypeError, Et | apply Hget]. }
  destruct (stringOf Text) as [e'|text] eqn:Etext.
  { cbn. split; [lia|]. split; [split; [intros [? [=]] | intros [[? [=]] _]]|].
    split; [intros e0 [= <-]; eapply stringOf_TypeError, Etext | apply Hget]. }
  destruct (joinTexts "," stateNames) as [e|names] eqn:Ej.
  { cbn. split; [lia|].
    split; [split; [intros [? [=]] | intros [_ (? & ? & Hn & H)]; congruence]|].
    split; [intros e0 [= <-]; eapply joinTexts_TypeError, Ej | apply Hget]. }
  cbn. split; [lia|].
  split; [split; [intros _; split; [eauto | exists stateNames, names; now split] | eauto]|].
  split; [intros ? [=] | apply Hget].
Qed.

End DiscoveryFacts.
